(** * Job_Agent: the worker pipeline (Scout, Normalize, FitScore, Materials,
      Compliance) over the Postgres tables and the BullMQ queues.

    The five workers of [apps/worker/src/workers] are embedded as programs of
    a small state-and-exception monad over a [world] made of the four tables
    and the four downstream queues.  Everything a worker awaits from outside
    the process (the Greenhouse feed, the ASI:One completion, the clock, the
    knowledge-base files) is an explicit argument of its model. *)

From Stdlib Require Import List String Ascii Bool Arith ZArith QArith Lia.
From Stdlib Require Import DecimalString Lqa.
Import ListNotations.

Local Open Scope string_scope.
Local Open Scope list_scope.

#[local] Set Warnings "-register-all".

(** ** JavaScript values *)

Module JS.

(** A JavaScript number: the finite doubles are read as the rationals they
    denote, which is exact for comparison, [Math.min] and [Math.max]. *)
Inductive jsnum : Type :=
| NaN
| NegInf
| Fin (q : Q)
| PosInf.

(** [a <= b] on numbers; every comparison with [NaN] is false. *)
Definition num_leb (a b : jsnum) : bool :=
  match a, b with
  | NaN, _ | _, NaN => false
  | NegInf, _ => true
  | _, PosInf => true
  | Fin x, Fin y => Qle_bool x y
  | _, _ => false
  end.

(** [a >= b]. *)
Definition num_geb (a b : jsnum) : bool := num_leb b a.

(** [a < b]. *)
Definition num_ltb (a b : jsnum) : bool :=
  match a, b with
  | NaN, _ | _, NaN => false
  | _, _ => negb (num_leb b a)
  end.

(** [Math.min(a, b)] and [Math.max(a, b)]: [NaN] is contagious. *)
Definition Math_min (a b : jsnum) : jsnum :=
  match a, b with
  | NaN, _ | _, NaN => NaN
  | _, _ => if num_leb a b then a else b
  end.

Definition Math_max (a b : jsnum) : jsnum :=
  match a, b with
  | NaN, _ | _, NaN => NaN
  | _, _ => if num_leb a b then b else a
  end.

Definition num (z : Z) : jsnum := Fin (inject_Z z).

(** The values [JSON.parse] produces.  An object is the list of its own
    properties; a property that is not there reads as [undefined], which is
    [None] wherever a value is optional. *)
Inductive json : Type :=
| JNull
| JBool (b : bool)
| JNum (n : jsnum)
| JStr (s : string)
| JArr (items : list json)
| JObj (props : list (string * json)).

Definition undefined : option json := None.

Fixpoint lookup (k : string) (props : list (string * json)) : option json :=
  match props with
  | [] => None
  | (k', v) :: rest => if String.eqb k k' then Some v else lookup k rest
  end.

(** [a ?? b]: the right operand replaces [null] and [undefined] only. *)
Definition nullish (v : option json) : bool :=
  match v with
  | None | Some JNull => true
  | Some _ => false
  end.

Definition coalesce (v : option json) (d : json) : json :=
  match v with
  | None | Some JNull => d
  | Some x => x
  end.

(** ToBoolean. *)
Definition truthy (v : option json) : bool :=
  match v with
  | None | Some JNull => false
  | Some (JBool b) => b
  | Some (JNum NaN) => false
  | Some (JNum (Fin q)) => negb (Qeq_bool q 0)
  | Some (JNum _) => true
  | Some (JStr s) => negb (String.eqb s "")
  | Some (JArr _) | Some (JObj _) => true
  end.

(** [a || b]. *)
Definition or_else (v : option json) (d : json) : json :=
  match v with
  | Some x => if truthy v then x else d
  | None => d
  end.

(** [v === true]. *)
Definition is_true (v : option json) : bool :=
  match v with
  | Some (JBool true) => true
  | _ => false
  end.

(** [v === 0]. *)
Definition is_zero (v : option json) : bool :=
  match v with
  | Some (JNum (Fin q)) => Qeq_bool q 0
  | _ => false
  end.

(** A parameter handed to [pg.query]: [null] and [undefined] both become SQL
    NULL, written [JNull]. *)
Definition param (v : option json) : json := coalesce v JNull.

(** [String(n)] for an integer that a double holds exactly, and the decimal
    text of a row id inside a template literal. *)
Definition String_of_Z (z : Z) : string := NilZero.string_of_int (Z.to_int z).
Definition String_of_nat (n : nat) : string := NilZero.string_of_uint (Nat.to_uint n).

End JS.
Export JS.

(** ** The store and the broker *)

(** The [status] column of [job_postings]. *)
Inductive Status : Type :=
| Discovered
| Shortlisted
| Archived
| Drafting
| ReadyForReview.

(** A text or JSON column holds the value whose text the code stores
    ([JNull] is SQL NULL); the driver's encoding of it is not modelled. *)
Module Posting.
Record row : Type := mk {
  id : nat;
  source : string;
  source_job_id : string;
  company : json;
  title : json;
  level : json;
  location : json;
  remote_mode : json;
  visa_sponsorship : json;
  description_raw : json;
  description_structured : json;
  apply_url : json;
  date_posted : json;
  fit_score : json;
  fit_reasoning : json;
  risks : json;
  status : Status;
  notes : json
}.
End Posting.

Module FollowUp.
Record row : Type := mk {
  job_id : nat;
  followup_number : Z;
  scheduled_for : Z;      (* the UTC day, counted from 1970-01-01 *)
  status : string
}.
End FollowUp.

Module ResumeVersion.
Record row : Type := mk {
  id : nat;
  base_resume_hash : string;
  target_role : json;
  tailored_bullets : json
}.
End ResumeVersion.

Module Application.
Record row : Type := mk {
  job_id : nat;
  resume_version_id : option nat;
  cover_letter_id : option string;
  qa_answers_id : option string
}.
End Application.

Record CompliancePayload : Type := mkCompliancePayload {
  jobId : nat;
  resumeVersionId : option nat;
  coverLetter : option json;
  tailoredBullets : option json
}.

(** The four tables, and for each downstream queue the payloads added to it,
    oldest first. *)
Record world : Type := mkWorld {
  job_postings : list Posting.row;
  followups : list FollowUp.row;
  resume_versions : list ResumeVersion.row;
  applications : list Application.row;
  normalizeQueue : list nat;
  fitScoreQueue : list nat;
  materialsQueue : list nat;
  complianceQueue : list CompliancePayload
}.

Definition empty_world : world := mkWorld [] [] [] [] [] [] [] [].

Definition with_job_postings (f : list Posting.row -> list Posting.row) (w : world) : world :=
  mkWorld (f (job_postings w)) (followups w) (resume_versions w) (applications w)
          (normalizeQueue w) (fitScoreQueue w) (materialsQueue w) (complianceQueue w).

Definition with_followups (f : list FollowUp.row -> list FollowUp.row) (w : world) : world :=
  mkWorld (job_postings w) (f (followups w)) (resume_versions w) (applications w)
          (normalizeQueue w) (fitScoreQueue w) (materialsQueue w) (complianceQueue w).

Definition with_resume_versions (f : list ResumeVersion.row -> list ResumeVersion.row)
    (w : world) : world :=
  mkWorld (job_postings w) (followups w) (f (resume_versions w)) (applications w)
          (normalizeQueue w) (fitScoreQueue w) (materialsQueue w) (complianceQueue w).

Definition with_applications (f : list Application.row -> list Application.row)
    (w : world) : world :=
  mkWorld (job_postings w) (followups w) (resume_versions w) (f (applications w))
          (normalizeQueue w) (fitScoreQueue w) (materialsQueue w) (complianceQueue w).


(** ** Workers as programs *)

Inductive LogLevel : Type := LInfo | LWarn | LError.

Definition logline : Type := (LogLevel * string)%type.

(** How an evaluation ends: it returns, or it throws. *)
Inductive outcome (A : Type) : Type :=
| Returned (a : A)
| Thrown.
Arguments Returned {A} a.
Arguments Thrown {A}.

(** A program transforms the world, ends one way or the other, and leaves
    the lines it logged.  What was written before a throw stays written. *)
Definition M (A : Type) : Type := world -> outcome A * world * list logline.

Definition ret {A} (a : A) : M A := fun w => (Returned a, w, []).

Definition throw {A} : M A := fun w => (Thrown, w, []).

Definition bind {A B} (m : M A) (k : A -> M B) : M B := fun w =>
  match m w with
  | (Returned a, w1, l1) => let '(r, w2, l2) := k a w1 in (r, w2, l1 ++ l2)
  | (Thrown, w1, l1) => (Thrown, w1, l1)
  end.

(** An evaluation that touches neither the world nor the log. *)
Definition lift {A} (o : outcome A) : M A := fun w => (o, w, []).

(** [try { body } catch (err) { handler }]. *)
Definition try_catch {A} (body : M A) (handler : M A) : M A := fun w =>
  match body w with
  | (Thrown, w1, l1) => let '(r, w2, l2) := handler w1 in (r, w2, l1 ++ l2)
  | done => done
  end.

Definition logger (lvl : LogLevel) (msg : string) : M unit :=
  fun w => (Returned tt, w, [(lvl, msg)]).

Definition modify (f : world -> world) : M unit := fun w => (Returned tt, f w, []).

Definition gets {A} (f : world -> A) : M A := fun w => (Returned (f w), w, []).

Declare Scope worker_scope.
Delimit Scope worker_scope with worker.
Notation "x <- m ;; k" := (bind m (fun x => k))
  (at level 61, m at next level, right associativity) : worker_scope.
Notation "m ;; k" := (bind m (fun _ => k))
  (at level 61, right associativity) : worker_scope.
Local Open Scope worker_scope.

Definition result_of {A} (r : outcome A * world * list logline) : outcome A := fst (fst r).
Definition world_of {A} (r : outcome A * world * list logline) : world := snd (fst r).
Definition log_of {A} (r : outcome A * world * list logline) : list logline := snd r.

(** *** The reasoning service *)

(** How the stretch from building the prompt to [JSON.parse] ends. *)
Inductive completion : Type :=
| Rejected                (* a knowledge-base file cannot be read, the call
                             rejects, or there is no choices[0].message *)
| NoContent               (* message.content is null: the text parsed is "{}" *)
| Unparsable              (* JSON.parse throws *)
| Parses (v : json).

Definition parse_completion (c : completion) : outcome json :=
  match c with
  | Rejected | Unparsable => Thrown
  | NoContent => Returned (JObj [])
  | Parses v => Returned v
  end.

(** [v.k] for the names the workers read: a field of the object, or
    [length]. *)
Definition get_prop (k : string) (v : json) : option json :=
  match v with
  | JObj props => lookup k props
  | JArr items =>
      if String.eqb k "length" then Some (JNum (num (Z.of_nat (List.length items))))
      else None
  | JStr s =>
      if String.eqb k "length" then Some (JNum (num (Z.of_nat (String.length s))))
      else None
  | _ => None
  end.

(** Reading any property of [null] is a TypeError. *)
Definition member (v : json) (k : string) : outcome (option json) :=
  match v with
  | JNull => Thrown
  | _ => Returned (get_prop k v)
  end.

(** The description excerpt of the prompts: [row.description_raw.replace(...)]
    is a TypeError unless the column holds a string.  The excerpt itself only
    feeds the prompt. *)
Definition descSnippet (description_raw : json) : outcome unit :=
  match description_raw with
  | JStr _ => Returned tt
  | _ => Thrown
  end.

(** *** Statements *)

(** Modelled from the spec: the table declarations are not among the sources.
    A generated key is new to its table; it is taken one above the largest
    key the table holds. *)
Definition fresh_id (ids : list nat) : nat := S (list_max ids).

Definition same_posting_key (src sjid : string) (p : Posting.row) : bool :=
  String.eqb (Posting.source p) src && String.eqb (Posting.source_job_id p) sjid.

(** Modelled from the spec: the defaults of the columns the INSERT leaves out
    are not among the sources.  A new posting is stored as [Discovered], with
    NULL score, reasoning, risks and notes.

    INSERT INTO job_postings (...) VALUES ($1..$12)
    ON CONFLICT (source, source_job_id) DO NOTHING RETURNING id *)
Definition insert_job_posting (src sjid : string)
    (company title level location remote_mode visa_sponsorship
     description_raw description_structured apply_url date_posted : json) : M (list nat) :=
  fun w =>
    if existsb (same_posting_key src sjid) (job_postings w) then (Returned [], w, [])
    else
      let i := fresh_id (map Posting.id (job_postings w)) in
      let r := Posting.mk i src sjid company title level location remote_mode
                 visa_sponsorship description_raw description_structured apply_url
                 date_posted JNull JNull JNull Discovered JNull in
      (Returned [i], with_job_postings (fun t => t ++ [r]) w, []).

Definition has_id (jobId : nat) (p : Posting.row) : bool := Nat.eqb (Posting.id p) jobId.

(** SELECT ... FROM job_postings WHERE id = $1 *)
Definition select_job_posting (jobId : nat) : M (list Posting.row) :=
  gets (fun w => filter (has_id jobId) (job_postings w)).

(** UPDATE job_postings SET ... WHERE id = $1 *)
Definition update_where (jobId : nat) (set : Posting.row -> Posting.row) (p : Posting.row)
    : Posting.row :=
  if has_id jobId p then set p else p.

Definition update_job_posting (jobId : nat) (set : Posting.row -> Posting.row) : M unit :=
  modify (with_job_postings (map (update_where jobId set))).

Definition same_followup_key (jobId : nat) (number : Z) (f : FollowUp.row) : bool :=
  Nat.eqb (FollowUp.job_id f) jobId && Z.eqb (FollowUp.followup_number f) number.

(** INSERT INTO followups (job_id, followup_number, scheduled_for, status)
    VALUES ($1, $2, $3, 'pending')
    ON CONFLICT (job_id, followup_number) DO NOTHING *)
Definition followups_insert (jobId : nat) (number : Z) (scheduledFor : Z)
    (t : list FollowUp.row) : list FollowUp.row :=
  if existsb (same_followup_key jobId number) t then t
  else t ++ [FollowUp.mk jobId number scheduledFor "pending"].

Definition insert_followup (jobId : nat) (number : Z) (scheduledFor : Z) : M unit :=
  modify (with_followups (followups_insert jobId number scheduledFor)).

(** INSERT INTO resume_versions (base_resume_hash, target_role, tailored_bullets)
    VALUES ($1, $2, $3) RETURNING id *)
Definition insert_resume_version (baseHash : string) (role bullets : json) : M (list nat) :=
  fun w =>
    let i := fresh_id (map ResumeVersion.id (resume_versions w)) in
    (Returned [i],
     with_resume_versions (fun t => t ++ [ResumeVersion.mk i baseHash role bullets]) w, []).

Definition for_posting (jobId : nat) (a : Application.row) : bool :=
  Nat.eqb (Application.job_id a) jobId.

(** Modelled from the spec: the declaration of [applications] is not among
    the sources; the spec gives the table at most one row per posting, so the
    conflict that DO NOTHING absorbs is a second row for the same [job_id].

    INSERT INTO applications (job_id, resume_version_id, cover_letter_id, qa_answers_id)
    VALUES ($1, $2, $3, $4) ON CONFLICT DO NOTHING *)
Definition applications_insert (jobId : nat) (resumeVersionId : option nat)
    (coverLetterId qaAnswersId : option string) (t : list Application.row)
    : list Application.row :=
  if existsb (for_posting jobId) t then t
  else t ++ [Application.mk jobId resumeVersionId coverLetterId qaAnswersId].

Definition insert_application (jobId : nat) (resumeVersionId : option nat)
    (coverLetterId qaAnswersId : option string) : M unit :=
  modify (with_applications
            (applications_insert jobId resumeVersionId coverLetterId qaAnswersId)).

(** [queue.add(name, payload)]; the broker is taken to accept it. *)
Definition add_normalize (jobId : nat) : M unit :=
  modify (fun w => mkWorld (job_postings w) (followups w) (resume_versions w) (applications w)
                     (normalizeQueue w ++ [jobId]) (fitScoreQueue w) (materialsQueue w)
                     (complianceQueue w)).

Definition add_fitScore (jobId : nat) : M unit :=
  modify (fun w => mkWorld (job_postings w) (followups w) (resume_versions w) (applications w)
                     (normalizeQueue w) (fitScoreQueue w ++ [jobId]) (materialsQueue w)
                     (complianceQueue w)).

Definition add_materials (jobId : nat) : M unit :=
  modify (fun w => mkWorld (job_postings w) (followups w) (resume_versions w) (applications w)
                     (normalizeQueue w) (fitScoreQueue w) (materialsQueue w ++ [jobId])
                     (complianceQueue w)).

Definition add_compliance (p : CompliancePayload) : M unit :=
  modify (fun w => mkWorld (job_postings w) (followups w) (resume_versions w) (applications w)
                     (normalizeQueue w) (fitScoreQueue w) (materialsQueue w)
                     (complianceQueue w ++ [p])).

(** ** Scout *)

Module Target.
Record t : Type := mk { company : string; slug : string }.
End Target.

Definition GREENHOUSE_TARGETS : list Target.t :=
  [ Target.mk "Anthropic" "anthropic";
    Target.mk "OpenAI" "openai";
    Target.mk "Stripe" "stripe";
    Target.mk "Snowflake" "snowflake";
    Target.mk "Datadog" "datadoghq";
    Target.mk "Chime" "chime";
    Target.mk "Netflix" "netflix";
    Target.mk "NVIDIA" "nvidia";
    Target.mk "Figma" "figma";
    Target.mk "Notion" "notion";
    Target.mk "Confluent" "confluent";
    Target.mk "HashiCorp" "hashicorp" ].

Module GreenhouseJob.
Record t : Type := mk {
  id : Z;
  title : string;
  location : option string;     (* location?.name *)
  content : string;
  absolute_url : string;
  updated_at : option string
}.
End GreenhouseJob.

(** One entry of a feed, together with what the outside does while Scout
    handles it: the completion the extraction call gets, and whether the
    store fails the INSERT.  An entry whose [content] is not a string makes
    [stripHtml] throw inside the same [try], before the call: it is an entry
    whose extraction throws. *)
Record Discovery : Type := mkDiscovery {
  gh : GreenhouseJob.t;
  extraction : completion;
  insert_fails : bool
}.

(** What the fetch of one board gives.  The body is cast, not checked: its
    [jobs] may be anything. *)
Inductive http_body : Type :=
| BadBody                                     (* res.json() rejects, or gives null *)
| Body (jobs : option (list Discovery))       (* data.jobs, if any *)
| IllTyped.                                   (* data.jobs is no array of postings:
                                                 no [filter], or a null entry *)

Inductive http_reply : Type :=
| FetchRejects                                (* network error, 15 s timeout *)
| Response (ok : bool) (body : http_body).

(** What [fetchGreenhouseJobs] hands back under the type [GreenhouseJob[]]. *)
Inductive feed : Type :=
| Feed (jobs : list Discovery)
| NoFeed.                                     (* not an array of postings *)

Definition fetchGreenhouseJobs (reply : http_reply) : M feed :=
  match reply with
  | FetchRejects => throw
  | Response false _ => logger LWarn "[scout] greenhouse fetch non-ok" ;; ret (Feed [])
  | Response true BadBody => throw
  | Response true (Body None) => ret (Feed [])
  | Response true (Body (Some jobs)) => ret (Feed jobs)
  | Response true IllTyped => ret NoFeed
  end.

(** Strings are sequences of code units below 256. *)
Definition to_lower (c : ascii) : ascii :=
  let n := nat_of_ascii c in
  if (65 <=? n)%nat && (n <=? 90)%nat then ascii_of_nat (n + 32) else c.

Fixpoint lower (s : string) : string :=
  match s with
  | EmptyString => EmptyString
  | String c rest => String (to_lower c) (lower rest)
  end.

Definition includes (needle hay : string) : bool :=
  match String.index 0 needle hay with
  | Some _ => true
  | None => false
  end.

(** [[\s-]?]: nothing, a hyphen, or one white-space code unit. *)
Definition optional_sep : list string :=
  "" :: "-" :: map (fun n => String (ascii_of_nat n) "") [9; 10; 11; 12; 13; 32; 160]%nat.

(** /intern|new[\s-]?grad|entry[\s-]?level|summer 202/i *)
Definition early_career : list string :=
  ["intern"]
  ++ map (fun sep => ("new" ++ sep ++ "grad")%string) optional_sep
  ++ map (fun sep => ("entry" ++ sep ++ "level")%string) optional_sep
  ++ ["summer 202"].

Definition is_relevant (j : GreenhouseJob.t) : bool :=
  existsb (fun pat => includes pat (lower (GreenhouseJob.title j))) early_career.

Module ExtractedFields.
Record t : Type := mk {
  level : json;
  remoteMode : json;
  visaSponsorship : json;
  structured : json
}.
End ExtractedFields.

Fixpoint indexed {A} (i : nat) (l : list A) : list (string * A) :=
  match l with
  | [] => []
  | x :: rest => (String_of_nat i, x) :: indexed (S i) rest
  end.

Fixpoint code_units (s : string) : list json :=
  match s with
  | EmptyString => []
  | String c rest => JStr (String c EmptyString) :: code_units rest
  end.

(** [const { level, remoteMode, visaSponsorship, ...rest } = raw]: the own
    enumerable properties of [raw] other than the three named. *)
Definition object_rest (raw : json) : json :=
  match raw with
  | JObj props =>
      JObj (filter (fun kv => negb (existsb (String.eqb (fst kv))
                                      ["level"; "remoteMode"; "visaSponsorship"])) props)
  | JArr items => JObj (indexed 0 items)
  | JStr s => JObj (indexed 0 (code_units s))
  | _ => JObj []
  end.

(** Destructuring [null] is a TypeError. *)
Definition extractStructuredFields (c : completion) : outcome ExtractedFields.t :=
  match parse_completion c with
  | Thrown => Thrown
  | Returned JNull => Thrown
  | Returned raw =>
      Returned (ExtractedFields.mk
                  (or_else (get_prop "level" raw) (JStr "unknown"))
                  (or_else (get_prop "remoteMode" raw) (JStr "unknown"))
                  (or_else (get_prop "visaSponsorship" raw) (JStr "unknown"))
                  (object_rest raw))
  end.

Definition opt_param (s : option string) : json :=
  match s with
  | Some x => JStr x
  | None => JNull
  end.

Definition posting_key (j : GreenhouseJob.t) : string * string :=
  ("greenhouse", String_of_Z (GreenhouseJob.id j)).

(** The body of the inner loop of [runScout]; the number it returns is the
    running [discovered] count.  A generated id is never falsy, so the test
    on [rows[0]?.id] is a test on whether a row came back. *)
Definition scout_posting (target : Target.t) (d : Discovery) (discovered : nat) : M nat :=
  try_catch
    (fields <- lift (extractStructuredFields (extraction d)) ;;
     rows <- (if insert_fails d then throw
              else insert_job_posting
                     (fst (posting_key (gh d)))
                     (snd (posting_key (gh d)))
                     (JStr (Target.company target))
                     (JStr (GreenhouseJob.title (gh d)))
                     (ExtractedFields.level fields)
                     (opt_param (GreenhouseJob.location (gh d)))
                     (ExtractedFields.remoteMode fields)
                     (ExtractedFields.visaSponsorship fields)
                     (JStr (GreenhouseJob.content (gh d)))
                     (ExtractedFields.structured fields)
                     (JStr (GreenhouseJob.absolute_url (gh d)))
                     (opt_param (GreenhouseJob.updated_at (gh d)))) ;;
     match rows with
     | i :: _ =>
         add_normalize i ;;
         logger LInfo "[scout] new job — enqueued normalize" ;;
         ret (S discovered)
     | [] => ret discovered
     end)
    (logger LError "[scout] failed to process job" ;; ret discovered).

Fixpoint scout_postings (target : Target.t) (relevant : list Discovery) (discovered : nat)
    : M nat :=
  match relevant with
  | [] => ret discovered
  | d :: rest =>
      n <- scout_posting target d discovered ;;
      scout_postings target rest n
  end.

(** [jobs.filter((j) => /.../i.test(j.title))], outside both [try] blocks:
    a TypeError when [jobs] has no [filter] or an entry is [null]. *)
Definition pre_filter (jobs : feed) : outcome (list Discovery) :=
  match jobs with
  | Feed jobs => Returned (filter (fun d => is_relevant (gh d)) jobs)
  | NoFeed => Thrown
  end.

(** The body of the outer loop. *)
Definition scout_target (fetch : string -> http_reply) (target : Target.t) (discovered : nat)
    : M nat :=
  fetched <- try_catch
               (jobs <- fetchGreenhouseJobs (fetch (Target.slug target)) ;; ret (Some jobs))
               (logger LError "[scout] fetch failed, skipping" ;; ret None) ;;
  match fetched with
  | None => ret discovered
  | Some jobs =>
      relevant <- lift (pre_filter jobs) ;;
      logger LInfo "[scout] fetched greenhouse" ;;
      scout_postings target relevant discovered
  end.

Fixpoint scout_targets (fetch : string -> http_reply) (targets : list Target.t)
    (discovered : nat) : M nat :=
  match targets with
  | [] => ret discovered
  | t :: rest =>
      n <- scout_target fetch t discovered ;;
      scout_targets fetch rest n
  end.

Definition runScout (fetch : string -> http_reply) : M unit :=
  _ <- scout_targets fetch GREENHOUSE_TARGETS 0 ;;
  logger LInfo "[scout] run complete".

(** ** Normalize *)

(** [COALESCE($n, column)]. *)
Definition COALESCE (p old : json) : json :=
  match p with
  | JNull => old
  | _ => p
  end.

Definition set_normalized (t l r v loc : json) (p : Posting.row) : Posting.row :=
  Posting.mk (Posting.id p) (Posting.source p) (Posting.source_job_id p) (Posting.company p)
    (COALESCE t (Posting.title p))
    (COALESCE l (Posting.level p))
    (COALESCE loc (Posting.location p))
    (COALESCE r (Posting.remote_mode p))
    (COALESCE v (Posting.visa_sponsorship p))
    (Posting.description_raw p) (Posting.description_structured p) (Posting.apply_url p)
    (Posting.date_posted p) (Posting.fit_score p) (Posting.fit_reasoning p) (Posting.risks p)
    (Posting.status p) (Posting.notes p).

Definition runNormalize (jobId : nat) (c : completion) : M unit :=
  rows <- select_job_posting jobId ;;
  match rows with
  | [] => logger LWarn "[normalize] job not found"
  | row :: _ =>
      lift (descSnippet (Posting.description_raw row)) ;;
      normalized <- lift (parse_completion c) ;;
      normalizedTitle <- lift (member normalized "normalizedTitle") ;;
      level <- lift (member normalized "level") ;;
      remoteMode <- lift (member normalized "remoteMode") ;;
      visaSponsorship <- lift (member normalized "visaSponsorship") ;;
      normalizedLocation <- lift (member normalized "normalizedLocation") ;;
      update_job_posting jobId
        (set_normalized (param normalizedTitle) (param level) (param remoteMode)
                        (param visaSponsorship) (param normalizedLocation)) ;;
      add_fitScore jobId ;;
      logger LInfo "[normalize] complete — enqueued fit-score"
  end.

(** ** FitScore *)

Definition FIT_THRESHOLD : jsnum := num 60.

Definition set_fit (score reasoning risks : json) (st : Status) (p : Posting.row)
    : Posting.row :=
  Posting.mk (Posting.id p) (Posting.source p) (Posting.source_job_id p) (Posting.company p)
    (Posting.title p) (Posting.level p) (Posting.location p) (Posting.remote_mode p)
    (Posting.visa_sponsorship p) (Posting.description_raw p)
    (Posting.description_structured p) (Posting.apply_url p) (Posting.date_posted p)
    score reasoning risks st (Posting.notes p).

Definition set_status (st : Status) (p : Posting.row) : Posting.row :=
  Posting.mk (Posting.id p) (Posting.source p) (Posting.source_job_id p) (Posting.company p)
    (Posting.title p) (Posting.level p) (Posting.location p) (Posting.remote_mode p)
    (Posting.visa_sponsorship p) (Posting.description_raw p)
    (Posting.description_structured p) (Posting.apply_url p) (Posting.date_posted p)
    (Posting.fit_score p) (Posting.fit_reasoning p) (Posting.risks p) st (Posting.notes p).

Definition set_notes (n : json) (p : Posting.row) : Posting.row :=
  Posting.mk (Posting.id p) (Posting.source p) (Posting.source_job_id p) (Posting.company p)
    (Posting.title p) (Posting.level p) (Posting.location p) (Posting.remote_mode p)
    (Posting.visa_sponsorship p) (Posting.description_raw p)
    (Posting.description_structured p) (Posting.apply_url p) (Posting.date_posted p)
    (Posting.fit_score p) (Posting.fit_reasoning p) (Posting.risks p) (Posting.status p) n.

Section FitScore.

(** ToNumber on a string, an array or an object: the numeric-literal
    grammar and ToPrimitive are left open; [Thrown] is the TypeError of an
    object that has no primitive value. *)
Variable ToNumber_text : json -> outcome jsnum.

(** ToNumber, as [Math.min] applies it to an argument. *)
Definition ToNumber (v : json) : outcome jsnum :=
  match v with
  | JNull => Returned (num 0)
  | JBool true => Returned (num 1)
  | JBool false => Returned (num 0)
  | JNum n => Returned n
  | other => ToNumber_text other
  end.

(** [Math.max(0, Math.min(100, result.fitScore ?? 0))] *)
Definition clamped (fitScore : option json) : outcome jsnum :=
  match ToNumber (coalesce fitScore (JNum (num 0))) with
  | Returned n => Returned (Math_max (num 0) (Math_min (num 100) n))
  | Thrown => Thrown
  end.

Definition status_for (fitScore : jsnum) : Status :=
  if num_geb fitScore FIT_THRESHOLD then Shortlisted else Archived.

(** The [fit_score] column takes the number it is handed. *)
Definition runFitScore (jobId : nat) (c : completion) : M unit :=
  rows <- select_job_posting jobId ;;
  match rows with
  | [] => logger LWarn "[fit-score] job not found"
  | posting :: _ =>
      lift (descSnippet (Posting.description_raw posting)) ;;
      result <- lift (parse_completion c) ;;
      raw <- lift (member result "fitScore") ;;
      fitScore <- lift (clamped raw) ;;
      let newStatus := status_for fitScore in
      reasoning <- lift (member result "reasoning") ;;
      risks <- lift (member result "risks") ;;
      update_job_posting jobId
        (set_fit (JNum fitScore) (coalesce reasoning (JArr [])) (coalesce risks (JArr []))
                 newStatus) ;;
      logger LInfo "[fit-score] complete" ;;
      match newStatus with
      | Shortlisted =>
          add_materials jobId ;;
          logger LInfo "[fit-score] shortlisted — enqueued materials"
      | _ => ret tt
      end
  end.

End FitScore.

(** ** Materials *)

(** [JSON.stringify] of an object literal leaves out the properties that are
    [undefined]. *)
Fixpoint defined_props (props : list (string * option json)) : list (string * json) :=
  match props with
  | [] => []
  | (k, Some v) :: rest => (k, v) :: defined_props rest
  | (_, None) :: rest => defined_props rest
  end.

Definition artifact_id (prefix : string) (jobId : nat) (v : option json) : option string :=
  if truthy v then Some (prefix ++ String_of_nat jobId)%string else None.

(** [baseHash] is the sixteen hex digits kept of the SHA-256 of the base
    resume, a knowledge-base file. *)
Definition runMaterials (jobId : nat) (baseHash : string) (c : completion) : M unit :=
  rows <- select_job_posting jobId ;;
  match rows with
  | [] => logger LWarn "[materials] job not found"
  | posting :: _ =>
      update_job_posting jobId (set_status Drafting) ;;
      lift (descSnippet (Posting.description_raw posting)) ;;
      materials <- lift (parse_completion c) ;;
      bullets <- lift (member materials "tailoredBullets") ;;
      resumeRows <- insert_resume_version baseHash (Posting.title posting)
                      (coalesce bullets (JArr [])) ;;
      let resumeVersionId := hd_error resumeRows in
      cover <- lift (member materials "coverLetter") ;;
      qa <- lift (member materials "qaAnswers") ;;
      insert_application jobId resumeVersionId
        (artifact_id "cl-" jobId cover) (artifact_id "qa-" jobId qa) ;;
      why <- lift (member materials "whyCompany") ;;
      update_job_posting jobId
        (set_notes (JObj (defined_props
           [("coverLetter", cover); ("whyCompany", why); ("qaAnswers", qa)]))) ;;
      add_compliance (mkCompliancePayload jobId resumeVersionId cover bullets) ;;
      logger LInfo "[materials] complete — enqueued compliance"
  end.

(** ** Compliance *)

(** [[coverLetter ?? "", ...(tailoredBullets ?? [])].join("\n\n")]: spreading
    anything but an array or a string is a TypeError.  The text itself only
    feeds the prompt. *)
Definition draftContent (p : CompliancePayload) : outcome unit :=
  match coalesce (tailoredBullets p) (JArr []) with
  | JArr _ | JStr _ => Returned tt
  | _ => Thrown
  end.

(** [result.pass === true && (result.flags ?? []).length === 0] *)
Definition passed (result : json) : outcome bool :=
  match member result "pass" with
  | Thrown => Thrown
  | Returned pass =>
      if is_true pass then
        match member result "flags" with
        | Thrown => Thrown
        | Returned flags => Returned (is_zero (get_prop "length" (coalesce flags (JArr []))))
        end
      else Returned false
  end.

Definition MS_PER_DAY : Z := 86400000.

(** [new Date(ms).toISOString().split("T")[0]]: the UTC calendar day that
    holds the instant, kept as its number of days since 1970-01-01. *)
Definition iso_day (ms : Z) : Z := (ms / MS_PER_DAY)%Z.

Definition FOLLOWUP_PLAN : list (Z * Z) := [(1, 7); (2, 14)]%Z.

Fixpoint schedule_followups (jobId : nat) (today : Z) (plan : list (Z * Z)) : M unit :=
  match plan with
  | [] => ret tt
  | (followupNumber, daysOffset) :: rest =>
      insert_followup jobId followupNumber (iso_day (today + daysOffset * MS_PER_DAY)) ;;
      schedule_followups jobId today rest
  end.

(** [today] is the reading of the clock, in milliseconds, taken once a check
    has passed. *)
Definition runCompliance (job : CompliancePayload) (today : Z) (c : completion) : M unit :=
  lift (draftContent job) ;;
  result <- lift (parse_completion c) ;;
  ok <- lift (passed result) ;;
  let newStatus := if ok then ReadyForReview else Drafting in
  update_job_posting (jobId job) (set_status newStatus) ;;
  if ok then
    schedule_followups (jobId job) today FOLLOWUP_PLAN ;;
    logger LInfo "[compliance] PASSED — status=ReadyForReview, follow-ups scheduled"
  else
    logger LWarn "[compliance] FAILED — status=Drafting, requires human review".

(** ** Reading the store *)

(** [rows[0]] of a SELECT by id. *)
Definition posting_by_id (jobId : nat) (w : world) : option Posting.row :=
  hd_error (filter (has_id jobId) (job_postings w)).

Definition stored_under (key : string * string) (w : world) : list Posting.row :=
  filter (same_posting_key (fst key) (snd key)) (job_postings w).

Definition followups_of (jobId : nat) (w : world) : list FollowUp.row :=
  filter (fun f => Nat.eqb (FollowUp.job_id f) jobId) (followups w).

Definition applications_of (jobId : nat) (w : world) : list Application.row :=
  filter (for_posting jobId) (applications w).

(** The queues of a world. *)
Definition queues (w : world)
    : list nat * list nat * list nat * list CompliancePayload :=
  (normalizeQueue w, fitScoreQueue w, materialsQueue w, complianceQueue w).

(** ** The statements of the specification *)

(** Numeric equality of two numbers ([NaN] equals nothing). *)
Definition num_eqb (a b : jsnum) : bool := num_leb a b && num_leb b a.

(** The clamp to the closed interval from 0 to 100, in the spec's words:
    a score below 0 counts as 0, one above 100 as 100, any other as itself. *)
Definition clamp_0_100 (n : jsnum) : jsnum :=
  if num_ltb n (num 0) then num 0
  else if num_ltb (num 100) n then num 100
  else n.

(** The flag list of a Compliance response, as [ComplianceResult] types it:
    an array; left out or null, there are no flags. *)
Definition flag_list (result : json) : option (list json) :=
  match get_prop "flags" result with
  | None | Some JNull => Some []
  | Some (JArr flags) => Some flags
  | Some _ => None
  end.

(** A response that carries no number under [fitScore]. *)
Definition lacks_numeric_fitScore (result : json) : Prop :=
  forall n, get_prop "fitScore" result <> Some (JNum n).

(** The default on a malformed score, in the spec's words: whenever the
    response has no numeric [fitScore], the run returns, the score stored is
    0, the posting is Archived and nothing is enqueued. *)
Definition malformed_score_defaults_to_zero (ToNumber_text : json -> outcome jsnum) : Prop :=
  forall (jobId : nat) (c : completion) (w : world) (p : Posting.row) (result : json),
    posting_by_id jobId w = Some p ->
    descSnippet (Posting.description_raw p) = Returned tt ->
    parse_completion c = Returned result ->
    lacks_numeric_fitScore result ->
    let r := runFitScore ToNumber_text jobId c w in
    result_of r = Returned tt
    /\ option_map Posting.fit_score (posting_by_id jobId (world_of r)) = Some (JNum (num 0))
    /\ option_map Posting.status (posting_by_id jobId (world_of r)) = Some Archived
    /\ queues (world_of r) = queues w.

(** What a response supplies under a key: a value that is there and is not
    null. *)
Definition supplied (key : string) (response : json) : option json :=
  match get_prop key response with
  | None | Some JNull => None
  | Some v => Some v
  end.

(** A column after a run of Normalize for [jobId] on completion [c], against
    the column before: either it is kept, or the row is the task's and the
    new value is one the response supplies under the column's key. *)
Definition kept_or_supplied (jobId : nat) (c : completion)
    (column : Posting.row -> json) (key : string) (old new : Posting.row) : Prop :=
  column new = column old
  \/ (Posting.id old = jobId
      /\ exists response, parse_completion c = Returned response
                          /\ supplied key response = Some (column new)).

Definition coalesced (jobId : nat) (c : completion) (old new : Posting.row) : Prop :=
  kept_or_supplied jobId c Posting.title "normalizedTitle" old new
  /\ kept_or_supplied jobId c Posting.level "level" old new
  /\ kept_or_supplied jobId c Posting.remote_mode "remoteMode" old new
  /\ kept_or_supplied jobId c Posting.visa_sponsorship "visaSponsorship" old new
  /\ kept_or_supplied jobId c Posting.location "normalizedLocation" old new.

(** Every column of a posting but its status. *)
Definition other_columns (p : Posting.row) :=
  (Posting.id p, Posting.source p, Posting.source_job_id p, Posting.company p,
   Posting.title p, Posting.level p, Posting.location p, Posting.remote_mode p,
   Posting.visa_sponsorship p, Posting.description_raw p, Posting.description_structured p,
   Posting.apply_url p, Posting.date_posted p, Posting.fit_score p, Posting.fit_reasoning p,
   Posting.risks p, Posting.notes p).

(** A row before and after the status of posting [j] is set to [st]: the row
    of [j] reads [st] and is otherwise as it was, any other row is as it
    was. *)
Definition status_set (j : nat) (st : Status) (old new : Posting.row) : Prop :=
  Posting.id new = Posting.id old
  /\ (Posting.id old = j -> Posting.status new = st /\ other_columns new = other_columns old)
  /\ (Posting.id old <> j -> new = old).

(** The dedup key of a stored posting, and a table without two rows under
    one key. *)
Definition key_of (p : Posting.row) : string * string :=
  (Posting.source p, Posting.source_job_id p).

Definition unique_keys (t : list Posting.row) : Prop := NoDup (map key_of t).

(** What Scout may do to a world: append postings, each under a key the
    table did not hold, and add one Normalize task for each appended row, in
    the same order; everything else stays. *)
Definition scout_extends (w w' : world) : Prop :=
  exists rows : list Posting.row,
    job_postings w' = job_postings w ++ rows
    /\ normalizeQueue w' = normalizeQueue w ++ map Posting.id rows
    /\ Forall (fun r => Posting.status r = Discovered) rows
    /\ (unique_keys (job_postings w) -> unique_keys (job_postings w'))
    /\ followups w' = followups w
    /\ resume_versions w' = resume_versions w
    /\ applications w' = applications w
    /\ fitScoreQueue w' = fitScoreQueue w
    /\ materialsQueue w' = materialsQueue w
    /\ complianceQueue w' = complianceQueue w.

(** Two runs that end the same way in the same world; their logs may differ. *)
Definition same_effect {A} (r r' : outcome A * world * list logline) : Prop :=
  result_of r = result_of r' /\ world_of r = world_of r'.

(** A fetch that throws, and a posting whose handling throws. *)
Definition fetch_throws (reply : http_reply) : Prop :=
  forall w, result_of (fetchGreenhouseJobs reply w) = Thrown.

Definition posting_throws (d : Discovery) : Prop :=
  extractStructuredFields (extraction d) = Thrown \/ insert_fails d = true.

(** Every configured board that answers with a body answers with an array of
    postings: the pre-filter can go through it. *)
Definition well_typed_feeds (fetch : string -> http_reply) : Prop :=
  forall t, In t GREENHOUSE_TARGETS -> fetch (Target.slug t) <> Response true IllTyped.

(** A stored row that comes from a feed: some board among [targets]
    answered with an array of postings, one of them has a title that passes
    the pre-filter, and the row holds that posting's key, title, description
    and URL and the company of the board. *)
Definition taken_from (targets : list Target.t) (fetch : string -> http_reply)
    (row : Posting.row) : Prop :=
  exists (t : Target.t) (jobs : list Discovery) (d : Discovery),
    In t targets
    /\ fetch (Target.slug t) = Response true (Body (Some jobs))
    /\ In d jobs
    /\ is_relevant (gh d) = true
    /\ key_of row = posting_key (gh d)
    /\ Posting.company row = JStr (Target.company t)
    /\ Posting.title row = JStr (GreenhouseJob.title (gh d))
    /\ Posting.description_raw row = JStr (GreenhouseJob.content (gh d))
    /\ Posting.apply_url row = JStr (GreenhouseJob.absolute_url (gh d)).


(** The boards as [fetch] answers them, but for one. *)
Definition with_reply (slug : string) (reply : http_reply) (fetch : string -> http_reply)
    : string -> http_reply :=
  fun s => if String.eqb s slug then reply else fetch s.

(** ** Sample data *)

Definition sample_posting : Posting.row :=
  Posting.mk 1 "greenhouse" "4012" (JStr "Stripe") (JStr "Software Engineering Intern")
    (JStr "intern") (JStr "Seattle, WA") (JStr "hybrid") (JStr "unknown")
    (JStr "<p>Build payments.</p>") (JObj []) (JStr "https://boards.greenhouse.io/stripe/4012")
    JNull JNull JNull JNull Discovered JNull.

Definition sample_world : world := mkWorld [sample_posting] [] [] [] [1%nat] [] [] [].

Definition no_text : json -> outcome jsnum := fun _ => Returned NaN.

Definition sample_target : Target.t := Target.mk "Stripe" "stripe".

Definition sample_job : GreenhouseJob.t :=
  GreenhouseJob.mk 4012 "Software Engineering Intern" (Some "Seattle, WA")
    "<p>Build payments.</p>" "https://boards.greenhouse.io/stripe/4012"
    (Some "2026-10-01T00:00:00Z").

Definition sample_discovery : Discovery :=
  mkDiscovery sample_job (Parses (JObj [("level", JStr "intern"); ("techStack", JArr [])]))
    false.

(** A posting whose extraction call is rejected, and one the store refuses. *)
Definition unlucky_discovery : Discovery :=
  mkDiscovery (GreenhouseJob.mk 4013 "Data Science Intern" None "<p>Models.</p>"
                 "https://boards.greenhouse.io/stripe/4013" None)
    Rejected false.

Definition refused_discovery : Discovery :=
  mkDiscovery (GreenhouseJob.mk 4014 "New Grad Engineer" None "<p>Infra.</p>"
                 "https://boards.greenhouse.io/stripe/4014" None)
    (Parses (JObj [])) true.

(** Stripe answers with three postings, OpenAI times out, every other board
    is empty. *)
Definition sample_fetch : string -> http_reply :=
  fun slug =>
    if String.eqb slug "stripe"
    then Response true (Body (Some [unlucky_discovery; sample_discovery; refused_discovery]))
    else if String.eqb slug "openai" then FetchRejects
    else Response true (Body (Some [])).

(** ** The text of a description *)

(** A code unit that [\s] matches and [trim] removes. *)
Definition is_space (c : ascii) : bool :=
  existsb (Nat.eqb (nat_of_ascii c)) [9; 10; 11; 12; 13; 32; 160]%nat.

(** What [[\s-]?] matches: nothing, one hyphen, or one white-space code unit. *)
Definition separator (sep : string) : Prop :=
  sep = "" \/ sep = "-" \/ exists c, is_space c = true /\ sep = String c "".

(** A lower-cased title in which /intern|new[\s-]?grad|entry[\s-]?level|summer 202/
    finds a match, written out alternative by alternative. *)
Definition early_career_title (t : string) : Prop :=
  exists before after : string,
    t = (before ++ "intern" ++ after)%string
    \/ (exists sep, separator sep /\ t = (before ++ "new" ++ sep ++ "grad" ++ after)%string)
    \/ (exists sep, separator sep /\ t = (before ++ "entry" ++ sep ++ "level" ++ after)%string)
    \/ t = (before ++ "summer 202" ++ after)%string.

Definition is_lt (c : ascii) : bool := Ascii.eqb c "<".
Definition is_gt (c : ascii) : bool := Ascii.eqb c ">".

(** [html.replace(/<[^>]+>/g, " ")], read from left to right.  [open] holds
    what followed a ["<"] that has not met its [">"] yet: met with something
    in between, the whole tag becomes one space; met at once, or never met,
    the text stays as it is. *)
Fixpoint replace_tags (open : option string) (html : string) : string :=
  match html with
  | EmptyString =>
      match open with
      | None => EmptyString
      | Some seen => String "<" seen
      end
  | String c rest =>
      match open with
      | None =>
          if is_lt c then replace_tags (Some EmptyString) rest
          else String c (replace_tags None rest)
      | Some seen =>
          if is_gt c then
            match seen with
            | EmptyString => String "<" (String ">" (replace_tags None rest))
            | _ => String " " (replace_tags None rest)
            end
          else replace_tags (Some (seen ++ String c EmptyString)%string) rest
      end
  end.

(** [text.replace(/\s+/g, " ")]; [in_run] tells that the code unit before was
    white space. *)
Fixpoint collapse_spaces (in_run : bool) (text : string) : string :=
  match text with
  | EmptyString => EmptyString
  | String c rest =>
      if is_space c
      then if in_run then collapse_spaces true rest
           else String " " (collapse_spaces true rest)
      else String c (collapse_spaces false rest)
  end.

Fixpoint trim_start (text : string) : string :=
  match text with
  | EmptyString => EmptyString
  | String c rest => if is_space c then trim_start rest else text
  end.

Fixpoint trim_end (text : string) : string :=
  match text with
  | EmptyString => EmptyString
  | String c rest =>
      match trim_end rest with
      | EmptyString => if is_space c then EmptyString else String c EmptyString
      | kept => String c kept
      end
  end.

(** [text.trim()]. *)
Definition trim (text : string) : string := trim_end (trim_start text).

Definition stripHtml (html : string) : string :=
  trim (collapse_spaces false (replace_tags None html)).

(** A text without [">"], and a text in which no ["<"] opens a tag: each
    ["<"] is followed at once by [">"], or by no [">"] at all. *)
Fixpoint no_gt (text : string) : Prop :=
  match text with
  | EmptyString => True
  | String c rest => is_gt c = false /\ no_gt rest
  end.

Fixpoint no_lt (text : string) : Prop :=
  match text with
  | EmptyString => True
  | String c rest => is_lt c = false /\ no_lt rest
  end.

Definition starts_with_gt (text : string) : Prop :=
  match text with
  | String c _ => is_gt c = true
  | EmptyString => False
  end.

Fixpoint tagless (text : string) : Prop :=
  match text with
  | EmptyString => True
  | String c rest => (is_lt c = true -> starts_with_gt rest \/ no_gt rest) /\ tagless rest
  end.

(** A text whose only white space is single blanks; [after_space] tells that
    a blank stands just before it. *)
Fixpoint single_spaced (after_space : bool) (text : string) : Prop :=
  match text with
  | EmptyString => True
  | String c rest =>
      if is_space c
      then c = " "%char /\ after_space = false /\ single_spaced true rest
      else single_spaced false rest
  end.

Definition first_char (text : string) : option ascii :=
  match text with
  | EmptyString => None
  | String c _ => Some c
  end.

Fixpoint last_char (text : string) : option ascii :=
  match text with
  | EmptyString => None
  | String c EmptyString => Some c
  | String _ rest => last_char rest
  end.

Definition not_space (c : option ascii) : Prop :=
  match c with
  | Some x => is_space x = false
  | None => True
  end.

(** ** The workers behind their queues *)

(** One delivery of a task, with what the outside answers while it runs. *)
Inductive task : Type :=
| ScoutTask (fetch : string -> http_reply)
| NormalizeTask (jobId : nat) (c : completion)
| FitScoreTask (jobId : nat) (c : completion)
| MaterialsTask (jobId : nat) (baseHash : string) (c : completion)
| ComplianceTask (job : CompliancePayload) (today : Z) (c : completion).

(** [new Worker(name, processor, ...)]: each queue has its processor. *)
Definition process (ToNumber_text : json -> outcome jsnum) (t : task) : M unit :=
  match t with
  | ScoutTask fetch => runScout fetch
  | NormalizeTask jobId c => runNormalize jobId c
  | FitScoreTask jobId c => runFitScore ToNumber_text jobId c
  | MaterialsTask jobId baseHash c => runMaterials jobId baseHash c
  | ComplianceTask job today c => runCompliance job today c
  end.

(** Deliveries handled one after another; a delivery that throws leaves what
    it wrote, and the next one starts from there. *)
Fixpoint process_all (ToNumber_text : json -> outcome jsnum) (ts : list task) (w : world)
    : world :=
  match ts with
  | [] => w
  | t :: rest => process_all ToNumber_text rest (world_of (process ToNumber_text t w))
  end.

(** ** What the workers keep *)

(** The columns that are written once, by the INSERT. *)
Definition same_origin (old new : Posting.row) : Prop :=
  Posting.id new = Posting.id old
  /\ Posting.source new = Posting.source old
  /\ Posting.source_job_id new = Posting.source_job_id old
  /\ Posting.company new = Posting.company old
  /\ Posting.description_raw new = Posting.description_raw old
  /\ Posting.description_structured new = Posting.description_structured old
  /\ Posting.apply_url new = Posting.apply_url old
  /\ Posting.date_posted new = Posting.date_posted old.

(** A row against itself after a task for [jobId]: its origin stays, and a
    row of another posting stays whole. *)
Definition own_row_only (jobId : nat) (old new : Posting.row) : Prop :=
  same_origin old new /\ (Posting.id old <> jobId -> new = old).

Definition followup_key (f : FollowUp.row) : nat * Z :=
  (FollowUp.job_id f, FollowUp.followup_number f).

Definition unique_followups (t : list FollowUp.row) : Prop := NoDup (map followup_key t).

Definition described (t : list Posting.row) : Prop :=
  Forall (fun p => descSnippet (Posting.description_raw p) = Returned tt) t.

(** Every posting id that waits in a queue. *)
Definition queued_ids (w : world) : list nat :=
  normalizeQueue w ++ fitScoreQueue w ++ materialsQueue w ++ map jobId (complianceQueue w).

(** What holds of the store and the queues whatever was delivered: one row
    per (source, source id), one follow-up per (posting, number), every
    description a string, every queued id one of a stored posting. *)
Definition pipeline_ok (w : world) : Prop :=
  unique_keys (job_postings w)
  /\ unique_followups (followups w)
  /\ described (job_postings w)
  /\ Forall (fun j => posting_by_id j w <> None) (queued_ids w).

(** A value that [...] can spread: nothing, an array or a string. *)
Definition spreadable (v : option json) : Prop :=
  match v with
  | None | Some JNull | Some (JArr _) | Some (JStr _) => True
  | Some _ => False
  end.

(** A value that [...] never spreads, before and after the broker has
    carried it as JSON: a boolean, a finite number or an object. *)
Definition never_spreads (v : option json) : Prop :=
  match v with
  | Some (JBool _) | Some (JNum (Fin _)) | Some (JObj _) => True
  | _ => False
  end.

(** * Properties *)

Ltac run_worker :=
  cbv [bind ret throw lift logger modify gets try_catch select_job_posting
       update_job_posting add_fitScore add_materials add_compliance add_normalize
       result_of world_of log_of].

(** ** Rows read and written by id *)

Lemma has_id_update jobId j set p :
  (forall q, Posting.id (set q) = Posting.id q) ->
  has_id j (update_where jobId set p) = has_id j p.
Proof.
  intros Hid. unfold update_where, has_id.
  destruct (Nat.eqb (Posting.id p) jobId); [rewrite Hid|]; reflexivity.
Qed.

Lemma filter_update jobId j set l :
  (forall q, Posting.id (set q) = Posting.id q) ->
  filter (has_id j) (map (update_where jobId set) l)
  = map (update_where jobId set) (filter (has_id j) l).
Proof.
  intros Hid. induction l as [|p l IH]; simpl; [reflexivity|].
  rewrite has_id_update by assumption.
  destruct (has_id j p); simpl; rewrite IH; reflexivity.
Qed.

Lemma posting_by_id_update jobId set w :
  (forall q, Posting.id (set q) = Posting.id q) ->
  posting_by_id jobId (with_job_postings (map (update_where jobId set)) w)
  = option_map set (posting_by_id jobId w).
Proof.
  intros Hid. unfold posting_by_id. simpl. rewrite filter_update by assumption.
  destruct (filter (has_id jobId) (job_postings w)) as [|p rest] eqn:E; simpl; [reflexivity|].
  assert (Hp : has_id jobId p = true).
  { assert (In p (filter (has_id jobId) (job_postings w))) as Hin by (rewrite E; left; reflexivity).
    apply filter_In in Hin. tauto. }
  unfold update_where. rewrite Hp. reflexivity.
Qed.

Lemma posting_by_id_update_other jobId j set w :
  (forall q, Posting.id (set q) = Posting.id q) ->
  j <> jobId ->
  posting_by_id j (with_job_postings (map (update_where jobId set)) w)
  = posting_by_id j w.
Proof.
  intros Hid Hne. unfold posting_by_id. simpl. rewrite filter_update by assumption.
  induction (job_postings w) as [|p l IH]; simpl; [reflexivity|].
  destruct (has_id j p) eqn:Hp; simpl; [|exact IH].
  unfold update_where, has_id in *. apply Nat.eqb_eq in Hp.
  destruct (Nat.eqb_spec (Posting.id p) jobId); [congruence|reflexivity].
Qed.

Lemma set_status_id st q : Posting.id (set_status st q) = Posting.id q.
Proof. reflexivity. Qed.

Lemma set_notes_id n q : Posting.id (set_notes n q) = Posting.id q.
Proof. reflexivity. Qed.

Lemma set_fit_id a b c st q : Posting.id (set_fit a b c st q) = Posting.id q.
Proof. reflexivity. Qed.

Lemma set_normalized_id a b c d e q : Posting.id (set_normalized a b c d e q) = Posting.id q.
Proof. reflexivity. Qed.

Lemma posting_by_id_rows jobId w p :
  posting_by_id jobId w = Some p ->
  exists rest, filter (has_id jobId) (job_postings w) = p :: rest.
Proof.
  unfold posting_by_id. destruct (filter _ _) as [|q rest]; simpl; [discriminate|].
  intros [= ->]. eauto.
Qed.

Lemma posting_by_id_none jobId w :
  posting_by_id jobId w = None -> filter (has_id jobId) (job_postings w) = [].
Proof.
  unfold posting_by_id. destruct (filter _ _); simpl; [reflexivity|discriminate].
Qed.

(** ** Missing rows *)

(** C7. When the posting id of a Normalize, FitScore or Materials task
    resolves to no stored row, the worker logs one warning and returns
    normally: no table is written and nothing is added to any queue. *)
Theorem missing_record_is_skipped :
  forall (ToNumber_text : json -> outcome jsnum) (jobId : nat) (baseHash : string)
         (c : completion) (w : world),
    posting_by_id jobId w = None ->
    runNormalize jobId c w = (Returned tt, w, [(LWarn, "[normalize] job not found")])
    /\ runFitScore ToNumber_text jobId c w
       = (Returned tt, w, [(LWarn, "[fit-score] job not found")])
    /\ runMaterials jobId baseHash c w
       = (Returned tt, w, [(LWarn, "[materials] job not found")]).
Proof.
  intros T jobId baseHash c w Hnone. apply posting_by_id_none in Hnone.
  unfold runNormalize, runFitScore, runMaterials. run_worker.
  rewrite Hnone. repeat split; reflexivity.
Qed.

Lemma missing_record_is_skipped_witness :
  runNormalize 7 (Parses (JObj [])) empty_world
  = (Returned tt, empty_world, [(LWarn, "[normalize] job not found")])
  /\ runFitScore (fun _ => Returned NaN) 7 (Parses (JObj [])) empty_world
     = (Returned tt, empty_world, [(LWarn, "[fit-score] job not found")])
  /\ runMaterials 7 "0123456789abcdef" (Parses (JObj [])) empty_world
     = (Returned tt, empty_world, [(LWarn, "[materials] job not found")]).
Proof.
  apply (missing_record_is_skipped (fun _ => Returned NaN) 7 "0123456789abcdef"
           (Parses (JObj [])) empty_world).
  reflexivity.
Defined.

(** ** FitScore *)

(** A run on a stored posting whose response gives a score. *)
Lemma runFitScore_scored ToNumber_text jobId c w p result score :
  posting_by_id jobId w = Some p ->
  descSnippet (Posting.description_raw p) = Returned tt ->
  parse_completion c = Returned result ->
  result <> JNull ->
  clamped ToNumber_text (get_prop "fitScore" result) = Returned score ->
  runFitScore ToNumber_text jobId c w =
    let w1 := with_job_postings
                (map (update_where jobId
                        (set_fit (JNum score)
                                 (coalesce (get_prop "reasoning" result) (JArr []))
                                 (coalesce (get_prop "risks" result) (JArr []))
                                 (status_for score)))) w in
    if num_geb score FIT_THRESHOLD
    then (Returned tt, world_of (add_materials jobId w1),
          [(LInfo, "[fit-score] complete");
           (LInfo, "[fit-score] shortlisted — enqueued materials")])
    else (Returned tt, w1, [(LInfo, "[fit-score] complete")]).
Proof.
  intros Hrow Hdesc Hparse Hnull Hscore.
  destruct (posting_by_id_rows _ _ _ Hrow) as [rest Hrows].
  unfold runFitScore. run_worker. rewrite Hrows, Hdesc, Hparse.
  assert (Hm : forall k, member result k = Returned (get_prop k result))
    by (intro k; destruct result; try reflexivity; congruence).
  rewrite !Hm, Hscore. unfold status_for.
  destruct (num_geb score FIT_THRESHOLD); reflexivity.
Qed.

Lemma ltb_not_geb a b : num_ltb a b = true -> num_geb a b = false.
Proof.
  unfold num_ltb, num_geb.
  destruct a, b; simpl; intros H; try discriminate; try reflexivity.
  apply negb_true_iff in H. exact H.
Qed.

(** What a run leaves in the row it scored. *)
Lemma runFitScore_row ToNumber_text jobId c w p result score :
  posting_by_id jobId w = Some p ->
  descSnippet (Posting.description_raw p) = Returned tt ->
  parse_completion c = Returned result ->
  result <> JNull ->
  clamped ToNumber_text (get_prop "fitScore" result) = Returned score ->
  posting_by_id jobId (world_of (runFitScore ToNumber_text jobId c w))
  = Some (set_fit (JNum score)
            (coalesce (get_prop "reasoning" result) (JArr []))
            (coalesce (get_prop "risks" result) (JArr []))
            (status_for score) p).
Proof.
  intros Hrow Hdesc Hparse Hnull Hscore.
  rewrite (runFitScore_scored _ _ _ _ _ _ _ Hrow Hdesc Hparse Hnull Hscore). cbv zeta.
  pose proof (posting_by_id_update jobId
                (set_fit (JNum score)
                   (coalesce (get_prop "reasoning" result) (JArr []))
                   (coalesce (get_prop "risks" result) (JArr []))
                   (status_for score)) w (set_fit_id _ _ _ _)) as Hupd.
  rewrite Hrow in Hupd. simpl in Hupd.
  destruct (num_geb score FIT_THRESHOLD); exact Hupd.
Qed.

(** C2. On a stored posting whose response gives a score, FitScore returns;
    a clamped score of 60 or more leaves the posting Shortlisted and adds
    exactly one Materials task, for that posting, and nothing else to any
    queue; a clamped score below 60 leaves the posting Archived and every
    queue as it was. *)
Theorem fitscore_threshold_branch :
  forall (ToNumber_text : json -> outcome jsnum) (jobId : nat) (c : completion) (w : world)
         (p : Posting.row) (result : json) (score : jsnum),
    posting_by_id jobId w = Some p ->
    descSnippet (Posting.description_raw p) = Returned tt ->
    parse_completion c = Returned result ->
    result <> JNull ->
    clamped ToNumber_text (get_prop "fitScore" result) = Returned score ->
    let r := runFitScore ToNumber_text jobId c w in
    result_of r = Returned tt
    /\ (num_geb score (num 60) = true ->
        option_map Posting.status (posting_by_id jobId (world_of r)) = Some Shortlisted
        /\ materialsQueue (world_of r) = materialsQueue w ++ [jobId]
        /\ normalizeQueue (world_of r) = normalizeQueue w
        /\ fitScoreQueue (world_of r) = fitScoreQueue w
        /\ complianceQueue (world_of r) = complianceQueue w)
    /\ (num_ltb score (num 60) = true ->
        option_map Posting.status (posting_by_id jobId (world_of r)) = Some Archived
        /\ queues (world_of r) = queues w).
Proof.
  intros T jobId c w p result score Hrow Hdesc Hparse Hnull Hscore r.
  pose proof (runFitScore_row T _ _ _ _ _ _ Hrow Hdesc Hparse Hnull Hscore) as Hp.
  pose proof (runFitScore_scored T _ _ _ _ _ _ Hrow Hdesc Hparse Hnull Hscore) as Hrun.
  cbv zeta in Hrun. fold r in Hp, Hrun.
  split; [|split].
  - rewrite Hrun. destruct (num_geb score FIT_THRESHOLD); reflexivity.
  - intros Hge. change (num 60) with FIT_THRESHOLD in Hge.
    rewrite Hp. unfold status_for. rewrite Hrun, Hge. repeat split; reflexivity.
  - intros Hlt. apply ltb_not_geb in Hlt. change (num 60) with FIT_THRESHOLD in Hlt.
    rewrite Hp. unfold status_for. rewrite Hrun, Hlt. split; reflexivity.
Qed.

Lemma fitscore_threshold_branch_witness :
  let r := runFitScore no_text 1 (Parses (JObj [("fitScore", JNum (num 60))])) sample_world in
  result_of r = Returned tt
  /\ (num_geb (num 60) (num 60) = true ->
      option_map Posting.status (posting_by_id 1 (world_of r)) = Some Shortlisted
      /\ materialsQueue (world_of r) = materialsQueue sample_world ++ [1%nat]
      /\ normalizeQueue (world_of r) = normalizeQueue sample_world
      /\ fitScoreQueue (world_of r) = fitScoreQueue sample_world
      /\ complianceQueue (world_of r) = complianceQueue sample_world)
  /\ (num_ltb (num 60) (num 60) = true ->
      option_map Posting.status (posting_by_id 1 (world_of r)) = Some Archived
      /\ queues (world_of r) = queues sample_world).
Proof.
  apply (fitscore_threshold_branch no_text 1
           (Parses (JObj [("fitScore", JNum (num 60))])) sample_world sample_posting
           (JObj [("fitScore", JNum (num 60))]) (num 60)).
  - reflexivity.
  - reflexivity.
  - reflexivity.
  - discriminate.
  - reflexivity.
Defined.

(** The threshold at its two sides: 60 is shortlisted, 59 is archived. *)
Example threshold_60_59 :
  let at_score z := runFitScore no_text 1 (Parses (JObj [("fitScore", JNum (num z))]))
                      sample_world in
  option_map Posting.status (posting_by_id 1 (world_of (at_score 60%Z))) = Some Shortlisted
  /\ materialsQueue (world_of (at_score 60%Z)) = [1%nat]
  /\ option_map Posting.status (posting_by_id 1 (world_of (at_score 59%Z))) = Some Archived
  /\ materialsQueue (world_of (at_score 59%Z)) = [].
Proof. vm_compute. repeat split; reflexivity. Qed.

(** The clamp of the code against the clamp of the spec's words. *)
Lemma clamp_refines n :
  n <> NaN ->
  let score := Math_max (num 0) (Math_min (num 100) n) in
  num_eqb score (clamp_0_100 n) = true
  /\ num_leb (num 0) score = true
  /\ num_leb score (num 100) = true.
Proof.
  intros Hn. destruct n as [| |q|];
    [congruence | vm_compute; auto | | vm_compute; auto].
  unfold clamp_0_100, Math_max, Math_min, num_eqb, num_ltb, num_leb, num, inject_Z.
  repeat match goal with
         | |- context [Qle_bool ?a ?b] => destruct (Qle_bool a b) eqn:?
         | _ => progress simpl
         end;
    repeat match goal with
           | H : Qle_bool _ _ = true |- _ => apply Qle_bool_iff in H
           | H : Qle_bool ?a ?b = false |- _ =>
               assert (~ (a <= b)%Q) by (rewrite <- Qle_bool_iff; congruence); clear H
           end;
    try (repeat split; reflexivity); try (exfalso; lra).
Qed.

(** C3. When the response carries a number under [fitScore], the score
    FitScore stores is that number clamped to the closed interval from 0 to
    100, and the stored status is decided by comparing that same clamped
    score with 60; 150 is stored as 100 and -5 as 0. *)
Theorem score_is_clamped :
  forall (ToNumber_text : json -> outcome jsnum) (jobId : nat) (c : completion) (w : world)
         (p : Posting.row) (result : json) (n : jsnum),
    posting_by_id jobId w = Some p ->
    descSnippet (Posting.description_raw p) = Returned tt ->
    parse_completion c = Returned result ->
    get_prop "fitScore" result = Some (JNum n) ->
    n <> NaN ->
    let r := runFitScore ToNumber_text jobId c w in
    exists score : jsnum,
      result_of r = Returned tt
      /\ option_map Posting.fit_score (posting_by_id jobId (world_of r)) = Some (JNum score)
      /\ option_map Posting.status (posting_by_id jobId (world_of r))
         = Some (if num_geb score (num 60) then Shortlisted else Archived)
      /\ num_eqb score (clamp_0_100 n) = true
      /\ num_leb (num 0) score = true
      /\ num_leb score (num 100) = true
      /\ (n = num 150 -> score = num 100)
      /\ (n = num (-5) -> score = num 0).
Proof.
  intros T jobId c w p result n Hrow Hdesc Hparse Hfit Hn r.
  assert (Hnull : result <> JNull) by (intros ->; discriminate Hfit).
  assert (Hscore : clamped T (get_prop "fitScore" result)
                   = Returned (Math_max (num 0) (Math_min (num 100) n)))
    by (rewrite Hfit; reflexivity).
  exists (Math_max (num 0) (Math_min (num 100) n)).
  pose proof (runFitScore_row T _ _ _ _ _ _ Hrow Hdesc Hparse Hnull Hscore) as Hp.
  pose proof (runFitScore_scored T _ _ _ _ _ _ Hrow Hdesc Hparse Hnull Hscore) as Hrun.
  cbv zeta in Hrun. fold r in Hp, Hrun.
  destruct (clamp_refines n Hn) as (Heq & Hlo & Hhi).
  repeat split; try assumption.
  - rewrite Hrun. destruct (num_geb _ FIT_THRESHOLD); reflexivity.
  - rewrite Hp. reflexivity.
  - rewrite Hp. reflexivity.
  - intros ->. reflexivity.
  - intros ->. reflexivity.
Qed.

Lemma score_is_clamped_witness :
  let r := runFitScore no_text 1 (Parses (JObj [("fitScore", JNum (num 150))])) sample_world in
  exists score : jsnum,
    result_of r = Returned tt
    /\ option_map Posting.fit_score (posting_by_id 1 (world_of r)) = Some (JNum score)
    /\ option_map Posting.status (posting_by_id 1 (world_of r))
       = Some (if num_geb score (num 60) then Shortlisted else Archived)
    /\ num_eqb score (clamp_0_100 (num 150)) = true
    /\ num_leb (num 0) score = true
    /\ num_leb score (num 100) = true
    /\ (num 150 = num 150 -> score = num 100)
    /\ (num 150 = num (-5) -> score = num 0).
Proof.
  apply (score_is_clamped no_text 1 (Parses (JObj [("fitScore", JNum (num 150))]))
           sample_world sample_posting (JObj [("fitScore", JNum (num 150))]) (num 150)).
  - reflexivity.
  - reflexivity.
  - reflexivity.
  - reflexivity.
  - discriminate.
Defined.

(** The two scores the spec names, run through the worker. *)
Example clamp_150_and_minus_5 :
  let stored z := option_map Posting.fit_score
                    (posting_by_id 1 (world_of
                       (runFitScore no_text 1 (Parses (JObj [("fitScore", JNum (num z))]))
                          sample_world))) in
  stored 150%Z = Some (JNum (num 100)) /\ stored (-5)%Z = Some (JNum (num 0)).
Proof. vm_compute. split; reflexivity. Qed.

(** C9, as the spec words it, fails: a response whose [fitScore] is the
    boolean [true] has no numeric score, yet [true ?? 0] is [true], which
    [Math.min] reads as 1, and 1 is what is stored, whatever ToNumber does on
    text. *)
Lemma malformed_score_counterexample :
  ~ exists ToNumber_text : json -> outcome jsnum,
      malformed_score_defaults_to_zero ToNumber_text.
Proof.
  intros [T Hclaim].
  destruct (Hclaim 1%nat (Parses (JObj [("fitScore", JBool true)])) sample_world sample_posting
              (JObj [("fitScore", JBool true)]))
    as (_ & Hscore & _); try reflexivity.
  - intros n Hn. discriminate Hn.
  - vm_compute in Hscore. discriminate Hscore.
Qed.

(** C9, amended. On a stored posting, when the parsed response is not [null]
    and its [fitScore] is left out or null, FitScore returns normally, stores
    the score 0 and the status Archived, and adds nothing to any queue. *)
Theorem missing_score_defaults_to_zero :
  forall (ToNumber_text : json -> outcome jsnum) (jobId : nat) (c : completion) (w : world)
         (p : Posting.row) (result : json),
    posting_by_id jobId w = Some p ->
    descSnippet (Posting.description_raw p) = Returned tt ->
    parse_completion c = Returned result ->
    result <> JNull ->
    nullish (get_prop "fitScore" result) = true ->
    let r := runFitScore ToNumber_text jobId c w in
    result_of r = Returned tt
    /\ option_map Posting.fit_score (posting_by_id jobId (world_of r)) = Some (JNum (num 0))
    /\ option_map Posting.status (posting_by_id jobId (world_of r)) = Some Archived
    /\ queues (world_of r) = queues w.
Proof.
  intros T jobId c w p result Hrow Hdesc Hparse Hnull Hmiss r.
  assert (Hscore : clamped T (get_prop "fitScore" result) = Returned (num 0)).
  { destruct (get_prop "fitScore" result) as [[]|]; try discriminate Hmiss; reflexivity. }
  pose proof (runFitScore_row T _ _ _ _ _ _ Hrow Hdesc Hparse Hnull Hscore) as Hp.
  pose proof (runFitScore_scored T _ _ _ _ _ _ Hrow Hdesc Hparse Hnull Hscore) as Hrun.
  cbv zeta in Hrun. fold r in Hp, Hrun.
  change (num_geb (num 0) FIT_THRESHOLD) with false in Hrun.
  rewrite Hp, Hrun. repeat split; reflexivity.
Qed.

Lemma missing_score_defaults_to_zero_witness :
  let r := runFitScore no_text 1 (Parses (JObj [("reasoning", JArr [])])) sample_world in
  result_of r = Returned tt
  /\ option_map Posting.fit_score (posting_by_id 1 (world_of r)) = Some (JNum (num 0))
  /\ option_map Posting.status (posting_by_id 1 (world_of r)) = Some Archived
  /\ queues (world_of r) = queues sample_world.
Proof.
  apply (missing_score_defaults_to_zero no_text 1 (Parses (JObj [("reasoning", JArr [])]))
           sample_world sample_posting (JObj [("reasoning", JArr [])])).
  - reflexivity.
  - reflexivity.
  - reflexivity.
  - discriminate.
  - reflexivity.
Defined.

(** Two more responses without a numeric score: [null] makes the worker throw
    before it writes anything, and a score sent as text is whatever ToNumber
    reads in it, here 85, so the posting is shortlisted. *)
Example malformed_score_other_cases :
  runFitScore no_text 1 (Parses JNull) sample_world = (Thrown, sample_world, [])
  /\ (let reads_85 := fun v : json => match v with JStr "85" => Returned (num 85) | _ => Returned NaN end in
      let r := runFitScore reads_85 1 (Parses (JObj [("fitScore", JStr "85")])) sample_world in
      option_map Posting.status (posting_by_id 1 (world_of r)) = Some Shortlisted
      /\ materialsQueue (world_of r) = [1%nat]).
Proof. vm_compute. repeat split; reflexivity. Qed.

(** ** Compliance *)

Lemma iso_day_offset today days :
  iso_day (today + days * MS_PER_DAY) = (iso_day today + days)%Z.
Proof. unfold iso_day. apply Z.div_add. unfold MS_PER_DAY. lia. Qed.

Lemma schedule_followups_run jobId today w :
  schedule_followups jobId today FOLLOWUP_PLAN w
  = (Returned tt,
     with_followups
       (fun t => followups_insert jobId 2 (iso_day today + 14)
                   (followups_insert jobId 1 (iso_day today + 7) t)) w,
     []).
Proof.
  unfold FOLLOWUP_PLAN. cbn [schedule_followups]. rewrite !iso_day_offset.
  cbv [bind insert_followup modify ret app]. reflexivity.
Qed.

(** A run whose check is decided, one way or the other. *)
Lemma runCompliance_decided job today c w result ok :
  draftContent job = Returned tt ->
  parse_completion c = Returned result ->
  passed result = Returned ok ->
  runCompliance job today c w =
    if ok
    then (Returned tt,
          with_followups
            (fun t => followups_insert (jobId job) 2 (iso_day today + 14)
                        (followups_insert (jobId job) 1 (iso_day today + 7) t))
            (with_job_postings
               (map (update_where (jobId job) (set_status ReadyForReview))) w),
          [(LInfo, "[compliance] PASSED — status=ReadyForReview, follow-ups scheduled")])
    else (Returned tt,
          with_job_postings (map (update_where (jobId job) (set_status Drafting))) w,
          [(LWarn, "[compliance] FAILED — status=Drafting, requires human review")]).
Proof.
  intros Hdraft Hparse Hpass. unfold runCompliance.
  cbv [bind lift]. rewrite Hdraft, Hparse, Hpass.
  destruct ok.
  - cbv [update_job_posting modify]. rewrite schedule_followups_run.
    cbv [logger app]. reflexivity.
  - cbv [update_job_posting modify logger app]. reflexivity.
Qed.

Lemma is_zero_length (l : list json) :
  is_zero (Some (JNum (num (Z.of_nat (List.length l))))) = true <-> l = [].
Proof.
  destruct l as [|x l]; simpl.
  - split; reflexivity.
  - split; [|discriminate]. unfold num, inject_Z, Qeq_bool. simpl. discriminate.
Qed.

(** The local decision, on a response whose flags are a list. *)
Lemma passed_iff result flags :
  result <> JNull ->
  flag_list result = Some flags ->
  exists ok, passed result = Returned ok
             /\ (ok = true <-> get_prop "pass" result = Some (JBool true) /\ flags = []).
Proof.
  intros Hnull Hflags.
  assert (Hm : forall k, member result k = Returned (get_prop k result))
    by (intro k; destruct result; try reflexivity; congruence).
  unfold passed. rewrite !Hm.
  assert (Hlen : is_zero (get_prop "length" (coalesce (get_prop "flags" result) (JArr [])))
                 = true <-> flags = []).
  { unfold flag_list in Hflags.
    destruct (get_prop "flags" result) as [[]|]; try discriminate Hflags;
      injection Hflags as <-; try (split; reflexivity).
    apply is_zero_length. }
  destruct (get_prop "pass" result) as [[|[]| | | |]|]; simpl;
    try (exists false; split; [reflexivity|];
         split; [discriminate | intros [H _]; discriminate H]).
  eexists; split; [reflexivity|]. rewrite Hlen. split; [auto | tauto].
Qed.

(** *** Rows of the follow-ups table *)

Lemma followups_insert_keeps k jobId number day t :
  existsb k t = true -> existsb k (followups_insert jobId number day t) = true.
Proof.
  intros H. unfold followups_insert.
  destruct (existsb (same_followup_key jobId number) t); [exact H|].
  rewrite existsb_app, H. reflexivity.
Qed.

Lemma followups_insert_stored jobId number day t :
  existsb (same_followup_key jobId number) (followups_insert jobId number day t) = true.
Proof.
  unfold followups_insert.
  destruct (existsb (same_followup_key jobId number) t) eqn:E; [exact E|].
  rewrite existsb_app. simpl. unfold same_followup_key. simpl.
  rewrite Nat.eqb_refl, Z.eqb_refl. simpl. apply orb_true_r.
Qed.

Lemma followups_insert_again jobId number day t :
  existsb (same_followup_key jobId number) t = true ->
  followups_insert jobId number day t = t.
Proof. intros H. unfold followups_insert. rewrite H. reflexivity. Qed.

Lemma no_followup_no_key jobId number t :
  filter (fun f => Nat.eqb (FollowUp.job_id f) jobId) t = [] ->
  existsb (same_followup_key jobId number) t = false.
Proof.
  induction t as [|f t IH]; simpl; [reflexivity|].
  unfold same_followup_key at 1.
  destruct (Nat.eqb (FollowUp.job_id f) jobId); [discriminate|]. simpl. exact IH.
Qed.

Lemma followups_insert_other j jobId number day t :
  j <> jobId ->
  filter (fun f => Nat.eqb (FollowUp.job_id f) j) (followups_insert jobId number day t)
  = filter (fun f => Nat.eqb (FollowUp.job_id f) j) t.
Proof.
  intros Hne. unfold followups_insert.
  destruct (existsb (same_followup_key jobId number) t); [reflexivity|].
  rewrite filter_app. simpl.
  destruct (Nat.eqb_spec jobId j); [congruence|]. apply app_nil_r.
Qed.

Lemma same_followup_key_spec j number f :
  same_followup_key j number f = true
  <-> FollowUp.job_id f = j /\ FollowUp.followup_number f = number.
Proof.
  unfold same_followup_key. rewrite andb_true_iff, Nat.eqb_eq, Z.eqb_eq. tauto.
Qed.

Lemma followup_stored j number t :
  existsb (same_followup_key j number) t = true ->
  exists f, In f t /\ FollowUp.job_id f = j /\ FollowUp.followup_number f = number.
Proof.
  intros H. apply existsb_exists in H. destruct H as (f & Hin & Hkey).
  exists f. split; [exact Hin | apply same_followup_key_spec, Hkey].
Qed.

Lemma followups_insert_appends j number day t :
  exists added, followups_insert j number day t = t ++ added.
Proof.
  unfold followups_insert. destruct (existsb (same_followup_key j number) t); eauto.
  exists []. symmetry. apply app_nil_r.
Qed.

Lemma followups_insert_new j day1 day2 t :
  filter (fun f => Nat.eqb (FollowUp.job_id f) j) t = [] ->
  followups_insert j 2 day2 (followups_insert j 1 day1 t)
  = t ++ [FollowUp.mk j 1 day1 "pending"; FollowUp.mk j 2 day2 "pending"].
Proof.
  intros Hnone. unfold followups_insert at 2.
  rewrite (no_followup_no_key j 1 _ Hnone).
  unfold followups_insert.
  rewrite existsb_app, (no_followup_no_key j 2 _ Hnone). simpl.
  unfold same_followup_key at 1. simpl. rewrite Nat.eqb_refl. simpl.
  rewrite <- app_assoc. reflexivity.
Qed.

(** The rows of the table after [UPDATE ... SET status = st WHERE id = j]. *)
Lemma status_set_rows j st l :
  Forall2 (status_set j st) l (map (update_where j (set_status st)) l).
Proof.
  induction l as [|q l IH]; simpl; constructor; [|exact IH].
  unfold update_where, has_id, status_set.
  destruct (Nat.eqb_spec (Posting.id q) j) as [Heq | Hne].
  - split; [reflexivity|]. split; [intros _; split; reflexivity | intros Hne; contradiction].
  - split; [reflexivity|]. split; [intros Heq; contradiction | reflexivity].
Qed.

Lemma status_by_id j st w p :
  posting_by_id j w = Some p ->
  option_map Posting.status
    (posting_by_id j (with_job_postings (map (update_where j (set_status st))) w))
  = Some st.
Proof.
  intros Hrow. rewrite (posting_by_id_update j (set_status st) w (set_status_id st)), Hrow.
  reflexivity.
Qed.

(** C1. For a Compliance response whose flags are a list, the check passes
    exactly when [pass] is the boolean [true] and the list is empty; either
    way the worker returns and no queue changes.  On a pass the status read
    from the posting's row is ReadyForReview, and follow-ups 1 and 2 of the
    posting are in the table: nothing stored is rewritten, and for a posting
    that had none the two rows appended are pending, dated 7 and 14 days
    after the day of the run.  On anything else, a [pass: true] with flags
    among it, the status read from the posting's row is Drafting and the
    follow-ups table is as it was.  In both cases every other column of the
    row and every other row is untouched. *)
Theorem compliance_pass_determination :
  forall (job : CompliancePayload) (today : Z) (c : completion) (w : world)
         (result : json) (flags : list json),
    draftContent job = Returned tt ->
    parse_completion c = Returned result ->
    result <> JNull ->
    flag_list result = Some flags ->
    let j := jobId job in
    let r := runCompliance job today c w in
    let strict := get_prop "pass" result = Some (JBool true) /\ flags = [] in
    (passed result = Returned true <-> strict)
    /\ result_of r = Returned tt
    /\ queues (world_of r) = queues w
    /\ (strict ->
        job_postings (world_of r)
        = map (update_where j (set_status ReadyForReview)) (job_postings w)
        /\ Forall2 (status_set j ReadyForReview) (job_postings w) (job_postings (world_of r))
        /\ (forall p, posting_by_id j w = Some p ->
              option_map Posting.status (posting_by_id j (world_of r))
              = Some ReadyForReview)
        /\ (exists added, followups (world_of r) = followups w ++ added)
        /\ (exists f, In f (followups (world_of r))
                      /\ FollowUp.job_id f = j /\ FollowUp.followup_number f = 1%Z)
        /\ (exists f, In f (followups (world_of r))
                      /\ FollowUp.job_id f = j /\ FollowUp.followup_number f = 2%Z)
        /\ (followups_of j w = [] ->
            followups (world_of r)
            = followups w ++ [FollowUp.mk j 1 (iso_day today + 7) "pending";
                              FollowUp.mk j 2 (iso_day today + 14) "pending"]))
    /\ (~ strict ->
        job_postings (world_of r)
        = map (update_where j (set_status Drafting)) (job_postings w)
        /\ Forall2 (status_set j Drafting) (job_postings w) (job_postings (world_of r))
        /\ (forall p, posting_by_id j w = Some p ->
              option_map Posting.status (posting_by_id j (world_of r)) = Some Drafting)
        /\ followups (world_of r) = followups w).
Proof.
  intros job today c w result flags Hdraft Hparse Hnull Hflags j r strict.
  destruct (passed_iff result flags Hnull Hflags) as (ok & Hpass & Hok).
  pose proof (runCompliance_decided job today c w result ok Hdraft Hparse Hpass) as Hrun.
  fold r j in Hrun. fold strict in Hok.
  split; [|split; [|split; [|split]]].
  - rewrite Hpass. rewrite <- Hok. split; [intros [= ->]; reflexivity | intros ->; reflexivity].
  - rewrite Hrun. destruct ok; reflexivity.
  - rewrite Hrun. destruct ok; reflexivity.
  - intros Hs. apply Hok in Hs. subst ok. rewrite Hrun.
    cbn [world_of fst snd with_followups with_job_postings job_postings followups].
    split; [reflexivity|]. split; [apply status_set_rows|].
    split; [intros p Hrow; apply (status_by_id j ReadyForReview w p Hrow)|].
    split; [|split; [|split]].
    + destruct (followups_insert_appends j 1 (iso_day today + 7) (followups w))
        as (a1 & ->).
      destruct (followups_insert_appends j 2 (iso_day today + 14) (followups w ++ a1))
        as (a2 & ->).
      exists (a1 ++ a2). symmetry. apply app_assoc.
    + apply followup_stored, followups_insert_keeps, followups_insert_stored.
    + apply followup_stored, followups_insert_stored.
    + apply followups_insert_new.
  - intros Hs. destruct ok; [exfalso; apply Hs, Hok; reflexivity|].
    rewrite Hrun. cbn [world_of fst snd with_job_postings job_postings followups].
    split; [reflexivity|]. split; [apply status_set_rows|].
    split; [intros p Hrow; apply (status_by_id j Drafting w p Hrow) | reflexivity].
Qed.

Lemma compliance_pass_determination_witness :
  let flagged := JObj [("pass", JBool true);
                       ("flags", JArr [JObj [("excerpt", JStr "40%");
                                             ("issue", JStr "unverified")]])] in
  let clean := JObj [("pass", JBool true); ("flags", JArr [])] in
  let job := mkCompliancePayload 1 (Some 1%nat) (Some (JStr "Dear team,")) (Some (JArr [])) in
  let failed := runCompliance job 1762041600000 (Parses flagged) sample_world in
  let passing := runCompliance job 1762041600000 (Parses clean) sample_world in
  (passed flagged = Returned false
   /\ result_of failed = Returned tt
   /\ option_map Posting.status (posting_by_id 1 (world_of failed)) = Some Drafting
   /\ followups (world_of failed) = [])
  /\ (passed clean = Returned true
      /\ result_of passing = Returned tt
      /\ option_map Posting.status (posting_by_id 1 (world_of passing)) = Some ReadyForReview
      /\ followups (world_of passing)
         = [FollowUp.mk 1 1 20401 "pending"; FollowUp.mk 1 2 20408 "pending"]).
Proof.
  intros flagged clean job failed passing. split.
  - destruct (compliance_pass_determination job 1762041600000 (Parses flagged) sample_world
                flagged
                [JObj [("excerpt", JStr "40%"); ("issue", JStr "unverified")]])
      as (_ & Hret & _ & _ & Hfail).
    + reflexivity.
    + reflexivity.
    + discriminate.
    + reflexivity.
    + destruct Hfail as (_ & _ & Hstatus & Hfollow).
      * intros [_ Hnone]. discriminate Hnone.
      * split; [reflexivity|]. split; [exact Hret|].
        split; [exact (Hstatus sample_posting eq_refl) | exact Hfollow].
  - destruct (compliance_pass_determination job 1762041600000 (Parses clean) sample_world
                clean [])
      as (_ & Hret & _ & Hpass & _).
    + reflexivity.
    + reflexivity.
    + discriminate.
    + reflexivity.
    + destruct Hpass as (_ & _ & Hstatus & _ & _ & _ & Hfollow).
      * split; reflexivity.
      * split; [reflexivity|]. split; [exact Hret|].
        split; [exact (Hstatus sample_posting eq_refl) | exact (Hfollow eq_refl)].
Defined.

(** The response the spec names: [pass: true] with one flag. *)
Example pass_with_flags_is_failure :
  let job := mkCompliancePayload 1 (Some 1%nat) (Some (JStr "Dear team,")) (Some (JArr [])) in
  let result := JObj [("pass", JBool true);
                      ("flags", JArr [JObj [("excerpt", JStr "40%"); ("issue", JStr "unverified")]])] in
  let r := runCompliance job 1762041600000 (Parses result) sample_world in
  option_map Posting.status (posting_by_id 1 (world_of r)) = Some Drafting
  /\ followups (world_of r) = [].
Proof. vm_compute. split; reflexivity. Qed.

(** *** Follow-ups, run after run *)

(** C4. A Compliance run that passes stores follow-ups 1 and 2 for its
    posting, dated 7 and 14 days after the day of the pass, unless the pair
    (posting, number) is already stored.  Hence a second passing run for the
    same posting leaves the table as the first left it: a posting that had no
    follow-up has exactly two after both runs, those of the first, and the
    follow-ups of other postings are untouched. *)
Theorem followups_created_once :
  forall (job1 job2 : CompliancePayload) (t1 t2 : Z) (c1 c2 : completion) (w : world)
         (result1 result2 : json),
    jobId job2 = jobId job1 ->
    draftContent job1 = Returned tt ->
    parse_completion c1 = Returned result1 ->
    passed result1 = Returned true ->
    draftContent job2 = Returned tt ->
    parse_completion c2 = Returned result2 ->
    passed result2 = Returned true ->
    let j := jobId job1 in
    let w1 := world_of (runCompliance job1 t1 c1 w) in
    let w2 := world_of (runCompliance job2 t2 c2 w1) in
    let first := FollowUp.mk j 1 (iso_day (t1 + 7 * MS_PER_DAY)) "pending" in
    let second := FollowUp.mk j 2 (iso_day (t1 + 14 * MS_PER_DAY)) "pending" in
    followups w2 = followups w1
    /\ existsb (same_followup_key j 1) (followups w1) = true
    /\ existsb (same_followup_key j 2) (followups w1) = true
    /\ (followups_of j w = [] ->
        followups w1 = followups w ++ [first; second]
        /\ followups_of j w2 = [first; second]
        /\ List.length (followups_of j w2) = 2%nat)
    /\ FollowUp.scheduled_for first = (iso_day t1 + 7)%Z
    /\ FollowUp.scheduled_for second = (iso_day t1 + 14)%Z
    /\ (forall j', j' <> j -> followups_of j' w2 = followups_of j' w).
Proof.
  intros job1 job2 t1 t2 c1 c2 w result1 result2 Hsame Hd1 Hp1 Hok1 Hd2 Hp2 Hok2
         j w1 w2 first second.
  assert (H1 : followups w1
               = followups_insert j 2 (iso_day t1 + 14)
                   (followups_insert j 1 (iso_day t1 + 7) (followups w))).
  { unfold w1. rewrite (runCompliance_decided _ _ _ _ _ _ Hd1 Hp1 Hok1). reflexivity. }
  assert (H2 : followups w2
               = followups_insert j 2 (iso_day t2 + 14)
                   (followups_insert j 1 (iso_day t2 + 7) (followups w1))).
  { unfold w2. rewrite (runCompliance_decided _ _ _ _ _ _ Hd2 Hp2 Hok2), Hsame. reflexivity. }
  assert (K1 : existsb (same_followup_key j 1) (followups w1) = true)
    by (rewrite H1; apply followups_insert_keeps, followups_insert_stored).
  assert (K2 : existsb (same_followup_key j 2) (followups w1) = true)
    by (rewrite H1; apply followups_insert_stored).
  assert (Hstable : followups w2 = followups w1).
  { rewrite H2. rewrite (followups_insert_again j 1 _ _ K1).
    apply followups_insert_again, K2. }
  split; [exact Hstable|]. split; [exact K1|]. split; [exact K2|].
  split; [|split; [|split]].
  - intros Hnone. unfold followups_of in *.
    assert (Hw1 : followups w1 = followups w ++ [first; second]).
    { rewrite H1. unfold followups_insert at 2.
      rewrite (no_followup_no_key j 1 _ Hnone).
      unfold followups_insert.
      rewrite existsb_app, (no_followup_no_key j 2 _ Hnone). simpl.
      unfold same_followup_key at 1. simpl. rewrite Nat.eqb_refl. simpl.
      rewrite <- app_assoc. simpl. unfold first, second. rewrite !iso_day_offset.
      reflexivity. }
    rewrite Hstable, Hw1, filter_app, Hnone. simpl.
    fold j. rewrite Nat.eqb_refl. repeat split; reflexivity.
  - apply iso_day_offset.
  - apply iso_day_offset.
  - intros j' Hne. unfold followups_of. rewrite Hstable, H1.
    rewrite !followups_insert_other by assumption. reflexivity.
Qed.

Lemma followups_created_once_witness :
  let job := mkCompliancePayload 1 (Some 1%nat) (Some (JStr "Dear team,")) (Some (JArr [])) in
  let c := Parses (JObj [("pass", JBool true); ("flags", JArr [])]) in
  let t1 := 1762041600000%Z in
  let t2 := 1762214400000%Z in
  let w1 := world_of (runCompliance job t1 c sample_world) in
  let w2 := world_of (runCompliance job t2 c w1) in
  let first := FollowUp.mk 1 1 (iso_day (t1 + 7 * MS_PER_DAY)) "pending" in
  let second := FollowUp.mk 1 2 (iso_day (t1 + 14 * MS_PER_DAY)) "pending" in
  followups w2 = followups w1
  /\ existsb (same_followup_key 1 1) (followups w1) = true
  /\ existsb (same_followup_key 1 2) (followups w1) = true
  /\ (followups_of 1 sample_world = [] ->
      followups w1 = followups sample_world ++ [first; second]
      /\ followups_of 1 w2 = [first; second]
      /\ List.length (followups_of 1 w2) = 2%nat)
  /\ FollowUp.scheduled_for first = (iso_day t1 + 7)%Z
  /\ FollowUp.scheduled_for second = (iso_day t1 + 14)%Z
  /\ (forall j', j' <> 1%nat -> followups_of j' w2 = followups_of j' sample_world).
Proof.
  intros job c t1 t2.
  apply (followups_created_once job job t1 t2 c c sample_world
           (JObj [("pass", JBool true); ("flags", JArr [])])
           (JObj [("pass", JBool true); ("flags", JArr [])])).
  - reflexivity.
  - reflexivity.
  - reflexivity.
  - reflexivity.
  - reflexivity.
  - reflexivity.
  - reflexivity.
Defined.

(** Two passing runs two days apart, on a store without follow-ups. *)
Example two_passes_two_followups :
  let job := mkCompliancePayload 1 (Some 1%nat) (Some (JStr "Dear team,")) (Some (JArr [])) in
  let c := Parses (JObj [("pass", JBool true); ("flags", JArr [])]) in
  let w1 := world_of (runCompliance job 1762041600000 c sample_world) in
  let w2 := world_of (runCompliance job 1762214400000 c w1) in
  followups w2 = [FollowUp.mk 1 1 20401 "pending"; FollowUp.mk 1 2 20408 "pending"]
  /\ option_map Posting.status (posting_by_id 1 w2) = Some ReadyForReview.
Proof. vm_compute. split; reflexivity. Qed.

(** ** Materials *)

Lemma member_of_value (v : json) (k : string) :
  v <> JNull -> member v k = Returned (get_prop k v).
Proof. intros H. destruct v; try reflexivity; congruence. Qed.

(** A run on a stored posting whose completion parses. *)
Lemma runMaterials_drafted jobId baseHash c w p materials :
  posting_by_id jobId w = Some p ->
  descSnippet (Posting.description_raw p) = Returned tt ->
  parse_completion c = Returned materials ->
  materials <> JNull ->
  runMaterials jobId baseHash c w =
    let rid := fresh_id (map ResumeVersion.id (resume_versions w)) in
    let bullets := get_prop "tailoredBullets" materials in
    let cover := get_prop "coverLetter" materials in
    let qa := get_prop "qaAnswers" materials in
    let why := get_prop "whyCompany" materials in
    (Returned tt,
     world_of
       (add_compliance (mkCompliancePayload jobId (Some rid) cover bullets)
          (with_job_postings
             (map (update_where jobId
                     (set_notes (JObj (defined_props
                        [("coverLetter", cover); ("whyCompany", why); ("qaAnswers", qa)])))))
             (with_applications
                (applications_insert jobId (Some rid)
                   (artifact_id "cl-" jobId cover) (artifact_id "qa-" jobId qa))
                (with_resume_versions
                   (fun t => t ++ [ResumeVersion.mk rid baseHash (Posting.title p)
                                     (coalesce bullets (JArr []))])
                   (with_job_postings (map (update_where jobId (set_status Drafting))) w))))),
     [(LInfo, "[materials] complete — enqueued compliance")]).
Proof.
  intros Hrow Hdesc Hparse Hnull.
  destruct (posting_by_id_rows _ _ _ Hrow) as [rest Hrows].
  unfold runMaterials. run_worker. rewrite Hrows, Hdesc, Hparse.
  rewrite !member_of_value by assumption.
  cbv [insert_resume_version insert_application modify]. reflexivity.
Qed.

Lemma fresh_id_new ids : ~ In (fresh_id ids) ids.
Proof.
  unfold fresh_id. intros Hin.
  assert (H : (fresh_id ids <= list_max ids)%nat).
  { pose proof (proj1 (list_max_le ids (list_max ids)) (le_n _)) as Hall.
    rewrite Forall_forall in Hall. apply Hall. exact Hin. }
  unfold fresh_id in H. lia.
Qed.

Lemma posting_by_id_has_id jobId w p :
  posting_by_id jobId w = Some p -> has_id jobId p = true.
Proof.
  intros H. destruct (posting_by_id_rows _ _ _ H) as [rest Hrows].
  assert (Hin : In p (filter (has_id jobId) (job_postings w)))
    by (rewrite Hrows; left; reflexivity).
  apply filter_In in Hin. tauto.
Qed.

(** The row Materials leaves behind: Drafting, with the notes, all else kept. *)
Lemma runMaterials_row jobId baseHash c w p materials :
  posting_by_id jobId w = Some p ->
  descSnippet (Posting.description_raw p) = Returned tt ->
  parse_completion c = Returned materials ->
  materials <> JNull ->
  exists notes,
    posting_by_id jobId (world_of (runMaterials jobId baseHash c w))
    = Some (set_notes notes (set_status Drafting p)).
Proof.
  intros Hrow Hdesc Hparse Hnull.
  rewrite (runMaterials_drafted _ baseHash _ _ _ _ Hrow Hdesc Hparse Hnull). cbv zeta.
  eexists. unfold posting_by_id. cbn [world_of add_compliance modify fst snd job_postings
    with_job_postings with_applications with_resume_versions].
  rewrite !filter_update by (intros; reflexivity).
  destruct (posting_by_id_rows _ _ _ Hrow) as [rest Hrows]. rewrite Hrows. simpl.
  pose proof (posting_by_id_has_id _ _ _ Hrow) as Hid.
  unfold update_where at 2. rewrite Hid.
  unfold update_where at 1. change (has_id jobId (set_status Drafting p)) with (has_id jobId p).
  rewrite Hid. reflexivity.
Qed.

Lemma applications_insert_again jobId rid cl qa t :
  existsb (for_posting jobId) t = true -> applications_insert jobId rid cl qa t = t.
Proof. intros H. unfold applications_insert. rewrite H. reflexivity. Qed.

Lemma applications_insert_stored jobId rid cl qa t :
  existsb (for_posting jobId) (applications_insert jobId rid cl qa t) = true.
Proof.
  unfold applications_insert. destruct (existsb (for_posting jobId) t) eqn:E; [exact E|].
  rewrite existsb_app. simpl. unfold for_posting at 2. simpl. rewrite Nat.eqb_refl.
  apply orb_true_r.
Qed.

Lemma no_application_iff jobId t :
  existsb (for_posting jobId) t = false <-> filter (for_posting jobId) t = [].
Proof.
  induction t as [|a t IH]; simpl; [tauto|].
  destruct (for_posting jobId a); simpl; [split; discriminate | exact IH].
Qed.

Lemma applications_insert_count jobId rid cl qa t :
  (List.length (filter (for_posting jobId) t) <= 1)%nat ->
  (List.length (filter (for_posting jobId) (applications_insert jobId rid cl qa t)) <= 1)%nat.
Proof.
  intros H. unfold applications_insert.
  destruct (existsb (for_posting jobId) t) eqn:E; [exact H|].
  apply no_application_iff in E. rewrite filter_app, E. simpl.
  destruct (for_posting jobId _); simpl; lia.
Qed.

(** C10. Every Materials run that gets past the completion appends a resume
    version under a key of its own, so a task delivered twice leaves two
    resume versions; the application insert is absorbed once a row for the
    posting exists, so the second run leaves [applications] as the first left
    it: at most one row per posting stays at most one, and a posting that had
    none has one, pointing at the resume version of the first run. *)
Theorem materials_redelivery :
  forall (jobId : nat) (hash1 hash2 : string) (c1 c2 : completion) (w : world)
         (p : Posting.row) (m1 m2 : json),
    posting_by_id jobId w = Some p ->
    descSnippet (Posting.description_raw p) = Returned tt ->
    parse_completion c1 = Returned m1 -> m1 <> JNull ->
    parse_completion c2 = Returned m2 -> m2 <> JNull ->
    let run1 := runMaterials jobId hash1 c1 w in
    let run2 := runMaterials jobId hash2 c2 (world_of run1) in
    exists r1 r2 : nat,
      r1 <> r2
      /\ ~ In r1 (map ResumeVersion.id (resume_versions w))
      /\ result_of run1 = Returned tt
      /\ result_of run2 = Returned tt
      /\ resume_versions (world_of run1)
         = resume_versions w
           ++ [ResumeVersion.mk r1 hash1 (Posting.title p)
                 (coalesce (get_prop "tailoredBullets" m1) (JArr []))]
      /\ resume_versions (world_of run2)
         = resume_versions (world_of run1)
           ++ [ResumeVersion.mk r2 hash2 (Posting.title p)
                 (coalesce (get_prop "tailoredBullets" m2) (JArr []))]
      /\ applications (world_of run2) = applications (world_of run1)
      /\ ((List.length (applications_of jobId w) <= 1)%nat ->
          (List.length (applications_of jobId (world_of run2)) <= 1)%nat)
      /\ (applications_of jobId w = [] ->
          applications_of jobId (world_of run2)
          = [Application.mk jobId (Some r1)
               (artifact_id "cl-" jobId (get_prop "coverLetter" m1))
               (artifact_id "qa-" jobId (get_prop "qaAnswers" m1))]).
Proof.
  intros jobId hash1 hash2 c1 c2 w p m1 m2 Hrow Hdesc Hp1 Hn1 Hp2 Hn2 run1 run2.
  destruct (runMaterials_row jobId hash1 c1 w p m1 Hrow Hdesc Hp1 Hn1) as [notes Hrow1].
  fold run1 in Hrow1.
  pose proof (runMaterials_drafted jobId hash1 c1 w p m1 Hrow Hdesc Hp1 Hn1) as E1.
  pose proof (runMaterials_drafted jobId hash2 c2 (world_of run1) _ m2 Hrow1 Hdesc Hp2 Hn2)
    as E2.
  cbv zeta in E1, E2. fold run1 in E1. fold run2 in E2.
  change (Posting.title (set_notes notes (set_status Drafting p))) with (Posting.title p) in E2.
  set (r1 := fresh_id (map ResumeVersion.id (resume_versions w))) in *.
  set (r2 := fresh_id (map ResumeVersion.id (resume_versions (world_of run1)))) in *.
  assert (Hrv1 : resume_versions (world_of run1)
                 = resume_versions w
                   ++ [ResumeVersion.mk r1 hash1 (Posting.title p)
                         (coalesce (get_prop "tailoredBullets" m1) (JArr []))])
    by (rewrite E1; reflexivity).
  assert (Happ1 : applications (world_of run1)
                  = applications_insert jobId (Some r1)
                      (artifact_id "cl-" jobId (get_prop "coverLetter" m1))
                      (artifact_id "qa-" jobId (get_prop "qaAnswers" m1)) (applications w))
    by (rewrite E1; reflexivity).
  assert (Happ2 : applications (world_of run2) = applications (world_of run1)).
  { rewrite E2. cbn [world_of add_compliance modify fst snd applications with_job_postings
      with_applications with_resume_versions].
    apply applications_insert_again. rewrite Happ1. apply applications_insert_stored. }
  exists r1, r2. repeat split.
  - assert (In r1 (map ResumeVersion.id (resume_versions (world_of run1)))) as Hin
      by (rewrite Hrv1, map_app; apply in_or_app; right; left; reflexivity).
    intros Heq. rewrite Heq in Hin. exact (fresh_id_new _ Hin).
  - apply fresh_id_new.
  - rewrite E1. reflexivity.
  - rewrite E2. reflexivity.
  - exact Hrv1.
  - rewrite E2. reflexivity.
  - exact Happ2.
  - intros Hle. unfold applications_of in *. rewrite Happ2, Happ1.
    apply applications_insert_count, Hle.
  - intros Hnone. unfold applications_of in *. rewrite Happ2, Happ1.
    unfold applications_insert. rewrite (proj2 (no_application_iff _ _) Hnone).
    rewrite filter_app, Hnone. simpl. unfold for_posting at 1. simpl.
    rewrite Nat.eqb_refl. reflexivity.
Qed.

Lemma materials_redelivery_witness :
  let m := JObj [("coverLetter", JStr "Dear team,"); ("tailoredBullets", JArr [JStr "Built X"])] in
  let run1 := runMaterials 1 "0123456789abcdef" (Parses m) sample_world in
  let run2 := runMaterials 1 "0123456789abcdef" (Parses m) (world_of run1) in
  exists r1 r2 : nat,
    r1 <> r2
    /\ ~ In r1 (map ResumeVersion.id (resume_versions sample_world))
    /\ result_of run1 = Returned tt
    /\ result_of run2 = Returned tt
    /\ resume_versions (world_of run1)
       = resume_versions sample_world
         ++ [ResumeVersion.mk r1 "0123456789abcdef" (Posting.title sample_posting)
               (coalesce (get_prop "tailoredBullets" m) (JArr []))]
    /\ resume_versions (world_of run2)
       = resume_versions (world_of run1)
         ++ [ResumeVersion.mk r2 "0123456789abcdef" (Posting.title sample_posting)
               (coalesce (get_prop "tailoredBullets" m) (JArr []))]
    /\ applications (world_of run2) = applications (world_of run1)
    /\ ((List.length (applications_of 1 sample_world) <= 1)%nat ->
        (List.length (applications_of 1 (world_of run2)) <= 1)%nat)
    /\ (applications_of 1 sample_world = [] ->
        applications_of 1 (world_of run2)
        = [Application.mk 1 (Some r1)
             (artifact_id "cl-" 1 (get_prop "coverLetter" m))
             (artifact_id "qa-" 1 (get_prop "qaAnswers" m))]).
Proof.
  intros m.
  apply (materials_redelivery 1 "0123456789abcdef" "0123456789abcdef" (Parses m) (Parses m)
           sample_world sample_posting m m).
  - reflexivity.
  - reflexivity.
  - reflexivity.
  - discriminate.
  - reflexivity.
  - discriminate.
Defined.

(** The same task delivered twice: two resume versions, one application. *)
Example materials_twice :
  let m := JObj [("coverLetter", JStr "Dear team,"); ("tailoredBullets", JArr [JStr "Built X"])] in
  let run1 := runMaterials 1 "0123456789abcdef" (Parses m) sample_world in
  let w2 := world_of (runMaterials 1 "0123456789abcdef" (Parses m) (world_of run1)) in
  map ResumeVersion.id (resume_versions w2) = [1; 2]%nat
  /\ applications w2 = [Application.mk 1 (Some 1%nat) (Some "cl-1") None]
  /\ map resumeVersionId (complianceQueue w2) = [Some 1%nat; Some 2%nat].
Proof. vm_compute. repeat split; reflexivity. Qed.

(** ** Normalize *)

(** A run on a stored posting whose completion parses. *)
Lemma runNormalize_applied jobId c w p normalized :
  posting_by_id jobId w = Some p ->
  descSnippet (Posting.description_raw p) = Returned tt ->
  parse_completion c = Returned normalized ->
  normalized <> JNull ->
  runNormalize jobId c w =
    (Returned tt,
     world_of
       (add_fitScore jobId
          (with_job_postings
             (map (update_where jobId
                     (set_normalized
                        (param (get_prop "normalizedTitle" normalized))
                        (param (get_prop "level" normalized))
                        (param (get_prop "remoteMode" normalized))
                        (param (get_prop "visaSponsorship" normalized))
                        (param (get_prop "normalizedLocation" normalized))))) w)),
     [(LInfo, "[normalize] complete — enqueued fit-score")]).
Proof.
  intros Hrow Hdesc Hparse Hnull.
  destruct (posting_by_id_rows _ _ _ Hrow) as [rest Hrows].
  unfold runNormalize. run_worker. rewrite Hrows, Hdesc, Hparse.
  rewrite !member_of_value by assumption. reflexivity.
Qed.

(** Whatever happens, a run of Normalize either leaves [job_postings] alone
    or applies the one UPDATE, with the values of a response that parsed. *)
Lemma runNormalize_postings jobId c w :
  job_postings (world_of (runNormalize jobId c w)) = job_postings w
  \/ exists normalized,
       parse_completion c = Returned normalized
       /\ job_postings (world_of (runNormalize jobId c w))
          = map (update_where jobId
                   (set_normalized
                      (param (get_prop "normalizedTitle" normalized))
                      (param (get_prop "level" normalized))
                      (param (get_prop "remoteMode" normalized))
                      (param (get_prop "visaSponsorship" normalized))
                      (param (get_prop "normalizedLocation" normalized))))
                (job_postings w).
Proof.
  destruct (posting_by_id jobId w) as [p|] eqn:Hrow.
  - destruct (descSnippet (Posting.description_raw p)) as [[]|] eqn:Hdesc.
    + destruct (parse_completion c) as [normalized|] eqn:Hparse.
      * destruct normalized eqn:Hn;
          try (right; eexists; split; [reflexivity|];
               erewrite runNormalize_applied by (eauto; discriminate); reflexivity).
        left. destruct (posting_by_id_rows _ _ _ Hrow) as [rest Hrows].
        unfold runNormalize. run_worker. rewrite Hrows, Hdesc, Hparse. reflexivity.
      * left. destruct (posting_by_id_rows _ _ _ Hrow) as [rest Hrows].
        unfold runNormalize. run_worker. rewrite Hrows, Hdesc, Hparse. reflexivity.
    + left. destruct (posting_by_id_rows _ _ _ Hrow) as [rest Hrows].
      unfold runNormalize. run_worker. rewrite Hrows, Hdesc. reflexivity.
  - left. apply posting_by_id_none in Hrow.
    unfold runNormalize. run_worker. rewrite Hrow. reflexivity.
Qed.

Lemma COALESCE_param key response old :
  COALESCE (param (get_prop key response)) old
  = match supplied key response with
    | Some v => v
    | None => old
    end.
Proof.
  unfold supplied, param, coalesce.
  destruct (get_prop key response) as [[]|]; reflexivity.
Qed.

Lemma Forall2_map_same {A} (R : A -> A -> Prop) (f : A -> A) (l : list A) :
  (forall x, R x (f x)) -> Forall2 R l (map f l).
Proof. intros H. induction l; simpl; constructor; auto. Qed.

Lemma coalesced_column jobId c response column key old new :
  parse_completion c = Returned response ->
  Posting.id old = jobId ->
  column new = COALESCE (param (get_prop key response)) (column old) ->
  kept_or_supplied jobId c column key old new.
Proof.
  intros Hparse Hid Hcol. rewrite COALESCE_param in Hcol. unfold kept_or_supplied.
  destruct (supplied key response) as [v|] eqn:Hs; [right|left; exact Hcol].
  split; [exact Hid|]. exists response. split; [exact Hparse|]. rewrite Hcol. exact Hs.
Qed.

(** Every run of Normalize, however it ends, changes a column of
    [job_postings] only to a value that the response supplies for it. *)
Lemma normalize_changes_only_supplied jobId c w :
  Forall2 (coalesced jobId c) (job_postings w)
          (job_postings (world_of (runNormalize jobId c w))).
Proof.
  destruct (runNormalize_postings jobId c w) as [-> | (response & Hparse & ->)].
  - rewrite <- (map_id (job_postings w)) at 2. apply Forall2_map_same.
    intros x. repeat split; left; reflexivity.
  - apply Forall2_map_same. intros old. unfold update_where.
    destruct (has_id jobId old) eqn:Hid; [|repeat split; left; reflexivity].
    apply Nat.eqb_eq in Hid.
    repeat split; eapply coalesced_column; eauto.
Qed.

(** C6. On a stored posting whose completion parses to a response, Normalize
    returns and leaves in each of the five columns (title, level, remote
    mode, visa sponsorship, location) the value the response supplies under
    the matching key when it supplies one that is not null, and the stored
    value otherwise: a response without [normalizedLocation] leaves the
    location as it was.  No row changes in any other way. *)
Theorem normalize_coalesce :
  forall (jobId : nat) (c : completion) (w : world) (p : Posting.row) (response : json),
    posting_by_id jobId w = Some p ->
    descSnippet (Posting.description_raw p) = Returned tt ->
    parse_completion c = Returned response ->
    response <> JNull ->
    let r := runNormalize jobId c w in
    let applied key old := match supplied key response with Some v => v | None => old end in
    result_of r = Returned tt
    /\ (exists p',
          posting_by_id jobId (world_of r) = Some p'
          /\ Posting.title p' = applied "normalizedTitle" (Posting.title p)
          /\ Posting.level p' = applied "level" (Posting.level p)
          /\ Posting.remote_mode p' = applied "remoteMode" (Posting.remote_mode p)
          /\ Posting.visa_sponsorship p' = applied "visaSponsorship" (Posting.visa_sponsorship p)
          /\ Posting.location p' = applied "normalizedLocation" (Posting.location p)
          /\ (supplied "normalizedLocation" response = None ->
              Posting.location p' = Posting.location p))
    /\ Forall2 (coalesced jobId c) (job_postings w) (job_postings (world_of r)).
Proof.
  intros jobId c w p response Hrow Hdesc Hparse Hnull r applied.
  pose proof (runNormalize_applied jobId c w p response Hrow Hdesc Hparse Hnull) as Hrun.
  fold r in Hrun.
  split; [rewrite Hrun; reflexivity|]. split; [|apply normalize_changes_only_supplied].
  eexists. split.
  - rewrite Hrun.
    change (posting_by_id jobId (world_of (Returned tt, ?w', ?l)))
      with (posting_by_id jobId w').
    unfold add_fitScore, modify, world_of, posting_by_id. cbn [fst snd job_postings].
    fold (posting_by_id jobId
            (with_job_postings
               (map (update_where jobId
                       (set_normalized
                          (param (get_prop "normalizedTitle" response))
                          (param (get_prop "level" response))
                          (param (get_prop "remoteMode" response))
                          (param (get_prop "visaSponsorship" response))
                          (param (get_prop "normalizedLocation" response))))) w)).
    rewrite posting_by_id_update by (intros; reflexivity). rewrite Hrow. reflexivity.
  - unfold applied. cbn [set_normalized Posting.title Posting.level Posting.remote_mode
      Posting.visa_sponsorship Posting.location].
    rewrite !COALESCE_param. repeat split.
    intros Hnone. rewrite Hnone. reflexivity.
Qed.

Lemma normalize_coalesce_witness :
  let response := JObj [("normalizedTitle", JStr "Software Engineer Intern");
                        ("level", JNull); ("remoteMode", JStr "onsite")] in
  let r := runNormalize 1 (Parses response) sample_world in
  let applied key old := match supplied key response with Some v => v | None => old end in
  result_of r = Returned tt
  /\ (exists p',
        posting_by_id 1 (world_of r) = Some p'
        /\ Posting.title p' = applied "normalizedTitle" (Posting.title sample_posting)
        /\ Posting.level p' = applied "level" (Posting.level sample_posting)
        /\ Posting.remote_mode p' = applied "remoteMode" (Posting.remote_mode sample_posting)
        /\ Posting.visa_sponsorship p'
           = applied "visaSponsorship" (Posting.visa_sponsorship sample_posting)
        /\ Posting.location p' = applied "normalizedLocation" (Posting.location sample_posting)
        /\ (supplied "normalizedLocation" response = None ->
            Posting.location p' = Posting.location sample_posting))
  /\ Forall2 (coalesced 1 (Parses response)) (job_postings sample_world)
             (job_postings (world_of r)).
Proof.
  intros response.
  apply (normalize_coalesce 1 (Parses response) sample_world sample_posting response).
  - reflexivity.
  - reflexivity.
  - reflexivity.
  - discriminate.
Defined.

(** A response with a title, a null level, a remote mode and no location. *)
Example normalize_keeps_location :
  let response := JObj [("normalizedTitle", JStr "Software Engineer Intern");
                        ("level", JNull); ("remoteMode", JStr "onsite")] in
  let w' := world_of (runNormalize 1 (Parses response) sample_world) in
  option_map Posting.location (posting_by_id 1 w') = Some (JStr "Seattle, WA")
  /\ option_map Posting.level (posting_by_id 1 w') = Some (JStr "intern")
  /\ option_map Posting.title (posting_by_id 1 w') = Some (JStr "Software Engineer Intern")
  /\ option_map Posting.remote_mode (posting_by_id 1 w') = Some (JStr "onsite")
  /\ fitScoreQueue w' = [1%nat].
Proof. vm_compute. repeat split; reflexivity. Qed.

(** ** Scout *)

Lemma same_posting_key_spec src sjid p :
  same_posting_key src sjid p = true <-> key_of p = (src, sjid).
Proof.
  unfold same_posting_key, key_of. rewrite andb_true_iff, !String.eqb_eq.
  split; [intros [-> ->]; reflexivity | intros [= -> ->]; auto].
Qed.

Lemma key_absent src sjid t :
  existsb (same_posting_key src sjid) t = false -> ~ In (src, sjid) (map key_of t).
Proof.
  intros Hex Hin. apply in_map_iff in Hin. destruct Hin as (p & Hk & Hp).
  assert (existsb (same_posting_key src sjid) t = true) as Hyes
    by (apply existsb_exists; exists p; split; [exact Hp | apply same_posting_key_spec, Hk]).
  congruence.
Qed.

Lemma unique_keys_snoc t r :
  unique_keys t -> ~ In (key_of r) (map key_of t) -> unique_keys (t ++ [r]).
Proof.
  unfold unique_keys. intros Hnd Hnew. rewrite map_app. simpl.
  apply NoDup_app; [exact Hnd | repeat constructor; simpl; tauto |].
  intros k Hin [<-|[]]. exact (Hnew Hin).
Qed.

Lemma scout_extends_refl w : scout_extends w w.
Proof.
  exists []. rewrite !app_nil_r. repeat split; auto.
Qed.

Lemma scout_extends_trans w1 w2 w3 :
  scout_extends w1 w2 -> scout_extends w2 w3 -> scout_extends w1 w3.
Proof.
  intros (r1 & Hp1 & Hq1 & Hs1 & Hu1 & Hf1 & Hr1 & Ha1 & Hfq1 & Hm1 & Hc1)
         (r2 & Hp2 & Hq2 & Hs2 & Hu2 & Hf2 & Hr2 & Ha2 & Hfq2 & Hm2 & Hc2).
  exists (r1 ++ r2).
  rewrite Hp2, Hp1, Hq2, Hq1, map_app, !app_assoc.
  repeat split; try congruence; auto.
  - apply Forall_app; auto.
  - intros Hu. rewrite <- Hp1, <- Hp2. auto.
Qed.

(** The three ways one posting is handled. *)
Lemma scout_posting_thrown target d n w :
  posting_throws d ->
  scout_posting target d n w = (Returned n, w, [(LError, "[scout] failed to process job")]).
Proof.
  intros [Hex | Hins]; unfold scout_posting; run_worker.
  - rewrite Hex. reflexivity.
  - destruct (extractStructuredFields (extraction d)); [rewrite Hins|]; reflexivity.
Qed.

Lemma scout_posting_known target d n w fields :
  extractStructuredFields (extraction d) = Returned fields ->
  insert_fails d = false ->
  existsb (same_posting_key (fst (posting_key (gh d))) (snd (posting_key (gh d))))
          (job_postings w) = true ->
  scout_posting target d n w = (Returned n, w, []).
Proof.
  intros Hex Hins Hkey. unfold scout_posting. run_worker.
  rewrite Hex, Hins. unfold insert_job_posting. rewrite Hkey. reflexivity.
Qed.

Lemma scout_posting_new target d n w fields :
  extractStructuredFields (extraction d) = Returned fields ->
  insert_fails d = false ->
  existsb (same_posting_key (fst (posting_key (gh d))) (snd (posting_key (gh d))))
          (job_postings w) = false ->
  exists row : Posting.row,
    key_of row = posting_key (gh d)
    /\ Posting.id row = fresh_id (map Posting.id (job_postings w))
    /\ Posting.status row = Discovered
    /\ scout_posting target d n w
       = (Returned (S n),
          mkWorld (job_postings w ++ [row]) (followups w) (resume_versions w)
                  (applications w) (normalizeQueue w ++ [Posting.id row]) (fitScoreQueue w)
                  (materialsQueue w) (complianceQueue w),
          [(LInfo, "[scout] new job — enqueued normalize")]).
Proof.
  intros Hex Hins Hkey. unfold scout_posting. run_worker.
  rewrite Hex, Hins. unfold insert_job_posting. rewrite Hkey.
  cbn [with_job_postings job_postings followups resume_versions applications
       normalizeQueue fitScoreQueue materialsQueue complianceQueue].
  match goal with
  | |- context [job_postings w ++ [?r]] => exists r
  end.
  repeat split.
Qed.

Lemma posting_throws_dec d : posting_throws d \/
  exists fields, extractStructuredFields (extraction d) = Returned fields
                 /\ insert_fails d = false.
Proof.
  unfold posting_throws.
  destruct (extractStructuredFields (extraction d)) as [fields|]; [|left; left; reflexivity].
  destruct (insert_fails d); [left; right; reflexivity|right; eauto].
Qed.

(** One posting: the handling returns, and only extends the world. *)
Lemma scout_posting_extends target d n w :
  exists n' w' l,
    scout_posting target d n w = (Returned n', w', l) /\ scout_extends w w'.
Proof.
  destruct (posting_throws_dec d) as [Hthrows | (fields & Hex & Hins)].
  - rewrite (scout_posting_thrown _ _ _ _ Hthrows). eauto using scout_extends_refl.
  - destruct (existsb (same_posting_key (fst (posting_key (gh d))) (snd (posting_key (gh d))))
                (job_postings w)) eqn:Hkey.
    + rewrite (scout_posting_known _ _ _ _ _ Hex Hins Hkey). eauto using scout_extends_refl.
    + destruct (scout_posting_new target d n w fields Hex Hins Hkey)
        as (row & Hk & Hid & Hst & ->).
      do 3 eexists. split; [reflexivity|].
      exists [row]. simpl. repeat split; auto.
      intros Hu. apply unique_keys_snoc; [exact Hu|].
      rewrite Hk. rewrite (surjective_pairing (posting_key (gh d))).
      apply key_absent, Hkey.
Qed.

Lemma bind_returns {A B} (m : M A) (k : A -> M B) w a w1 l1 :
  m w = (Returned a, w1, l1) ->
  bind m k w = (result_of (k a w1), world_of (k a w1), l1 ++ log_of (k a w1)).
Proof.
  intros H. unfold bind. rewrite H. destruct (k a w1) as [[r w2] l2]. reflexivity.
Qed.

Lemma scout_postings_extends target relevant :
  forall n w, exists n' w' l,
    scout_postings target relevant n w = (Returned n', w', l) /\ scout_extends w w'.
Proof.
  induction relevant as [|d rest IH]; intros n w; cbn [scout_postings].
  - exists n, w, []. split; [reflexivity | apply scout_extends_refl].
  - destruct (scout_posting_extends target d n w) as (n1 & w1 & l1 & Hstep & Hext1).
    destruct (IH n1 w1) as (n2 & w2 & l2 & Hrest & Hext2).
    rewrite (bind_returns _ _ _ _ _ _ Hstep), Hrest.
    do 3 eexists. split; [reflexivity|]. eapply scout_extends_trans; eassumption.
Qed.

Lemma bind_throws {A B} (m : M A) (k : A -> M B) w w1 l1 :
  m w = (Thrown, w1, l1) -> bind m k w = (Thrown, w1, l1).
Proof. intros H. unfold bind. rewrite H. reflexivity. Qed.

Lemma fetch_cases reply w :
  (exists jobs l, fetchGreenhouseJobs reply w = (Returned jobs, w, l))
  \/ fetchGreenhouseJobs reply w = (Thrown, w, []).
Proof.
  destruct reply as [|[] [|[jobs|]|]]; cbv [fetchGreenhouseJobs bind logger ret throw];
    try (right; reflexivity); left; eauto.
Qed.

(** The outer loop's body, by what the fetch gave. *)
Lemma scout_target_on_feed fetch target n w jobs l :
  fetchGreenhouseJobs (fetch (Target.slug target)) w = (Returned (Feed jobs), w, l) ->
  scout_target fetch target n w
  = (result_of (scout_postings target (filter (fun d => is_relevant (gh d)) jobs) n w),
     world_of (scout_postings target (filter (fun d => is_relevant (gh d)) jobs) n w),
     l ++ (LInfo, "[scout] fetched greenhouse")
       :: log_of (scout_postings target (filter (fun d => is_relevant (gh d)) jobs) n w)).
Proof.
  intros Hf. unfold scout_target, try_catch, bind at 1 2. rewrite Hf. cbn [ret].
  cbv [bind lift pre_filter logger result_of world_of log_of].
  destruct (scout_postings target _ n w) as [[r w'] l']. rewrite app_nil_r. reflexivity.
Qed.

Lemma scout_target_no_feed fetch target n w l :
  fetchGreenhouseJobs (fetch (Target.slug target)) w = (Returned NoFeed, w, l) ->
  scout_target fetch target n w = (Thrown, w, l).
Proof.
  intros Hf. unfold scout_target, try_catch, bind at 1 2. rewrite Hf. cbn [ret].
  cbv [bind lift pre_filter]. rewrite !app_nil_r. reflexivity.
Qed.

Lemma scout_target_caught fetch target n w :
  fetchGreenhouseJobs (fetch (Target.slug target)) w = (Thrown, w, []) ->
  scout_target fetch target n w
  = (Returned n, w, [(LError, "[scout] fetch failed, skipping")]).
Proof.
  intros Hf. unfold scout_target, try_catch, bind at 1 2. rewrite Hf. reflexivity.
Qed.

(** However a board is handled, the world is only extended. *)
Lemma scout_target_extends fetch target n w :
  exists r w' l,
    scout_target fetch target n w = (r, w', l) /\ scout_extends w w'.
Proof.
  destruct (fetch_cases (fetch (Target.slug target)) w) as [([jobs|] & l & Hf) | Hf].
  - destruct (scout_postings_extends target (filter (fun d => is_relevant (gh d)) jobs) n w)
      as (n' & w' & l' & Hrun & Hext).
    rewrite (scout_target_on_feed _ _ _ _ _ _ Hf), Hrun.
    do 3 eexists. split; [reflexivity | exact Hext].
  - rewrite (scout_target_no_feed _ _ _ _ _ Hf).
    do 3 eexists. split; [reflexivity | apply scout_extends_refl].
  - rewrite (scout_target_caught _ _ _ _ Hf).
    do 3 eexists. split; [reflexivity | apply scout_extends_refl].
Qed.

(** A board whose body is an array of postings, or whose fetch fails, is
    handled without a throw. *)
Lemma scout_target_returns fetch target n w :
  fetch (Target.slug target) <> Response true IllTyped ->
  exists n' w' l,
    scout_target fetch target n w = (Returned n', w', l) /\ scout_extends w w'.
Proof.
  intros Htyped.
  destruct (fetch_cases (fetch (Target.slug target)) w) as [([jobs|] & l & Hf) | Hf].
  - destruct (scout_postings_extends target (filter (fun d => is_relevant (gh d)) jobs) n w)
      as (n' & w' & l' & Hrun & Hext).
    rewrite (scout_target_on_feed _ _ _ _ _ _ Hf), Hrun.
    do 3 eexists. split; [reflexivity | exact Hext].
  - exfalso. destruct (fetch (Target.slug target)) as [|[] [|[jobs|]|]];
      cbv [fetchGreenhouseJobs bind logger ret throw] in Hf;
      try discriminate Hf. apply Htyped. reflexivity.
  - rewrite (scout_target_caught _ _ _ _ Hf).
    do 3 eexists. split; [reflexivity | apply scout_extends_refl].
Qed.

Lemma scout_targets_extends fetch targets :
  forall n w, exists r w' l,
    scout_targets fetch targets n w = (r, w', l) /\ scout_extends w w'.
Proof.
  induction targets as [|t rest IH]; intros n w; cbn [scout_targets].
  - exists (Returned n), w, []. split; [reflexivity | apply scout_extends_refl].
  - destruct (scout_target_extends fetch t n w) as ([n1|] & w1 & l1 & Hstep & Hext1).
    + destruct (IH n1 w1) as (r2 & w2 & l2 & Hrest & Hext2).
      rewrite (bind_returns _ _ _ _ _ _ Hstep), Hrest.
      do 3 eexists. split; [reflexivity|]. eapply scout_extends_trans; eassumption.
    + rewrite (bind_throws _ _ _ _ _ Hstep).
      do 3 eexists. split; [reflexivity | exact Hext1].
Qed.

Lemma scout_targets_return fetch targets :
  (forall t, In t targets -> fetch (Target.slug t) <> Response true IllTyped) ->
  forall n w, exists n' w' l,
    scout_targets fetch targets n w = (Returned n', w', l) /\ scout_extends w w'.
Proof.
  induction targets as [|t rest IH]; intros Htyped n w; cbn [scout_targets].
  - exists n, w, []. split; [reflexivity | apply scout_extends_refl].
  - destruct (scout_target_returns fetch t n w (Htyped t (or_introl eq_refl)))
      as (n1 & w1 & l1 & Hstep & Hext1).
    destruct (IH (fun t' Hin => Htyped t' (or_intror Hin)) n1 w1)
      as (n2 & w2 & l2 & Hrest & Hext2).
    rewrite (bind_returns _ _ _ _ _ _ Hstep), Hrest.
    do 3 eexists. split; [reflexivity|]. eapply scout_extends_trans; eassumption.
Qed.

(** A whole run only extends the world, however it ends. *)
Lemma runScout_extends fetch w : scout_extends w (world_of (runScout fetch w)).
Proof.
  destruct (scout_targets_extends fetch GREENHOUSE_TARGETS 0 w) as ([n|] & w' & l & Hrun & Hext).
  - unfold runScout. rewrite (bind_returns _ _ _ _ _ _ Hrun). exact Hext.
  - unfold runScout. rewrite (bind_throws _ _ _ _ _ Hrun). exact Hext.
Qed.

(** With every body an array of postings, a whole run returns. *)
Lemma runScout_returns fetch w :
  well_typed_feeds fetch -> result_of (runScout fetch w) = Returned tt.
Proof.
  intros Htyped.
  destruct (scout_targets_return fetch GREENHOUSE_TARGETS Htyped 0 w)
    as (n & w' & l & Hrun & _).
  unfold runScout. rewrite (bind_returns _ _ _ _ _ _ Hrun). reflexivity.
Qed.

Lemma stored_iff_key (k : string * string) w :
  stored_under k w = [] <-> existsb (same_posting_key (fst k) (snd k)) (job_postings w) = false.
Proof.
  unfold stored_under. induction (job_postings w) as [|p t IH]; simpl; [tauto|].
  destruct (same_posting_key (fst k) (snd k) p); simpl; [split; discriminate | exact IH].
Qed.

(** A posting whose key is stored: handling it changes nothing and counts
    nothing. *)
Lemma scout_posting_noop target d n w :
  stored_under (posting_key (gh d)) w <> [] ->
  world_of (scout_posting target d n w) = w
  /\ result_of (scout_posting target d n w) = Returned n.
Proof.
  intros Hstored.
  assert (Hkey : existsb (same_posting_key (fst (posting_key (gh d)))
                            (snd (posting_key (gh d)))) (job_postings w) = true).
  { destruct (existsb _ (job_postings w)) eqn:E; [reflexivity|].
    apply stored_iff_key in E. contradiction. }
  destruct (posting_throws_dec d) as [Hthrows | (fields & Hex & Hins)].
  - rewrite (scout_posting_thrown _ _ _ _ Hthrows). split; reflexivity.
  - rewrite (scout_posting_known _ _ _ _ _ Hex Hins Hkey). split; reflexivity.
Qed.

(** C5. Scout stores a posting with an insert that a row under the same
    (source, source id) absorbs, and adds a Normalize task exactly when the
    insert produced a row.  So when a posting is discovered and then anything
    under the same pair is discovered again, the table holds one row under
    the pair, at most one Normalize task was added for it (one if the first
    discovery stored the row, none if the row was already there), and the
    second discovery changes neither the store nor the queues nor the count
    of discovered postings. *)
Theorem discovery_is_deduplicated :
  forall (t1 t2 : Target.t) (d1 d2 : Discovery) (n1 n2 : nat) (w : world)
         (fields : ExtractedFields.t),
    posting_key (gh d2) = posting_key (gh d1) ->
    extractStructuredFields (extraction d1) = Returned fields ->
    insert_fails d1 = false ->
    (List.length (stored_under (posting_key (gh d1)) w) <= 1)%nat ->
    let key := posting_key (gh d1) in
    let first := scout_posting t1 d1 n1 w in
    let second := scout_posting t2 d2 n2 (world_of first) in
    List.length (stored_under key (world_of second)) = 1%nat
    /\ world_of second = world_of first
    /\ result_of second = Returned n2
    /\ (stored_under key w = [] ->
        exists row : Posting.row,
          key_of row = key
          /\ Posting.status row = Discovered
          /\ job_postings (world_of first) = job_postings w ++ [row]
          /\ normalizeQueue (world_of first) = normalizeQueue w ++ [Posting.id row]
          /\ result_of first = Returned (S n1))
    /\ (stored_under key w <> [] ->
        world_of first = w /\ result_of first = Returned n1)
    /\ scout_extends w (world_of second).
Proof.
  intros t1 t2 d1 d2 n1 n2 w fields Hsame Hex Hins Hle key first second.
  change (stored_under (posting_key (gh d1)) w) with (stored_under key w) in Hle.
  assert (Hfirst : (stored_under key w = [] ->
                    exists row : Posting.row,
                      key_of row = key
                      /\ Posting.status row = Discovered
                      /\ job_postings (world_of first) = job_postings w ++ [row]
                      /\ normalizeQueue (world_of first) = normalizeQueue w ++ [Posting.id row]
                      /\ result_of first = Returned (S n1))
                   /\ (stored_under key w <> [] ->
                       world_of first = w /\ result_of first = Returned n1)).
  { split.
    - intros Hnone. apply stored_iff_key in Hnone.
      destruct (scout_posting_new t1 d1 n1 w fields Hex Hins Hnone)
        as (row & Hk & _ & Hst & Hrun).
      exists row. unfold first. rewrite Hrun. repeat split; assumption.
    - intros Hsome. apply scout_posting_noop, Hsome. }
  assert (Hone : List.length (stored_under key (world_of first)) = 1%nat).
  { destruct (stored_under key w) as [|p rest] eqn:Hst.
    - destruct (proj1 Hfirst eq_refl) as (row & Hk & _ & Hrows & _).
      unfold stored_under in *. rewrite Hrows, filter_app, Hst. cbn [filter app].
      assert (same_posting_key (fst key) (snd key) row = true) as ->
        by (apply same_posting_key_spec; rewrite Hk; apply surjective_pairing).
      reflexivity.
    - destruct (proj2 Hfirst) as [-> _]; [discriminate|]. rewrite Hst in *.
      cbn [List.length] in *. destruct rest; cbn [List.length] in *; [reflexivity | lia]. }
  assert (Hnoop : world_of second = world_of first /\ result_of second = Returned n2).
  { apply scout_posting_noop. rewrite Hsame. fold key.
    destruct (stored_under key (world_of first)); [discriminate Hone | discriminate]. }
  destruct Hnoop as [Hw2 Hr2]. destruct Hfirst as [Hnew Hold].
  repeat split; try assumption.
  - rewrite Hw2. exact Hone.
  - apply Hold; assumption.
  - apply Hold; assumption.
  - rewrite Hw2. destruct (scout_posting_extends t1 d1 n1 w) as (n' & w' & l & Hrun & Hext).
    unfold first. rewrite Hrun. exact Hext.
Qed.

Lemma discovery_is_deduplicated_witness :
  let key := posting_key (gh sample_discovery) in
  let first := scout_posting sample_target sample_discovery 0 empty_world in
  let second := scout_posting sample_target sample_discovery 1 (world_of first) in
  List.length (stored_under key (world_of second)) = 1%nat
  /\ world_of second = world_of first
  /\ result_of second = Returned 1%nat
  /\ (stored_under key empty_world = [] ->
      exists row : Posting.row,
        key_of row = key
        /\ Posting.status row = Discovered
        /\ job_postings (world_of first) = job_postings empty_world ++ [row]
        /\ normalizeQueue (world_of first) = normalizeQueue empty_world ++ [Posting.id row]
        /\ result_of first = Returned 1%nat)
  /\ (stored_under key empty_world <> [] ->
      world_of first = empty_world /\ result_of first = Returned 0%nat)
  /\ scout_extends empty_world (world_of second).
Proof.
  apply (discovery_is_deduplicated sample_target sample_target sample_discovery
           sample_discovery 0 1 empty_world
           (ExtractedFields.mk (JStr "intern") (JStr "unknown") (JStr "unknown")
              (JObj [("techStack", JArr [])]))).
  - reflexivity.
  - reflexivity.
  - reflexivity.
  - simpl. lia.
Defined.

(** The same feed scouted twice: one row, one Normalize task, and a second
    run that finds nothing new. *)
Example scout_twice :
  let w1 := world_of (runScout sample_fetch empty_world) in
  let w2 := world_of (runScout sample_fetch w1) in
  map key_of (job_postings w1) = [("greenhouse", "4012")]
  /\ map Posting.status (job_postings w1) = [Discovered]
  /\ normalizeQueue w1 = map Posting.id (job_postings w1)
  /\ w2 = w1.
Proof. vm_compute. repeat split; reflexivity. Qed.

(** *** Failures stay where they happen *)

Lemma same_effect_refl {A} (r : outcome A * world * list logline) : same_effect r r.
Proof. split; reflexivity. Qed.

Lemma same_effect_trans {A} (r1 r2 r3 : outcome A * world * list logline) :
  same_effect r1 r2 -> same_effect r2 r3 -> same_effect r1 r3.
Proof. intros [H1 H2] [H3 H4]. split; congruence. Qed.

Lemma bind_same_effect {A B} (m m' : M A) (k k' : A -> M B) w :
  same_effect (m w) (m' w) ->
  (forall a w1, same_effect (k a w1) (k' a w1)) ->
  same_effect (bind m k w) (bind m' k' w).
Proof.
  unfold same_effect, bind, result_of, world_of.
  destruct (m w) as [[r1 w1] l1], (m' w) as [[r1' w1'] l1']. simpl.
  intros [<- <-] Hk. destruct r1 as [a|]; [|split; reflexivity].
  specialize (Hk a w1).
  destruct (k a w1) as [[r2 w2] l2], (k' a w1) as [[r2' w2'] l2']. exact Hk.
Qed.

(** A posting whose handling throws counts for nothing in its feed. *)
Lemma scout_postings_skip target before d after :
  posting_throws d ->
  forall n w,
    same_effect (scout_postings target (before ++ d :: after) n w)
                (scout_postings target (before ++ after) n w).
Proof.
  intros Hthrows. induction before as [|b before IH]; intros n w; cbn [app scout_postings].
  - rewrite (bind_returns _ _ _ _ _ _ (scout_posting_thrown target d n w Hthrows)).
    split; reflexivity.
  - apply bind_same_effect; [apply same_effect_refl | intros a w1; apply IH].
Qed.

(** With its feed in hand, a board is handled as its relevant postings are. *)
Lemma scout_target_fetched fetch target jobs n w :
  fetch (Target.slug target) = Response true (Body (Some jobs)) ->
  same_effect (scout_target fetch target n w)
              (scout_postings target (filter (fun d => is_relevant (gh d)) jobs) n w).
Proof.
  intros Hf.
  rewrite (scout_target_on_feed fetch target n w jobs [])
    by (rewrite Hf; reflexivity).
  destruct (scout_postings target _ n w) as [[r w'] l]. split; reflexivity.
Qed.

(** A board whose fetch throws is passed over. *)
Lemma scout_target_down fetch target n w :
  fetch_throws (fetch (Target.slug target)) ->
  same_effect (scout_target fetch target n w) (Returned n, w, []).
Proof.
  intros Hdown. specialize (Hdown w).
  destruct (fetch_cases (fetch (Target.slug target)) w) as [(jobs & l & Hf) | Hf];
    rewrite Hf in Hdown; [discriminate Hdown|].
  rewrite (scout_target_caught _ _ _ _ Hf). split; reflexivity.
Qed.

Lemma scout_targets_congr fetch fetch' targets :
  (forall t n w, same_effect (scout_target fetch t n w) (scout_target fetch' t n w)) ->
  forall n w, same_effect (scout_targets fetch targets n w) (scout_targets fetch' targets n w).
Proof.
  intros Hstep. induction targets as [|t rest IH]; intros n w; cbn [scout_targets].
  - apply same_effect_refl.
  - apply bind_same_effect; [apply Hstep | intros a w1; apply IH].
Qed.

Lemma runScout_congr fetch fetch' w :
  (forall t n w, same_effect (scout_target fetch t n w) (scout_target fetch' t n w)) ->
  same_effect (runScout fetch w) (runScout fetch' w).
Proof.
  intros Hstep. unfold runScout. apply bind_same_effect.
  - apply scout_targets_congr, Hstep.
  - intros a w1. apply same_effect_refl.
Qed.

Lemma with_reply_other slug reply fetch s :
  String.eqb s slug = false -> with_reply slug reply fetch s = fetch s.
Proof. intros H. unfold with_reply. rewrite H. reflexivity. Qed.

Lemma with_reply_same slug reply fetch : with_reply slug reply fetch slug = reply.
Proof. unfold with_reply. rewrite String.eqb_refl. reflexivity. Qed.

Lemma scout_target_same_reply fetch fetch' target n w :
  fetch' (Target.slug target) = fetch (Target.slug target) ->
  scout_target fetch' target n w = scout_target fetch target n w.
Proof. intros H. unfold scout_target. rewrite H. reflexivity. Qed.

(** *** What is not skipped is handled *)

Lemma stored_extends k w w' :
  scout_extends w w' -> stored_under k w <> [] -> stored_under k w' <> [].
Proof.
  intros (rows & Hp & _) Hs. unfold stored_under in *. rewrite Hp, filter_app.
  intros Happ. apply app_eq_nil in Happ. tauto.
Qed.

Lemma scout_posting_leaves_stored target d n w fields :
  extractStructuredFields (extraction d) = Returned fields ->
  insert_fails d = false ->
  stored_under (posting_key (gh d)) (world_of (scout_posting target d n w)) <> [].
Proof.
  intros Hex Hins.
  destruct (existsb (same_posting_key (fst (posting_key (gh d))) (snd (posting_key (gh d))))
              (job_postings w)) eqn:Hkey.
  - rewrite (scout_posting_known _ _ _ _ _ Hex Hins Hkey). cbn [world_of fst snd].
    intros Hnone. apply stored_iff_key in Hnone. congruence.
  - destruct (scout_posting_new target d n w fields Hex Hins Hkey)
      as (row & Hk & _ & _ & ->).
    cbn [world_of fst snd]. unfold stored_under. cbn [job_postings]. rewrite filter_app.
    cbn [filter].
    assert (same_posting_key (fst (posting_key (gh d))) (snd (posting_key (gh d))) row = true)
      as -> by (apply same_posting_key_spec; rewrite Hk; apply surjective_pairing).
    intros Happ. apply app_eq_nil in Happ. destruct Happ as [_ Hrow]. discriminate Hrow.
Qed.

Lemma scout_postings_leave_stored target d fields relevant :
  extractStructuredFields (extraction d) = Returned fields ->
  insert_fails d = false ->
  In d relevant ->
  forall n w,
    stored_under (posting_key (gh d)) (world_of (scout_postings target relevant n w)) <> [].
Proof.
  intros Hex Hins. induction relevant as [|d' rest IH]; intros Hin n w; [destruct Hin|].
  cbn [scout_postings].
  destruct (scout_posting_extends target d' n w) as (n1 & w1 & l1 & Hstep & _).
  rewrite (bind_returns _ _ _ _ _ _ Hstep). cbn [world_of fst snd].
  destruct Hin as [-> | Hin]; [|apply IH, Hin].
  pose proof (scout_posting_leaves_stored target d n w fields Hex Hins) as Hnow.
  rewrite Hstep in Hnow. cbn [world_of fst snd] in Hnow.
  destruct (scout_postings_extends target rest n1 w1) as (n2 & w2 & l2 & Hrest & Hext).
  rewrite Hrest. cbn [world_of fst snd]. exact (stored_extends _ _ _ Hext Hnow).
Qed.

Lemma scout_targets_leave_stored fetch t jobs d fields targets :
  (forall t', In t' targets -> fetch (Target.slug t') <> Response true IllTyped) ->
  In t targets ->
  fetch (Target.slug t) = Response true (Body (Some jobs)) ->
  In d jobs ->
  is_relevant (gh d) = true ->
  extractStructuredFields (extraction d) = Returned fields ->
  insert_fails d = false ->
  forall n w,
    stored_under (posting_key (gh d)) (world_of (scout_targets fetch targets n w)) <> [].
Proof.
  intros Htyped Hin Hfeed Hd Hrel Hex Hins.
  induction targets as [|t' rest IH]; intros n w; [destruct Hin|].
  cbn [scout_targets].
  destruct (scout_target_returns fetch t' n w (Htyped t' (or_introl eq_refl)))
    as (n1 & w1 & l1 & Hstep & _).
  rewrite (bind_returns _ _ _ _ _ _ Hstep). cbn [world_of fst snd].
  destruct Hin as [-> | Hin].
  - assert (Hnow : stored_under (posting_key (gh d)) w1 <> []).
    { destruct (scout_target_fetched fetch t jobs n w Hfeed) as [_ Hw].
      rewrite Hstep in Hw. cbn [world_of fst snd] in Hw. rewrite Hw.
      apply (scout_postings_leave_stored t d fields _ Hex Hins).
      apply filter_In. split; assumption. }
    destruct (scout_targets_extends fetch rest n1 w1) as (r2 & w2 & l2 & Hrest & Hext).
    rewrite Hrest. cbn [world_of fst snd]. exact (stored_extends _ _ _ Hext Hnow).
  - apply IH; [intros t'' Hin'; apply Htyped; right; exact Hin' | exact Hin].
Qed.

Lemma runScout_world fetch w :
  world_of (runScout fetch w) = world_of (scout_targets fetch GREENHOUSE_TARGETS 0 w).
Proof.
  unfold runScout, bind, logger.
  destruct (scout_targets fetch GREENHOUSE_TARGETS 0 w) as [[[n|] w1] l1]; reflexivity.
Qed.

(** C8.  Neither a fetch that throws nor a posting whose extraction or
    insert throws makes a run of Scout throw: with every body that arrives an
    array of postings, the run returns.  A board whose fetch throws is only
    skipped: the run ends as, and leaves the store and the queues as, the run
    in which that board answers with an empty list.  A posting whose
    extraction or insert throws is only skipped: the run ends as, and leaves
    the store and the queues as, the run on the same feed without that
    posting.  And what is not skipped is handled, whatever fails elsewhere:
    every relevant posting in the feed of every configured board, with its own
    extraction and insert working, is stored under its key when the run ends,
    and if the key was new the row is Discovered, was appended by this run and
    has its Normalize task in the queue. *)
Theorem scout_failures_are_isolated :
  forall (fetch : string -> http_reply) (w : world),
    (well_typed_feeds fetch -> result_of (runScout fetch w) = Returned tt)
    /\ (forall slug : string,
          fetch_throws (fetch slug) ->
          same_effect (runScout fetch w)
                      (runScout (with_reply slug (Response true (Body (Some []))) fetch) w))
    /\ (forall (slug : string) (before after : list Discovery) (d : Discovery),
          fetch slug = Response true (Body (Some (before ++ d :: after))) ->
          posting_throws d ->
          same_effect (runScout fetch w)
                      (runScout (with_reply slug (Response true (Body (Some (before ++ after))))
                                   fetch) w))
    /\ (forall (t : Target.t) (jobs : list Discovery) (d : Discovery)
               (fields : ExtractedFields.t),
          well_typed_feeds fetch ->
          In t GREENHOUSE_TARGETS ->
          fetch (Target.slug t) = Response true (Body (Some jobs)) ->
          In d jobs ->
          is_relevant (gh d) = true ->
          extractStructuredFields (extraction d) = Returned fields ->
          insert_fails d = false ->
          exists row : Posting.row,
            In row (job_postings (world_of (runScout fetch w)))
            /\ key_of row = posting_key (gh d)
            /\ (stored_under (posting_key (gh d)) w = [] ->
                ~ In row (job_postings w)
                /\ Posting.status row = Discovered
                /\ In (Posting.id row) (normalizeQueue (world_of (runScout fetch w))))).
Proof.
  intros fetch w. split; [apply runScout_returns|]. split; [|split].
  - intros slug Hdown. apply runScout_congr. intros t n w0.
    destruct (String.eqb (Target.slug t) slug) eqn:E.
    + apply String.eqb_eq in E. subst slug.
      eapply same_effect_trans; [apply scout_target_down, Hdown|].
      pose proof (scout_target_fetched
                    (with_reply (Target.slug t) (Response true (Body (Some []))) fetch)
                    t [] n w0 (with_reply_same _ _ _)) as [H1 H2].
      split; [rewrite H1 | rewrite H2]; reflexivity.
    + rewrite (scout_target_same_reply fetch _ t n w0 (with_reply_other _ _ _ _ E)).
      apply same_effect_refl.
  - intros slug before after d Hfeed Hthrows. apply runScout_congr. intros t n w0.
    destruct (String.eqb (Target.slug t) slug) eqn:E.
    + apply String.eqb_eq in E. subst slug.
      eapply same_effect_trans; [apply (scout_target_fetched _ _ _ _ _ Hfeed)|].
      pose proof (scout_target_fetched
                    (with_reply (Target.slug t)
                       (Response true (Body (Some (before ++ after)))) fetch)
                    t _ n w0 (with_reply_same _ _ _)) as [H1 H2].
      assert (Hskip : same_effect
                (scout_postings t (filter (fun d => is_relevant (gh d)) (before ++ d :: after))
                   n w0)
                (scout_postings t (filter (fun d => is_relevant (gh d)) (before ++ after))
                   n w0)).
      { rewrite !filter_app. cbn [filter].
        destruct (is_relevant (gh d)); [|apply same_effect_refl].
        apply scout_postings_skip, Hthrows. }
      destruct Hskip as [H3 H4]. split; congruence.
    + rewrite (scout_target_same_reply fetch _ t n w0 (with_reply_other _ _ _ _ E)).
      apply same_effect_refl.
  - intros t jobs d fields Htyped Hin Hfeed Hd Hrel Hex Hins.
    pose proof (scout_targets_leave_stored fetch t jobs d fields GREENHOUSE_TARGETS
                  Htyped Hin Hfeed Hd Hrel Hex Hins 0 w) as Hstored.
    rewrite <- runScout_world in Hstored.
    destruct (runScout_extends fetch w) as (rows & Hp & Hq & Hst & _).
    destruct (stored_under (posting_key (gh d)) (world_of (runScout fetch w)))
      as [|row others] eqn:Hrows; [contradiction|].
    assert (Hrow : In row (stored_under (posting_key (gh d)) (world_of (runScout fetch w))))
      by (rewrite Hrows; left; reflexivity).
    apply filter_In in Hrow. destruct Hrow as [Hthere Hkey].
    apply same_posting_key_spec in Hkey. rewrite <- surjective_pairing in Hkey.
    exists row. split; [exact Hthere|]. split; [exact Hkey|].
    intros Hnew.
    assert (Hnot : ~ In row (job_postings w)).
    { intros Hold. apply stored_iff_key in Hnew. apply key_absent in Hnew. apply Hnew.
      rewrite <- surjective_pairing, <- Hkey. apply in_map, Hold. }
    rewrite Hp in Hthere. apply in_app_or in Hthere. destruct Hthere as [Hold | Happended];
      [contradiction|].
    split; [exact Hnot|]. split.
    + rewrite Forall_forall in Hst. apply Hst, Happended.
    + rewrite Hq. apply in_or_app. right. apply in_map, Happended.
Qed.

Lemma scout_failures_are_isolated_witness :
  result_of (runScout sample_fetch empty_world) = Returned tt
  /\ same_effect (runScout sample_fetch empty_world)
                 (runScout (with_reply "openai" (Response true (Body (Some []))) sample_fetch)
                    empty_world)
  /\ same_effect (runScout sample_fetch empty_world)
                 (runScout (with_reply "stripe"
                              (Response true
                                 (Body (Some ([] ++ [sample_discovery; refused_discovery]))))
                              sample_fetch)
                    empty_world)
  /\ exists row : Posting.row,
       In row (job_postings (world_of (runScout sample_fetch empty_world)))
       /\ key_of row = posting_key (gh sample_discovery)
       /\ Posting.status row = Discovered
       /\ In (Posting.id row) (normalizeQueue (world_of (runScout sample_fetch empty_world))).
Proof.
  assert (Htyped : well_typed_feeds sample_fetch).
  { intros t Hin. simpl in Hin.
    repeat (destruct Hin as [<- | Hin]; [vm_compute; discriminate|]). destruct Hin. }
  destruct (scout_failures_are_isolated sample_fetch empty_world)
    as (Hreturns & Hboard & Hposting & Hhandled).
  split; [exact (Hreturns Htyped)|]. split; [|split].
  - apply Hboard. intros w. reflexivity.
  - apply (Hposting "stripe" [] [sample_discovery; refused_discovery] unlucky_discovery).
    + reflexivity.
    + left. reflexivity.
  - destruct (Hhandled sample_target
                [unlucky_discovery; sample_discovery; refused_discovery] sample_discovery
                (ExtractedFields.mk (JStr "intern") (JStr "unknown") (JStr "unknown")
                   (JObj [("techStack", JArr [])]))
                Htyped)
      as (row & Hin & Hkey & Hnew).
    + simpl. tauto.
    + reflexivity.
    + simpl. tauto.
    + reflexivity.
    + reflexivity.
    + reflexivity.
    + exists row. destruct (Hnew eq_refl) as (_ & Hst & Hq). repeat split; assumption.
Defined.

(** One board down, one extraction rejected, one insert refused: the run
    returns, and the one posting that could be stored is stored and queued. *)
Example scout_survives_failures :
  let r := runScout sample_fetch empty_world in
  result_of r = Returned tt
  /\ map Posting.title (job_postings (world_of r)) = [JStr "Software Engineering Intern"]
  /\ normalizeQueue (world_of r) = [1%nat]
  /\ map fst (log_of r)
     = [LInfo; LError; LInfo; LError; LInfo; LError; LInfo; LInfo; LInfo; LInfo; LInfo;
        LInfo; LInfo; LInfo; LInfo; LInfo].
Proof. vm_compute. repeat split; reflexivity. Qed.

(** A body whose [jobs] is not an array of postings is neither kind of
    failure: the pre-filter throws outside both [try] blocks, the run throws,
    and the boards after it are not reached; what was stored before stays. *)
Example ill_typed_feed_fails_the_run :
  let fetch := with_reply "snowflake" (Response true IllTyped) sample_fetch in
  let late :=
    mkDiscovery (GreenhouseJob.mk 77 "Site Reliability Intern" None "<p>Ops.</p>"
                   "https://boards.greenhouse.io/datadoghq/77" None)
      (Parses (JObj [])) false in
  let unreached := with_reply "datadoghq" (Response true (Body (Some [late]))) fetch in
  result_of (runScout fetch empty_world) = Thrown
  /\ world_of (runScout fetch empty_world) = world_of (runScout sample_fetch empty_world)
  /\ world_of (runScout unreached empty_world) = world_of (runScout fetch empty_world)
  /\ stored_under (posting_key (gh late)) (world_of (runScout unreached empty_world)) = [].
Proof. vm_compute. repeat split; reflexivity. Qed.

(** ** The helpers at work *)

Example String_of_Z_samples :
  String_of_Z 4012 = "4012" /\ String_of_Z 0 = "0" /\ String_of_Z (-7) = "-7".
Proof. repeat split; reflexivity. Qed.

Example is_relevant_samples :
  map (fun t => is_relevant (GreenhouseJob.mk 1 t None "" "" None))
      ["Software Engineering Intern"; "NEW GRAD 2026"; "New-Grad SWE"; "newgrad";
       "Entry Level Analyst"; "Summer 2026 Associate"; "International Sales Lead";
       "Staff Engineer"; "New  Grad"; "Summer 2019"]
  = [true; true; true; true; true; true; true; false; false; false].
Proof. vm_compute. reflexivity. Qed.

(** * The workers beyond the claims *)

(** ** How a run can end *)

Lemma posting_by_id_rows_iff jobId w :
  posting_by_id jobId w = hd_error (filter (has_id jobId) (job_postings w)).
Proof. reflexivity. Qed.

Lemma runNormalize_cases jobId c w :
  (posting_by_id jobId w = None
   /\ runNormalize jobId c w = (Returned tt, w, [(LWarn, "[normalize] job not found")]))
  \/ (posting_by_id jobId w <> None /\ runNormalize jobId c w = (Thrown, w, []))
  \/ (exists p normalized,
        posting_by_id jobId w = Some p
        /\ descSnippet (Posting.description_raw p) = Returned tt
        /\ parse_completion c = Returned normalized
        /\ normalized <> JNull).
Proof.
  destruct (posting_by_id jobId w) as [p|] eqn:Hrow.
  - right. destruct (posting_by_id_rows _ _ _ Hrow) as [rest Hrows].
    destruct (descSnippet (Posting.description_raw p)) as [[]|] eqn:Hdesc.
    + destruct (parse_completion c) as [normalized|] eqn:Hparse.
      * destruct normalized eqn:Hn;
          try (right; do 2 eexists; repeat split; eauto; discriminate).
        left. split; [discriminate|].
        unfold runNormalize. run_worker. rewrite Hrows, Hdesc, Hparse. reflexivity.
      * left. split; [discriminate|].
        unfold runNormalize. run_worker. rewrite Hrows, Hdesc, Hparse. reflexivity.
    + left. split; [discriminate|].
      unfold runNormalize. run_worker. rewrite Hrows, Hdesc. reflexivity.
  - left. split; [reflexivity|]. apply posting_by_id_none in Hrow.
    unfold runNormalize. run_worker. rewrite Hrow. reflexivity.
Qed.

Lemma runFitScore_cases ToNumber_text jobId c w :
  (posting_by_id jobId w = None
   /\ runFitScore ToNumber_text jobId c w
      = (Returned tt, w, [(LWarn, "[fit-score] job not found")]))
  \/ (posting_by_id jobId w <> None
      /\ runFitScore ToNumber_text jobId c w = (Thrown, w, []))
  \/ (exists p result score,
        posting_by_id jobId w = Some p
        /\ descSnippet (Posting.description_raw p) = Returned tt
        /\ parse_completion c = Returned result
        /\ result <> JNull
        /\ clamped ToNumber_text (get_prop "fitScore" result) = Returned score).
Proof.
  destruct (posting_by_id jobId w) as [p|] eqn:Hrow.
  - right. destruct (posting_by_id_rows _ _ _ Hrow) as [rest Hrows].
    destruct (descSnippet (Posting.description_raw p)) as [[]|] eqn:Hdesc.
    + destruct (parse_completion c) as [result|] eqn:Hparse.
      * assert (Hthrow : result = JNull ->
                  runFitScore ToNumber_text jobId c w = (Thrown, w, [])).
        { intros ->. unfold runFitScore. run_worker. rewrite Hrows, Hdesc, Hparse.
          reflexivity. }
        destruct (clamped ToNumber_text (get_prop "fitScore" result)) as [score|] eqn:Hs.
        -- destruct result eqn:Hn;
             try (right; do 3 eexists; repeat split; eauto; discriminate).
           left. split; [discriminate | apply Hthrow; reflexivity].
        -- left. split; [discriminate|].
           unfold runFitScore. run_worker. rewrite Hrows, Hdesc, Hparse.
           destruct result; try reflexivity; cbn [member]; rewrite Hs; reflexivity.
      * left. split; [discriminate|].
        unfold runFitScore. run_worker. rewrite Hrows, Hdesc, Hparse. reflexivity.
    + left. split; [discriminate|].
      unfold runFitScore. run_worker. rewrite Hrows, Hdesc. reflexivity.
  - left. split; [reflexivity|]. apply posting_by_id_none in Hrow.
    unfold runFitScore. run_worker. rewrite Hrow. reflexivity.
Qed.

Lemma runMaterials_cases jobId baseHash c w :
  (posting_by_id jobId w = None
   /\ runMaterials jobId baseHash c w
      = (Returned tt, w, [(LWarn, "[materials] job not found")]))
  \/ (posting_by_id jobId w <> None
      /\ runMaterials jobId baseHash c w
         = (Thrown, with_job_postings (map (update_where jobId (set_status Drafting))) w, []))
  \/ (exists p materials,
        posting_by_id jobId w = Some p
        /\ descSnippet (Posting.description_raw p) = Returned tt
        /\ parse_completion c = Returned materials
        /\ materials <> JNull).
Proof.
  destruct (posting_by_id jobId w) as [p|] eqn:Hrow.
  - right. destruct (posting_by_id_rows _ _ _ Hrow) as [rest Hrows].
    destruct (descSnippet (Posting.description_raw p)) as [[]|] eqn:Hdesc.
    + destruct (parse_completion c) as [materials|] eqn:Hparse.
      * destruct materials eqn:Hn;
          try (right; do 2 eexists; repeat split; eauto; discriminate).
        left. split; [discriminate|].
        unfold runMaterials. run_worker. rewrite Hrows, Hdesc, Hparse. reflexivity.
      * left. split; [discriminate|].
        unfold runMaterials. run_worker. rewrite Hrows, Hdesc, Hparse. reflexivity.
    + left. split; [discriminate|].
      unfold runMaterials. run_worker. rewrite Hrows, Hdesc. reflexivity.
  - left. split; [reflexivity|]. apply posting_by_id_none in Hrow.
    unfold runMaterials. run_worker. rewrite Hrow. reflexivity.
Qed.

Lemma runCompliance_cases job today c w :
  runCompliance job today c w = (Thrown, w, [])
  \/ (exists result ok,
        draftContent job = Returned tt
        /\ parse_completion c = Returned result
        /\ passed result = Returned ok).
Proof.
  destruct (draftContent job) as [[]|] eqn:Hdraft.
  - destruct (parse_completion c) as [result|] eqn:Hparse.
    + destruct (passed result) as [ok|] eqn:Hpass.
      * right. eauto.
      * left. unfold runCompliance. cbv [bind lift]. rewrite Hdraft, Hparse, Hpass.
        reflexivity.
    + left. unfold runCompliance. cbv [bind lift]. rewrite Hdraft, Hparse. reflexivity.
  - left. unfold runCompliance. cbv [bind lift]. rewrite Hdraft. reflexivity.
Qed.

(** ** Failed runs *)





(** ** Tasks handed on *)

(** X3. Whatever it is given, a worker adds to no queue but the next one,
    and at most one task: Scout only adds Normalize tasks, Normalize at most
    one FitScore task for its posting, FitScore at most one Materials task
    for its posting, Materials at most one Compliance task for its posting,
    and Compliance adds nothing. *)
Theorem workers_enqueue_next_stage_only :
  forall (ToNumber_text : json -> outcome jsnum) (fetch : string -> http_reply) (j : nat)
         (baseHash : string) (job : CompliancePayload) (today : Z) (c : completion)
         (w : world),
    (let w' := world_of (runScout fetch w) in
     (exists ids, normalizeQueue w' = normalizeQueue w ++ ids)
     /\ fitScoreQueue w' = fitScoreQueue w
     /\ materialsQueue w' = materialsQueue w
     /\ complianceQueue w' = complianceQueue w)
    /\ (let w' := world_of (runNormalize j c w) in
        normalizeQueue w' = normalizeQueue w
        /\ (fitScoreQueue w' = fitScoreQueue w \/ fitScoreQueue w' = fitScoreQueue w ++ [j])
        /\ materialsQueue w' = materialsQueue w
        /\ complianceQueue w' = complianceQueue w)
    /\ (let w' := world_of (runFitScore ToNumber_text j c w) in
        normalizeQueue w' = normalizeQueue w
        /\ fitScoreQueue w' = fitScoreQueue w
        /\ (materialsQueue w' = materialsQueue w \/ materialsQueue w' = materialsQueue w ++ [j])
        /\ complianceQueue w' = complianceQueue w)
    /\ (let w' := world_of (runMaterials j baseHash c w) in
        normalizeQueue w' = normalizeQueue w
        /\ fitScoreQueue w' = fitScoreQueue w
        /\ materialsQueue w' = materialsQueue w
        /\ (complianceQueue w' = complianceQueue w
            \/ exists payload, complianceQueue w' = complianceQueue w ++ [payload]
                               /\ jobId payload = j))
    /\ queues (world_of (runCompliance job today c w)) = queues w.
Proof.
  intros T fetch j baseHash job today c w. split; [|split; [|split; [|split]]].
  - destruct (runScout_extends fetch w)
      as (rows & _ & Hq & _ & _ & _ & _ & _ & Hf & Hm & Hc).
    cbv zeta. repeat split; eauto.
  - cbv zeta.
    destruct (runNormalize_cases j c w)
      as [[_ H] | [[_ H] | (p & n & Hrow & Hdesc & Hparse & Hnull)]];
      [rewrite H | rewrite H
       | rewrite (runNormalize_applied _ _ _ _ _ Hrow Hdesc Hparse Hnull)];
      cbn; auto.
  - cbv zeta.
    destruct (runFitScore_cases T j c w)
      as [[_ H] | [[_ H] | (p & r & s & Hrow & Hdesc & Hparse & Hnull & Hs)]];
      [rewrite H | rewrite H
       | rewrite (runFitScore_scored _ _ _ _ _ _ _ Hrow Hdesc Hparse Hnull Hs); cbv zeta;
         destruct (num_geb s FIT_THRESHOLD)];
      cbn; auto.
  - cbv zeta.
    destruct (runMaterials_cases j baseHash c w)
      as [[_ H] | [[_ H] | (p & m & Hrow & Hdesc & Hparse & Hnull)]];
      [rewrite H | rewrite H
       | rewrite (runMaterials_drafted _ baseHash _ _ _ _ Hrow Hdesc Hparse Hnull)];
      cbn; auto.
    repeat split. right. eexists. split; reflexivity.
  - destruct (runCompliance_cases job today c w) as [H | (r & ok & Hd & Hp & Hok)].
    + rewrite H. reflexivity.
    + rewrite (runCompliance_decided _ _ _ _ _ _ Hd Hp Hok). destruct ok; reflexivity.
Qed.

(** X4. On a stored posting, a run that returns has handed the posting on:
    Normalize has added one FitScore task, whatever the response held;
    FitScore has added one Materials task exactly when it left the posting
    Shortlisted, none when it left it Archived; Materials has left the
    posting Drafting and added one Compliance task that names the resume
    version this very run inserted. *)
Theorem returned_run_hands_on :
  forall (ToNumber_text : json -> outcome jsnum) (j : nat) (baseHash : string)
         (c : completion) (w : world),
    posting_by_id j w <> None ->
    (let r := runNormalize j c w in
     result_of r = Returned tt -> fitScoreQueue (world_of r) = fitScoreQueue w ++ [j])
    /\ (let r := runFitScore ToNumber_text j c w in
        result_of r = Returned tt ->
        (option_map Posting.status (posting_by_id j (world_of r)) = Some Shortlisted
         /\ materialsQueue (world_of r) = materialsQueue w ++ [j])
        \/ (option_map Posting.status (posting_by_id j (world_of r)) = Some Archived
            /\ materialsQueue (world_of r) = materialsQueue w))
    /\ (let r := runMaterials j baseHash c w in
        result_of r = Returned tt ->
        exists payload version,
          complianceQueue (world_of r) = complianceQueue w ++ [payload]
          /\ jobId payload = j
          /\ resume_versions (world_of r) = resume_versions w ++ [version]
          /\ resumeVersionId payload = Some (ResumeVersion.id version)
          /\ ~ In (ResumeVersion.id version) (map ResumeVersion.id (resume_versions w))
          /\ option_map Posting.status (posting_by_id j (world_of r)) = Some Drafting).
Proof.
  intros T j baseHash c w Hstored. split; [|split]; cbv zeta.
  - destruct (runNormalize_cases j c w)
      as [[Hnone _] | [[_ H] | (p & n & Hrow & Hdesc & Hparse & Hnull)]].
    + contradiction.
    + rewrite H. discriminate.
    + rewrite (runNormalize_applied _ _ _ _ _ Hrow Hdesc Hparse Hnull). reflexivity.
  - destruct (runFitScore_cases T j c w)
      as [[Hnone _] | [[_ H] | (p & r & s & Hrow & Hdesc & Hparse & Hnull & Hs)]].
    + contradiction.
    + rewrite H. discriminate.
    + intros _.
      rewrite (runFitScore_row T _ _ _ _ _ _ Hrow Hdesc Hparse Hnull Hs).
      rewrite (runFitScore_scored _ _ _ _ _ _ _ Hrow Hdesc Hparse Hnull Hs). cbv zeta.
      unfold status_for. destruct (num_geb s FIT_THRESHOLD); [left|right]; split; reflexivity.
  - destruct (runMaterials_cases j baseHash c w)
      as [[Hnone _] | [[_ H] | (p & m & Hrow & Hdesc & Hparse & Hnull)]].
    + contradiction.
    + rewrite H. discriminate.
    + intros _.
      destruct (runMaterials_row j baseHash c w p m Hrow Hdesc Hparse Hnull) as [notes Hp'].
      rewrite Hp'.
      rewrite (runMaterials_drafted _ baseHash _ _ _ _ Hrow Hdesc Hparse Hnull). cbv zeta.
      do 2 eexists. repeat split. apply fresh_id_new.
Qed.

Lemma returned_run_hands_on_witness :
  let c := Parses (JObj [("fitScore", JNum (num 72))]) in
  (let r := runNormalize 1 c sample_world in
   fitScoreQueue (world_of r) = fitScoreQueue sample_world ++ [1%nat])
  /\ (let r := runFitScore no_text 1 c sample_world in
      (option_map Posting.status (posting_by_id 1 (world_of r)) = Some Shortlisted
       /\ materialsQueue (world_of r) = materialsQueue sample_world ++ [1%nat])
      \/ (option_map Posting.status (posting_by_id 1 (world_of r)) = Some Archived
          /\ materialsQueue (world_of r) = materialsQueue sample_world))
  /\ (let r := runMaterials 1 "0123456789abcdef" c sample_world in
      exists payload version,
        complianceQueue (world_of r) = complianceQueue sample_world ++ [payload]
        /\ jobId payload = 1%nat
        /\ resume_versions (world_of r) = resume_versions sample_world ++ [version]
        /\ resumeVersionId payload = Some (ResumeVersion.id version)
        /\ ~ In (ResumeVersion.id version)
                (map ResumeVersion.id (resume_versions sample_world))
        /\ option_map Posting.status (posting_by_id 1 (world_of r)) = Some Drafting).
Proof.
  intros c.
  destruct (returned_run_hands_on no_text 1 "0123456789abcdef" c sample_world)
    as (Hn & Hf & Hm); [discriminate|].
  split; [apply Hn; reflexivity|]. split; [apply Hf; reflexivity | apply Hm; reflexivity].
Defined.

(** ** Rows and columns written *)

Lemma Forall2_update (R : Posting.row -> Posting.row -> Prop) j f l :
  (forall p, R p p) ->
  (forall p, Posting.id p = j -> R p (f p)) ->
  Forall2 R l (map (update_where j f) l).
Proof.
  intros Hsame Hown. apply Forall2_map_same. intros p. unfold update_where, has_id.
  destruct (Nat.eqb_spec (Posting.id p) j); auto.
Qed.

Lemma Forall2_same (R : Posting.row -> Posting.row -> Prop) l :
  (forall p, R p p) -> Forall2 R l l.
Proof. intros H. induction l; constructor; auto. Qed.

Lemma same_origin_refl p : same_origin p p.
Proof. repeat split. Qed.

Lemma own_row_only_refl j p : own_row_only j p p.
Proof. split; [apply same_origin_refl | reflexivity]. Qed.

Lemma own_row_only_set j f p :
  Posting.id p = j -> same_origin p (f p) -> own_row_only j p (f p).
Proof. intros Hid Hs. split; [exact Hs | congruence]. Qed.

(** X5. Whatever it is given and however it ends, a run of Normalize,
    FitScore, Materials or Compliance keeps every row of [job_postings] in
    its place, rewrites none but the rows of its own posting, and never
    touches the columns of the INSERT (id, source, source id, company,
    description, apply URL, date).  Beyond that, Normalize keeps status,
    score, reasoning, risks and notes; FitScore writes only score, reasoning,
    risks and status; Materials only status and notes; Compliance only the
    status. *)
Theorem workers_write_their_own_columns :
  forall (ToNumber_text : json -> outcome jsnum) (j : nat) (baseHash : string)
         (job : CompliancePayload) (today : Z) (c : completion) (w : world),
    Forall2 (fun old new =>
               own_row_only j old new
               /\ Posting.status new = Posting.status old
               /\ Posting.fit_score new = Posting.fit_score old
               /\ Posting.fit_reasoning new = Posting.fit_reasoning old
               /\ Posting.risks new = Posting.risks old
               /\ Posting.notes new = Posting.notes old)
            (job_postings w) (job_postings (world_of (runNormalize j c w)))
    /\ Forall2 (fun old new =>
                  own_row_only j old new
                  /\ new = set_fit (Posting.fit_score new) (Posting.fit_reasoning new)
                                   (Posting.risks new) (Posting.status new) old)
               (job_postings w) (job_postings (world_of (runFitScore ToNumber_text j c w)))
    /\ Forall2 (fun old new =>
                  own_row_only j old new
                  /\ new = set_notes (Posting.notes new) (set_status (Posting.status new) old))
               (job_postings w) (job_postings (world_of (runMaterials j baseHash c w)))
    /\ Forall2 (fun old new =>
                  own_row_only (jobId job) old new
                  /\ new = set_status (Posting.status new) old)
               (job_postings w) (job_postings (world_of (runCompliance job today c w))).
Proof.
  intros T j baseHash job today c w.
  assert (Hkeep : forall p : Posting.row,
             p = set_fit (Posting.fit_score p) (Posting.fit_reasoning p) (Posting.risks p)
                   (Posting.status p) p
             /\ p = set_notes (Posting.notes p) (set_status (Posting.status p) p)
             /\ p = set_status (Posting.status p) p)
    by (intros []; repeat split).
  split; [|split; [|split]].
  - destruct (runNormalize_cases j c w)
      as [[_ H] | [[_ H] | (p & n & Hrow & Hdesc & Hparse & Hnull)]];
      [rewrite H | rewrite H
       | rewrite (runNormalize_applied _ _ _ _ _ Hrow Hdesc Hparse Hnull)];
      cbn [world_of fst snd add_fitScore modify job_postings with_job_postings];
      try (apply Forall2_same; intros; split; [apply own_row_only_refl | repeat split]).
    apply Forall2_update; intros q; [split; [apply own_row_only_refl | repeat split]|].
    intros Hid. split; [apply own_row_only_set; [exact Hid | repeat split] | repeat split].
  - destruct (runFitScore_cases T j c w)
      as [[_ H] | [[_ H] | (p & r & s & Hrow & Hdesc & Hparse & Hnull & Hs)]];
      [rewrite H | rewrite H
       | rewrite (runFitScore_scored _ _ _ _ _ _ _ Hrow Hdesc Hparse Hnull Hs); cbv zeta;
         destruct (num_geb s FIT_THRESHOLD)];
      cbn [world_of fst snd add_materials modify job_postings with_job_postings];
      try (apply Forall2_same; intros q; split; [apply own_row_only_refl | apply Hkeep]);
      (apply Forall2_update; intros q; [split; [apply own_row_only_refl | apply Hkeep]|];
       intros Hid; split; [apply own_row_only_set; [exact Hid | repeat split] | reflexivity]).
  - destruct (runMaterials_cases j baseHash c w)
      as [[_ H] | [[_ H] | (p & m & Hrow & Hdesc & Hparse & Hnull)]];
      [rewrite H | rewrite H
       | rewrite (runMaterials_drafted _ baseHash _ _ _ _ Hrow Hdesc Hparse Hnull); cbv zeta];
      cbn [world_of fst snd add_compliance modify job_postings with_job_postings
           with_applications with_resume_versions].
    + apply Forall2_same. intros q. split; [apply own_row_only_refl | apply Hkeep].
    + apply Forall2_update; intros q; [split; [apply own_row_only_refl | apply Hkeep]|].
      intros Hid. split; [apply own_row_only_set; [exact Hid | repeat split] | reflexivity].
    + rewrite map_map. apply Forall2_map_same. intros q.
      unfold update_where, has_id. destruct (Nat.eqb_spec (Posting.id q) j) as [Hid|Hid].
      * cbn [set_status Posting.id]. rewrite (proj2 (Nat.eqb_eq _ _) Hid).
        split; [split; [repeat split | congruence] | reflexivity].
      * rewrite (proj2 (Nat.eqb_neq _ _) Hid).
        split; [apply own_row_only_refl | apply Hkeep].
  - destruct (runCompliance_cases job today c w) as [H | (r & ok & Hd & Hp & Hok)];
      [rewrite H | rewrite (runCompliance_decided _ _ _ _ _ _ Hd Hp Hok); destruct ok];
      cbn [world_of fst snd job_postings with_job_postings with_followups];
      try (apply Forall2_same; intros q; split; [apply own_row_only_refl | apply Hkeep]);
      (apply Forall2_update; intros q; [split; [apply own_row_only_refl | apply Hkeep]|];
       intros Hid; split; [apply own_row_only_set; [exact Hid | repeat split] | reflexivity]).
Qed.

(** ** What every delivery keeps *)

Lemma resolves_iff j w :
  posting_by_id j w <> None <-> In j (map Posting.id (job_postings w)).
Proof.
  unfold posting_by_id. induction (job_postings w) as [|p t IH]; simpl; [tauto|].
  unfold has_id at 1. destruct (Nat.eqb_spec (Posting.id p) j) as [Hid|Hid]; simpl.
  - split; [auto | discriminate].
  - rewrite IH. split; [auto | intros [H|H]; [contradiction | exact H]].
Qed.

Lemma same_origin_lists l l' :
  Forall2 same_origin l l' ->
  map Posting.id l' = map Posting.id l
  /\ map key_of l' = map key_of l
  /\ (described l -> described l').
Proof.
  induction 1 as [|p p' l l' Hp _ IH]; [repeat split; auto|].
  destruct IH as (Hid & Hkey & Hdesc).
  destruct Hp as (H1 & H2 & H3 & _ & H5 & _).
  simpl. unfold key_of at 1 3. rewrite H1, H2, H3, Hid, Hkey.
  split; [reflexivity|]. split; [reflexivity|].
  intros Hd. inversion Hd; subst.
  constructor; [rewrite H5; assumption | apply Hdesc; assumption].
Qed.

Lemma followups_insert_unique j number day t :
  unique_followups t -> unique_followups (followups_insert j number day t).
Proof.
  unfold unique_followups, followups_insert. intros Hnd.
  destruct (existsb (same_followup_key j number) t) eqn:E; [exact Hnd|].
  rewrite map_app. simpl. apply NoDup_app; [exact Hnd | repeat constructor; simpl; tauto|].
  intros k Hin [<-|[]]. apply in_map_iff in Hin. destruct Hin as (f & Hk & Hf).
  assert (existsb (same_followup_key j number) t = true) as Hyes.
  { apply existsb_exists. exists f. split; [exact Hf|].
    unfold followup_key in Hk. injection Hk as Hj Hn. unfold same_followup_key.
    rewrite Hj, Hn, Nat.eqb_refl, Z.eqb_refl. reflexivity. }
  congruence.
Qed.

(** What the invariant needs of a worker that rewrites rows in place. *)
Lemma rewriting_step_keeps w w' j :
  Forall2 same_origin (job_postings w) (job_postings w') ->
  (followups w' = followups w
   \/ exists n1 d1 n2 d2,
        followups w' = followups_insert j n2 d2 (followups_insert j n1 d1 (followups w))) ->
  (queued_ids w' = queued_ids w
   \/ exists a b, queued_ids w = a ++ b /\ queued_ids w' = a ++ j :: b
                  /\ posting_by_id j w <> None) ->
  pipeline_ok w -> pipeline_ok w'.
Proof.
  intros Hrows Hf Hq (Hkeys & Hfu & Hdesc & Hres).
  destruct (same_origin_lists _ _ Hrows) as (Hid & Hkey & Hd).
  assert (Hmono : forall i, posting_by_id i w <> None -> posting_by_id i w' <> None)
    by (intros i; rewrite !resolves_iff, Hid; auto).
  repeat split.
  - unfold unique_keys. rewrite Hkey. exact Hkeys.
  - destruct Hf as [-> | (n1 & d1 & n2 & d2 & ->)]; [exact Hfu|].
    apply followups_insert_unique, followups_insert_unique, Hfu.
  - apply Hd, Hdesc.
  - rewrite Forall_forall in *.
    destruct Hq as [-> | (a & b & Hw & -> & Hj)]; intros i Hi.
    + apply Hmono, Hres, Hi.
    + apply in_app_or in Hi. destruct Hi as [Hi | [<- | Hi]].
      * apply Hmono, Hres. rewrite Hw. apply in_or_app. auto.
      * apply Hmono, Hj.
      * apply Hmono, Hres. rewrite Hw. apply in_or_app. auto.
Qed.

Lemma origin_of_update j f l :
  (forall p, same_origin p (f p)) -> Forall2 same_origin l (map (update_where j f) l).
Proof.
  intros H. apply Forall2_map_same. intros p. unfold update_where.
  destruct (has_id j p); [apply H | apply same_origin_refl].
Qed.

Lemma origin_of_same l : Forall2 same_origin l l.
Proof. apply Forall2_same, same_origin_refl. Qed.

Lemma runNormalize_keeps j c w : pipeline_ok w -> pipeline_ok (world_of (runNormalize j c w)).
Proof.
  destruct (runNormalize_cases j c w)
    as [[_ H] | [[_ H] | (p & n & Hrow & Hdesc & Hparse & Hnull)]];
    [rewrite H; auto | rewrite H; auto|].
  rewrite (runNormalize_applied _ _ _ _ _ Hrow Hdesc Hparse Hnull).
  apply (rewriting_step_keeps _ _ j).
  - apply origin_of_update. intros q. repeat split.
  - left. reflexivity.
  - right. exists (normalizeQueue w ++ fitScoreQueue w),
      (materialsQueue w ++ map jobId (complianceQueue w)).
    unfold queued_ids. cbn. rewrite <- !app_assoc. repeat split. congruence.
Qed.

Lemma runFitScore_keeps T j c w :
  pipeline_ok w -> pipeline_ok (world_of (runFitScore T j c w)).
Proof.
  destruct (runFitScore_cases T j c w)
    as [[_ H] | [[_ H] | (p & r & s & Hrow & Hdesc & Hparse & Hnull & Hs)]];
    [rewrite H; auto | rewrite H; auto|].
  rewrite (runFitScore_scored _ _ _ _ _ _ _ Hrow Hdesc Hparse Hnull Hs). cbv zeta.
  destruct (num_geb s FIT_THRESHOLD); apply (rewriting_step_keeps _ _ j);
    try (apply origin_of_update; intros q; repeat split); try (left; reflexivity).
  right. exists (normalizeQueue w ++ fitScoreQueue w ++ materialsQueue w),
    (map jobId (complianceQueue w)).
  unfold queued_ids. cbn. rewrite <- !app_assoc. repeat split. congruence.
Qed.

Lemma runMaterials_keeps j baseHash c w :
  pipeline_ok w -> pipeline_ok (world_of (runMaterials j baseHash c w)).
Proof.
  destruct (runMaterials_cases j baseHash c w)
    as [[_ H] | [[_ H] | (p & m & Hrow & Hdesc & Hparse & Hnull)]];
    [rewrite H; auto | rewrite H|].
  - apply (rewriting_step_keeps _ _ j);
      [apply origin_of_update; intros q; repeat split | left; reflexivity | left; reflexivity].
  - rewrite (runMaterials_drafted _ baseHash _ _ _ _ Hrow Hdesc Hparse Hnull). cbv zeta.
    apply (rewriting_step_keeps _ _ j).
    + cbn [world_of fst snd add_compliance modify job_postings with_job_postings
           with_applications with_resume_versions].
      rewrite map_map. apply Forall2_map_same. intros q. unfold update_where.
      destruct (has_id j q) eqn:E.
      * change (has_id j (set_status Drafting q)) with (has_id j q). rewrite E.
        repeat split.
      * rewrite E. apply same_origin_refl.
    + left. reflexivity.
    + right. exists (normalizeQueue w ++ fitScoreQueue w ++ materialsQueue w
                     ++ map jobId (complianceQueue w)), [].
      unfold queued_ids. cbn. rewrite map_app, app_nil_r, <- !app_assoc. cbn.
      repeat split. congruence.
Qed.

Lemma runCompliance_keeps job today c w :
  pipeline_ok w -> pipeline_ok (world_of (runCompliance job today c w)).
Proof.
  destruct (runCompliance_cases job today c w) as [H | (r & ok & Hd & Hp & Hok)];
    [rewrite H; auto|].
  rewrite (runCompliance_decided _ _ _ _ _ _ Hd Hp Hok).
  destruct ok; apply (rewriting_step_keeps _ _ (jobId job));
    try (apply origin_of_update; intros q; repeat split); try (left; reflexivity).
  right. do 4 eexists. reflexivity.
Qed.

(** The row a new discovery stores, column by column. *)
Lemma scout_posting_stores target d n w fields :
  extractStructuredFields (extraction d) = Returned fields ->
  insert_fails d = false ->
  stored_under (posting_key (gh d)) w = [] ->
  let i := fresh_id (map Posting.id (job_postings w)) in
  let row :=
    Posting.mk i (fst (posting_key (gh d))) (snd (posting_key (gh d)))
      (JStr (Target.company target)) (JStr (GreenhouseJob.title (gh d)))
      (ExtractedFields.level fields) (opt_param (GreenhouseJob.location (gh d)))
      (ExtractedFields.remoteMode fields) (ExtractedFields.visaSponsorship fields)
      (JStr (GreenhouseJob.content (gh d))) (ExtractedFields.structured fields)
      (JStr (GreenhouseJob.absolute_url (gh d)))
      (opt_param (GreenhouseJob.updated_at (gh d)))
      JNull JNull JNull Discovered JNull in
  scout_posting target d n w
  = (Returned (S n),
     mkWorld (job_postings w ++ [row]) (followups w) (resume_versions w) (applications w)
             (normalizeQueue w ++ [i]) (fitScoreQueue w) (materialsQueue w)
             (complianceQueue w),
     [(LInfo, "[scout] new job — enqueued normalize")]).
Proof.
  intros Hex Hins Hnone. apply stored_iff_key in Hnone.
  unfold scout_posting. run_worker. rewrite Hex, Hins. unfold insert_job_posting.
  rewrite Hnone. reflexivity.
Qed.

Lemma posting_by_id_fresh w row :
  Posting.id row = fresh_id (map Posting.id (job_postings w)) ->
  filter (has_id (Posting.id row)) (job_postings w ++ [row]) = [row].
Proof.
  intros Hid. rewrite filter_app. simpl. unfold has_id at 2. rewrite Nat.eqb_refl.
  replace (filter (has_id (Posting.id row)) (job_postings w)) with (@nil Posting.row);
    [reflexivity|].
  symmetry. destruct (filter _ (job_postings w)) as [|q rest] eqn:E; [reflexivity|].
  exfalso. assert (Hin : In q (filter (has_id (Posting.id row)) (job_postings w)))
    by (rewrite E; left; reflexivity).
  apply filter_In in Hin. destruct Hin as [Hin Hq]. apply Nat.eqb_eq in Hq.
  apply (fresh_id_new (map Posting.id (job_postings w))).
  rewrite <- Hid, <- Hq. apply in_map, Hin.
Qed.

Lemma scout_posting_keeps target d n w :
  pipeline_ok w -> pipeline_ok (world_of (scout_posting target d n w)).
Proof.
  intros Hok.
  destruct (posting_throws_dec d) as [Hthrows | (fields & Hex & Hins)].
  - rewrite (scout_posting_thrown _ _ _ _ Hthrows). exact Hok.
  - destruct (stored_under (posting_key (gh d)) w) as [|q rest] eqn:Hst.
    + rewrite (scout_posting_stores target d n w fields Hex Hins Hst). cbv zeta.
      destruct Hok as (Hkeys & Hfu & Hdesc & Hres).
      cbn [world_of fst snd]. repeat split; cbn.
      * apply unique_keys_snoc; [exact Hkeys|].
        apply key_absent. exact (proj1 (stored_iff_key (posting_key (gh d)) w) Hst).
      * exact Hfu.
      * apply Forall_app. split; [exact Hdesc | repeat constructor].
      * assert (Hmono : forall i, posting_by_id i w <> None ->
                  In i (map Posting.id (job_postings w ++
                    [Posting.mk (fresh_id (map Posting.id (job_postings w)))
                       (fst (posting_key (gh d))) (snd (posting_key (gh d)))
                       (JStr (Target.company target)) (JStr (GreenhouseJob.title (gh d)))
                       (ExtractedFields.level fields)
                       (opt_param (GreenhouseJob.location (gh d)))
                       (ExtractedFields.remoteMode fields)
                       (ExtractedFields.visaSponsorship fields)
                       (JStr (GreenhouseJob.content (gh d)))
                       (ExtractedFields.structured fields)
                       (JStr (GreenhouseJob.absolute_url (gh d)))
                       (opt_param (GreenhouseJob.updated_at (gh d)))
                       JNull JNull JNull Discovered JNull])))
          by (intros i Hi; rewrite map_app; apply in_or_app; left; apply resolves_iff, Hi).
        rewrite Forall_forall in *. intros i Hi. apply resolves_iff. cbn.
        unfold queued_ids in Hi, Hres. cbn in Hi.
        rewrite <- app_assoc in Hi. apply in_app_or in Hi. destruct Hi as [Hi | Hi].
        -- apply Hmono, Hres. apply in_or_app. auto.
        -- cbn in Hi. destruct Hi as [<- | Hi].
           ++ rewrite map_app. apply in_or_app. right. left. reflexivity.
           ++ apply Hmono, Hres. apply in_or_app. auto.
    + assert (Hsome : stored_under (posting_key (gh d)) w <> []) by (rewrite Hst; discriminate).
      rewrite (proj1 (scout_posting_noop target d n w Hsome)). exact Hok.
Qed.

Lemma scout_postings_keep target relevant :
  forall n w, pipeline_ok w -> pipeline_ok (world_of (scout_postings target relevant n w)).
Proof.
  induction relevant as [|d rest IH]; intros n w Hok; cbn [scout_postings]; [exact Hok|].
  destruct (scout_posting_extends target d n w) as (n1 & w1 & l1 & Hstep & _).
  pose proof (scout_posting_keeps target d n w Hok) as Hok1. rewrite Hstep in Hok1.
  rewrite (bind_returns _ _ _ _ _ _ Hstep). apply (IH n1 w1 Hok1).
Qed.

Lemma scout_target_keeps fetch target n w :
  pipeline_ok w -> pipeline_ok (world_of (scout_target fetch target n w)).
Proof.
  intros Hok.
  destruct (fetch_cases (fetch (Target.slug target)) w) as [([jobs|] & l & Hf) | Hf].
  - rewrite (scout_target_on_feed _ _ _ _ _ _ Hf).
    apply (scout_postings_keep target (filter (fun d => is_relevant (gh d)) jobs) n w Hok).
  - rewrite (scout_target_no_feed _ _ _ _ _ Hf). exact Hok.
  - rewrite (scout_target_caught _ _ _ _ Hf). exact Hok.
Qed.

Lemma scout_targets_keep fetch targets :
  forall n w, pipeline_ok w -> pipeline_ok (world_of (scout_targets fetch targets n w)).
Proof.
  induction targets as [|t rest IH]; intros n w Hok; cbn [scout_targets]; [exact Hok|].
  destruct (scout_target_extends fetch t n w) as ([n1|] & w1 & l1 & Hstep & _);
    pose proof (scout_target_keeps fetch t n w Hok) as Hok1; rewrite Hstep in Hok1.
  - rewrite (bind_returns _ _ _ _ _ _ Hstep). apply (IH n1 w1 Hok1).
  - rewrite (bind_throws _ _ _ _ _ Hstep). exact Hok1.
Qed.

Lemma runScout_keeps fetch w : pipeline_ok w -> pipeline_ok (world_of (runScout fetch w)).
Proof.
  intros Hok. rewrite runScout_world. apply scout_targets_keep, Hok.
Qed.

(** X6. Whatever tasks are delivered, in whatever order, however often and
    with whatever answers from outside, handled one after another from an
    empty store they leave at most one posting per (source, source id), at
    most one follow-up per (posting, number), a string in every description,
    and in every queue only ids of postings that are stored.  The same holds
    from any store of which it holds. *)
Theorem deliveries_keep_the_store_sound :
  forall (ToNumber_text : json -> outcome jsnum) (deliveries : list task),
    pipeline_ok (process_all ToNumber_text deliveries empty_world)
    /\ forall w, pipeline_ok w -> pipeline_ok (process_all ToNumber_text deliveries w).
Proof.
  intros T deliveries.
  assert (Hall : forall w, pipeline_ok w -> pipeline_ok (process_all T deliveries w)).
  { induction deliveries as [|t rest IH]; intros w Hok; cbn [process_all]; [exact Hok|].
    apply IH. destruct t; cbn [process].
    - apply runScout_keeps, Hok.
    - apply runNormalize_keeps, Hok.
    - apply runFitScore_keeps, Hok.
    - apply runMaterials_keeps, Hok.
    - apply runCompliance_keeps, Hok. }
  split; [|exact Hall]. apply Hall.
  repeat split; try constructor.
Qed.

Lemma deliveries_keep_the_store_sound_witness :
  let deliveries := [ScoutTask sample_fetch; NormalizeTask 1 NoContent;
                     NormalizeTask 1 NoContent; ComplianceTask
                       (mkCompliancePayload 9 None None None) 0
                       (Parses (JObj [("pass", JBool true)]))] in
  pipeline_ok (process_all no_text deliveries empty_world)
  /\ pipeline_ok (process_all no_text deliveries sample_world).
Proof.
  intros deliveries.
  destruct (deliveries_keep_the_store_sound no_text deliveries) as [Hempty Hany].
  split; [exact Hempty|]. apply Hany.
  repeat split; repeat constructor; simpl; try tauto; discriminate.
Defined.

(** ** Scout, run by run *)

(** X7. However a run of Scout ends, it rewrites and removes nothing: the
    postings table after the run is the table before it followed by the rows
    the run appended, all of them Discovered, and free of two rows under one
    (source, source id) if it was; every task the run added to the Normalize
    queue carries the id of a row the run appended; every other table and
    queue is as it was. *)
Theorem scout_only_appends :
  forall (fetch : string -> http_reply) (w : world),
    let w' := world_of (runScout fetch w) in
    exists (rows : list Posting.row) (ids : list nat),
      job_postings w' = job_postings w ++ rows
      /\ Forall (fun r => Posting.status r = Discovered) rows
      /\ (unique_keys (job_postings w) -> unique_keys (job_postings w'))
      /\ normalizeQueue w' = normalizeQueue w ++ ids
      /\ incl ids (map Posting.id rows)
      /\ followups w' = followups w
      /\ resume_versions w' = resume_versions w
      /\ applications w' = applications w
      /\ fitScoreQueue w' = fitScoreQueue w
      /\ materialsQueue w' = materialsQueue w
      /\ complianceQueue w' = complianceQueue w.
Proof.
  intros fetch w. cbv zeta.
  destruct (runScout_extends fetch w)
    as (rows & Hp & Hq & Hst & Hu & Hf & Hr & Ha & Hfq & Hm & Hc).
  exists rows, (map Posting.id rows). repeat split; auto using incl_refl.
Qed.

(** *** Where the rows come from *)

Lemma fetch_feed reply w jobs l :
  fetchGreenhouseJobs reply w = (Returned (Feed jobs), w, l) ->
  jobs = [] \/ reply = Response true (Body (Some jobs)).
Proof.
  destruct reply as [|[] [|[jobs'|]|]]; cbv [fetchGreenhouseJobs bind logger ret throw];
    intros [= <-]; auto.
Qed.

Lemma scout_posting_from targets fetch t jobs d n w row :
  In t targets ->
  fetch (Target.slug t) = Response true (Body (Some jobs)) ->
  In d jobs ->
  is_relevant (gh d) = true ->
  In row (job_postings (world_of (scout_posting t d n w))) ->
  In row (job_postings w) \/ taken_from targets fetch row.
Proof.
  intros Ht Hfeed Hd Hrel.
  destruct (posting_throws_dec d) as [Hthrows | (fields & Hex & Hins)].
  - rewrite (scout_posting_thrown _ _ _ _ Hthrows). auto.
  - destruct (stored_under (posting_key (gh d)) w) eqn:Hst.
    + rewrite (scout_posting_stores t d n w fields Hex Hins Hst).
      cbn [world_of fst snd job_postings]. intros Hin. apply in_app_or in Hin.
      destruct Hin as [Hold | [<- | []]]; [auto|].
      right. exists t, jobs, d. repeat split; auto.
    + assert (Hsome : stored_under (posting_key (gh d)) w <> [])
        by (rewrite Hst; discriminate).
      rewrite (proj1 (scout_posting_noop t d n w Hsome)). auto.
Qed.

Lemma scout_postings_from targets fetch t jobs relevant :
  In t targets ->
  fetch (Target.slug t) = Response true (Body (Some jobs)) ->
  (forall d, In d relevant -> In d jobs /\ is_relevant (gh d) = true) ->
  forall n w row,
    In row (job_postings (world_of (scout_postings t relevant n w))) ->
    In row (job_postings w) \/ taken_from targets fetch row.
Proof.
  intros Ht Hfeed. induction relevant as [|d rest IH]; intros Hall n w row;
    cbn [scout_postings]; [auto|].
  destruct (scout_posting_extends t d n w) as (n1 & w1 & l1 & Hstep & _).
  rewrite (bind_returns _ _ _ _ _ _ Hstep). cbn [world_of fst snd]. intros Hin.
  destruct (IH (fun d' Hd' => Hall d' (or_intror Hd')) n1 w1 row Hin) as [Hmid | Hnew];
    [|auto].
  destruct (Hall d (or_introl eq_refl)) as [Hd Hrel].
  apply (scout_posting_from targets fetch t jobs d n w row Ht Hfeed Hd Hrel).
  rewrite Hstep. exact Hmid.
Qed.

Lemma scout_target_from targets fetch t n w row :
  In t targets ->
  In row (job_postings (world_of (scout_target fetch t n w))) ->
  In row (job_postings w) \/ taken_from targets fetch row.
Proof.
  intros Ht.
  destruct (fetch_cases (fetch (Target.slug t)) w) as [([jobs|] & l & Hf) | Hf].
  - rewrite (scout_target_on_feed _ _ _ _ _ _ Hf). cbn [world_of fst snd].
    destruct (fetch_feed _ _ _ _ Hf) as [-> | Hfeed]; [cbn; auto|].
    apply (scout_postings_from targets fetch t jobs _ Ht Hfeed).
    intros d Hd. apply filter_In in Hd. exact Hd.
  - rewrite (scout_target_no_feed _ _ _ _ _ Hf). auto.
  - rewrite (scout_target_caught _ _ _ _ Hf). auto.
Qed.

Lemma scout_targets_from targets fetch todo :
  incl todo targets ->
  forall n w row,
    In row (job_postings (world_of (scout_targets fetch todo n w))) ->
    In row (job_postings w) \/ taken_from targets fetch row.
Proof.
  induction todo as [|t rest IH]; intros Hincl n w row; cbn [scout_targets]; [auto|].
  assert (Ht : In t targets) by (apply Hincl; left; reflexivity).
  assert (Hrest : incl rest targets) by (intros x Hx; apply Hincl; right; exact Hx).
  destruct (scout_target_extends fetch t n w) as ([n1|] & w1 & l1 & Hstep & _).
  - rewrite (bind_returns _ _ _ _ _ _ Hstep). cbn [world_of fst snd]. intros Hin.
    destruct (IH Hrest n1 w1 row Hin) as [Hmid | Hnew]; [|auto].
    apply (scout_target_from targets fetch t n w row Ht). rewrite Hstep. exact Hmid.
  - rewrite (bind_throws _ _ _ _ _ Hstep). cbn [world_of fst snd]. intros Hin.
    apply (scout_target_from targets fetch t n w row Ht). rewrite Hstep. exact Hin.
Qed.

(** X8. Only postings whose title passes the pre-filter reach the store.
    Every row in the table after a run of Scout was there before, or comes
    from a feed: a configured board answered with an array of postings, one
    of them has a title the pre-filter accepts, and the row holds that
    posting's key, title, description and URL and the board's company.  And a
    feed entry whose title the pre-filter refuses counts for nothing: the run
    ends as, and leaves the store and the queues as, the run on the feed
    without that entry, whatever its extraction or insert would have done. *)
Theorem irrelevant_postings_are_dropped :
  forall (fetch : string -> http_reply) (w : world),
    (forall row : Posting.row,
       In row (job_postings (world_of (runScout fetch w))) ->
       In row (job_postings w) \/ taken_from GREENHOUSE_TARGETS fetch row)
    /\ (forall (slug : string) (before after : list Discovery) (d : Discovery),
          fetch slug = Response true (Body (Some (before ++ d :: after))) ->
          is_relevant (gh d) = false ->
          same_effect (runScout fetch w)
                      (runScout (with_reply slug (Response true (Body (Some (before ++ after))))
                                   fetch) w)).
Proof.
  intros fetch w. split.
  - intros row. rewrite runScout_world.
    apply scout_targets_from, incl_refl.
  - intros slug before after d Hfeed Hirr. apply runScout_congr. intros t n w0.
    destruct (String.eqb (Target.slug t) slug) eqn:E.
    + apply String.eqb_eq in E. subst slug.
      eapply same_effect_trans; [apply (scout_target_fetched _ _ _ _ _ Hfeed)|].
      pose proof (scout_target_fetched
                    (with_reply (Target.slug t)
                       (Response true (Body (Some (before ++ after)))) fetch)
                    t _ n w0 (with_reply_same _ _ _)) as [H1 H2].
      rewrite !filter_app in *. cbn [filter] in *. rewrite Hirr in *.
      split; congruence.
    + rewrite (scout_target_same_reply fetch _ t n w0 (with_reply_other _ _ _ _ E)).
      apply same_effect_refl.
Qed.

Lemma irrelevant_postings_are_dropped_witness :
  let staff := mkDiscovery (GreenhouseJob.mk 4020 "Staff Engineer" None "<p>Lead.</p>"
                              "https://boards.greenhouse.io/stripe/4020" None)
                           Rejected true in
  let fetch := with_reply "stripe"
                 (Response true (Body (Some ([sample_discovery] ++ staff :: []))))
                 sample_fetch in
  taken_from GREENHOUSE_TARGETS fetch
    (Posting.mk 1 "greenhouse" "4012" (JStr "Stripe") (JStr "Software Engineering Intern")
       (JStr "intern") (JStr "Seattle, WA") (JStr "unknown") (JStr "unknown")
       (JStr "<p>Build payments.</p>") (JObj [("techStack", JArr [])])
       (JStr "https://boards.greenhouse.io/stripe/4012") (JStr "2026-10-01T00:00:00Z")
       JNull JNull JNull Discovered JNull)
  /\ same_effect (runScout fetch empty_world)
       (runScout (with_reply "stripe" (Response true (Body (Some ([sample_discovery] ++ []))))
                    fetch) empty_world).
Proof.
  intros staff fetch.
  destruct (irrelevant_postings_are_dropped fetch empty_world) as [Hfrom Hdrop].
  split.
  - destruct (Hfrom (Posting.mk 1 "greenhouse" "4012" (JStr "Stripe")
                       (JStr "Software Engineering Intern")
                       (JStr "intern") (JStr "Seattle, WA") (JStr "unknown") (JStr "unknown")
                       (JStr "<p>Build payments.</p>") (JObj [("techStack", JArr [])])
                       (JStr "https://boards.greenhouse.io/stripe/4012")
                       (JStr "2026-10-01T00:00:00Z")
                       JNull JNull JNull Discovered JNull)) as [[] | Hrow].
    + vm_compute. left. reflexivity.
    + exact Hrow.
  - apply (Hdrop "stripe" [sample_discovery] [] staff).
    + reflexivity.
    + vm_compute. reflexivity.
Defined.

(** X9. A board that answers with a status that is not OK, or with a body
    that has no [jobs], is taken as a board without postings: the run ends
    as, and leaves the store and the queues as, the run in which the board
    answers with an empty list; the first only adds a warning to the log. *)
Theorem unusable_answer_is_an_empty_board :
  forall (fetch : string -> http_reply) (w : world) (slug : string),
    (exists body, fetch slug = Response false body) \/ fetch slug = Response true (Body None) ->
    same_effect (runScout fetch w)
                (runScout (with_reply slug (Response true (Body (Some []))) fetch) w).
Proof.
  intros fetch w slug Hreply. apply runScout_congr. intros t n w0.
  destruct (String.eqb (Target.slug t) slug) eqn:E.
  - apply String.eqb_eq in E. subst slug. unfold scout_target.
    rewrite with_reply_same.
    destruct Hreply as [[body ->] | ->];
      cbv [fetchGreenhouseJobs try_catch bind ret logger]; cbn; split; reflexivity.
  - rewrite (scout_target_same_reply fetch _ t n w0 (with_reply_other _ _ _ _ E)).
    apply same_effect_refl.
Qed.

Lemma unusable_answer_is_an_empty_board_witness :
  let fetch := with_reply "stripe" (Response false BadBody) sample_fetch in
  same_effect (runScout fetch empty_world)
              (runScout (with_reply "stripe" (Response true (Body (Some []))) fetch)
                 empty_world).
Proof.
  intros fetch.
  apply (unusable_answer_is_an_empty_board fetch empty_world "stripe").
  left. exists BadBody. reflexivity.
Defined.

(** X10. The Normalize task that Scout adds for a new posting finds the row
    Scout has just stored: the id resolves to the one row under the
    posting's key, which holds the company of the board, the title, the
    location, the description and the URL of the feed entry, the extracted
    level, and the status Discovered; and a run of Normalize for that task
    returns as soon as its completion parses to a value that is not null. *)
Theorem scout_hands_its_row_to_normalize :
  forall (target : Target.t) (d : Discovery) (n : nat) (w : world)
         (fields : ExtractedFields.t) (c : completion) (response : json),
    extractStructuredFields (extraction d) = Returned fields ->
    insert_fails d = false ->
    stored_under (posting_key (gh d)) w = [] ->
    parse_completion c = Returned response ->
    response <> JNull ->
    let w1 := world_of (scout_posting target d n w) in
    exists (i : nat) (row : Posting.row),
      normalizeQueue w1 = normalizeQueue w ++ [i]
      /\ posting_by_id i w1 = Some row
      /\ stored_under (posting_key (gh d)) w1 = [row]
      /\ Posting.id row = i
      /\ Posting.company row = JStr (Target.company target)
      /\ Posting.title row = JStr (GreenhouseJob.title (gh d))
      /\ Posting.location row = opt_param (GreenhouseJob.location (gh d))
      /\ Posting.description_raw row = JStr (GreenhouseJob.content (gh d))
      /\ Posting.apply_url row = JStr (GreenhouseJob.absolute_url (gh d))
      /\ Posting.level row = ExtractedFields.level fields
      /\ Posting.status row = Discovered
      /\ Posting.fit_score row = JNull
      /\ result_of (runNormalize i c w1) = Returned tt
      /\ fitScoreQueue (world_of (runNormalize i c w1)) = fitScoreQueue w ++ [i].
Proof.
  intros target d n w fields c response Hex Hins Hnone Hparse Hnull w1.
  pose proof (scout_posting_stores target d n w fields Hex Hins Hnone) as Hrun.
  cbv zeta in Hrun. unfold w1. rewrite Hrun. cbn [world_of fst snd].
  match goal with
  | |- context [job_postings w ++ [?r]] => set (row := r)
  end.
  assert (Hrow : posting_by_id (Posting.id row)
                   (mkWorld (job_postings w ++ [row]) (followups w) (resume_versions w)
                      (applications w)
                      (normalizeQueue w ++ [Posting.id row]) (fitScoreQueue w)
                      (materialsQueue w) (complianceQueue w)) = Some row).
  { unfold posting_by_id. cbn [job_postings].
    rewrite (posting_by_id_fresh w row eq_refl). reflexivity. }
  exists (Posting.id row), row.
  pose proof (runNormalize_applied _ c _ row response Hrow eq_refl Hparse Hnull) as Hnorm.
  change (fresh_id (map Posting.id (job_postings w))) with (Posting.id row).
  rewrite Hnorm. repeat split; try assumption.
  unfold stored_under. cbn [job_postings]. rewrite filter_app.
  unfold stored_under in Hnone. rewrite Hnone. cbn [filter app].
  assert (same_posting_key (fst (posting_key (gh d))) (snd (posting_key (gh d))) row = true)
    as -> by (apply same_posting_key_spec; reflexivity).
  reflexivity.
Qed.

Lemma scout_hands_its_row_to_normalize_witness :
  let w1 := world_of (scout_posting sample_target sample_discovery 0 empty_world) in
  exists (i : nat) (row : Posting.row),
    normalizeQueue w1 = normalizeQueue empty_world ++ [i]
    /\ posting_by_id i w1 = Some row
    /\ stored_under (posting_key (gh sample_discovery)) w1 = [row]
    /\ Posting.id row = i
    /\ Posting.company row = JStr (Target.company sample_target)
    /\ Posting.title row = JStr (GreenhouseJob.title (gh sample_discovery))
    /\ Posting.location row = opt_param (GreenhouseJob.location (gh sample_discovery))
    /\ Posting.description_raw row = JStr (GreenhouseJob.content (gh sample_discovery))
    /\ Posting.apply_url row = JStr (GreenhouseJob.absolute_url (gh sample_discovery))
    /\ Posting.level row = JStr "intern"
    /\ Posting.status row = Discovered
    /\ Posting.fit_score row = JNull
    /\ result_of (runNormalize i NoContent w1) = Returned tt
    /\ fitScoreQueue (world_of (runNormalize i NoContent w1))
       = fitScoreQueue empty_world ++ [i].
Proof.
  apply (scout_hands_its_row_to_normalize sample_target sample_discovery 0 empty_world
           (ExtractedFields.mk (JStr "intern") (JStr "unknown") (JStr "unknown")
              (JObj [("techStack", JArr [])])) NoContent (JObj [])).
  - reflexivity.
  - reflexivity.
  - reflexivity.
  - reflexivity.
  - discriminate.
Defined.

(** ** The extraction *)

Lemma or_else_truthy v d : truthy (Some d) = true -> truthy (Some (or_else v d)) = true.
Proof.
  intros Hd. unfold or_else. destruct v as [x|]; [|exact Hd].
  destruct (truthy (Some x)) eqn:E; [exact E | exact Hd].
Qed.

Lemma or_else_cases v d :
  (truthy v = true /\ v = Some (or_else v d)) \/ (truthy v = false /\ or_else v d = d).
Proof.
  unfold or_else. destruct v as [x|]; [|right; split; reflexivity].
  destruct (truthy (Some x)); [left | right]; split; reflexivity.
Qed.

Lemma lookup_rest k props :
  lookup k (filter (fun kv => negb (existsb (String.eqb (fst kv))
                                      ["level"; "remoteMode"; "visaSponsorship"])) props)
  = if existsb (String.eqb k) ["level"; "remoteMode"; "visaSponsorship"] then None
    else lookup k props.
Proof.
  induction props as [|[k' v] props IH]; [destruct (existsb _ _); reflexivity|].
  cbn [filter fst lookup].
  destruct (String.eqb_spec k k') as [<-|Hne].
  - destruct (existsb (String.eqb k) _) eqn:E; cbn [negb].
    + exact IH.
    + cbn [lookup]. rewrite String.eqb_refl. reflexivity.
  - destruct (existsb (String.eqb k') _); cbn [negb]; [exact IH|].
    cbn [lookup]. rewrite (proj2 (String.eqb_neq k k') Hne). exact IH.
Qed.

(** X11. The extraction throws exactly when the completion does not parse or
    parses to [null].  Otherwise each of level, remote mode and visa
    sponsorship is a truthy value, never null, undefined or empty: the value
    of the response when that is truthy, and the text ["unknown"] when it is
    missing or falsy.  Of an object, [structured] keeps every other property
    and none of these three. *)
Theorem extracted_fields_are_never_empty :
  forall (c : completion),
    (extractStructuredFields c = Thrown <->
     parse_completion c = Thrown \/ parse_completion c = Returned JNull)
    /\ forall fields : ExtractedFields.t,
         extractStructuredFields c = Returned fields ->
         exists raw : json,
           parse_completion c = Returned raw
           /\ (forall (column : ExtractedFields.t -> json) (key : string),
                 In (column, key)
                    [(ExtractedFields.level, "level");
                     (ExtractedFields.remoteMode, "remoteMode");
                     (ExtractedFields.visaSponsorship, "visaSponsorship")] ->
                 truthy (Some (column fields)) = true
                 /\ ((truthy (get_prop key raw) = true
                      /\ get_prop key raw = Some (column fields))
                     \/ (truthy (get_prop key raw) = false
                         /\ column fields = JStr "unknown")))
           /\ (forall props, raw = JObj props ->
                 forall k,
                   get_prop k (ExtractedFields.structured fields)
                   = if existsb (String.eqb k) ["level"; "remoteMode"; "visaSponsorship"]
                     then None else get_prop k raw).
Proof.
  intros c. unfold extractStructuredFields. split.
  - destruct (parse_completion c) as [[]|]; split; intros H;
      try discriminate; try reflexivity; auto;
      destruct H as [H|H]; discriminate.
  - intros fields Hf.
    destruct (parse_completion c) as [raw|]; [|discriminate].
    exists raw. split; [reflexivity|].
    assert (Hfields : fields
                      = ExtractedFields.mk
                          (or_else (get_prop "level" raw) (JStr "unknown"))
                          (or_else (get_prop "remoteMode" raw) (JStr "unknown"))
                          (or_else (get_prop "visaSponsorship" raw) (JStr "unknown"))
                          (object_rest raw))
      by (destruct raw; try discriminate; injection Hf as <-; reflexivity).
    subst fields. split.
    + intros column key [[= <- <-] | [[= <- <-] | [[= <- <-] | []]]];
        cbn [ExtractedFields.level ExtractedFields.remoteMode
             ExtractedFields.visaSponsorship];
        (split; [apply or_else_truthy; reflexivity | apply or_else_cases]).
    + intros props -> k. cbn [ExtractedFields.structured object_rest get_prop].
      apply lookup_rest.
Qed.

Lemma extracted_fields_are_never_empty_witness :
  exists raw : json,
    parse_completion (Parses (JObj [("level", JStr ""); ("remoteMode", JStr "remote");
                                    ("techStack", JArr [])])) = Returned raw
    /\ (forall (column : ExtractedFields.t -> json) (key : string),
          In (column, key)
             [(ExtractedFields.level, "level");
              (ExtractedFields.remoteMode, "remoteMode");
              (ExtractedFields.visaSponsorship, "visaSponsorship")] ->
          truthy (Some (column
                          (ExtractedFields.mk (JStr "unknown") (JStr "remote") (JStr "unknown")
                             (JObj [("techStack", JArr [])])))) = true
          /\ ((truthy (get_prop key raw) = true
               /\ get_prop key raw
                  = Some (column
                            (ExtractedFields.mk (JStr "unknown") (JStr "remote")
                               (JStr "unknown") (JObj [("techStack", JArr [])]))))
              \/ (truthy (get_prop key raw) = false
                  /\ column
                       (ExtractedFields.mk (JStr "unknown") (JStr "remote") (JStr "unknown")
                          (JObj [("techStack", JArr [])]))
                     = JStr "unknown")))
    /\ (forall props, raw = JObj props ->
          forall k,
            get_prop k (ExtractedFields.structured
                          (ExtractedFields.mk (JStr "unknown") (JStr "remote")
                             (JStr "unknown") (JObj [("techStack", JArr [])])))
            = if existsb (String.eqb k) ["level"; "remoteMode"; "visaSponsorship"]
              then None else get_prop k raw).
Proof.
  apply (proj2 (extracted_fields_are_never_empty
                  (Parses (JObj [("level", JStr ""); ("remoteMode", JStr "remote");
                                 ("techStack", JArr [])])))).
  reflexivity.
Defined.

(** ** The title filter *)

Lemma prefix_iff p s : prefix p s = true <-> exists b, s = (p ++ b)%string.
Proof.
  rewrite prefix_correct. split.
  - revert s. induction p as [|c p IH]; intros s H.
    + exists s. reflexivity.
    + destruct s as [|a s]; [discriminate H|]. simpl in H.
      injection H as Hac Hsub. subst a.
      destruct (IH s Hsub) as [b ->]. exists b. reflexivity.
  - intros [b ->]. induction p as [|c p IH]; cbn.
    + destruct b; reflexivity.
    + f_equal. exact IH.
Qed.

Lemma index_cons pat c hay :
  index 0 pat (String c hay)
  = if prefix pat (String c hay) then Some 0%nat
    else match index 0 pat hay with
         | Some n => Some (S n)
         | None => None
         end.
Proof. reflexivity. Qed.

Lemma includes_iff pat hay :
  includes pat hay = true <-> exists a b, hay = (a ++ pat ++ b)%string.
Proof.
  unfold includes. split.
  - induction hay as [|c hay IH].
    + destruct pat; [|discriminate]. intros _. exists "", "". reflexivity.
    + rewrite index_cons. destruct (prefix pat (String c hay)) eqn:Hp.
      * intros _. apply prefix_iff in Hp. destruct Hp as [b Hb]. exists "", b. exact Hb.
      * destruct (index 0 pat hay) as [k|]; [|discriminate].
        intros _. destruct (IH eq_refl) as (a & b & ->).
        exists (String c a), b. reflexivity.
  - intros (a & b & ->). induction a as [|c a IH]; cbn [append].
    + assert (Hp : prefix pat (pat ++ b) = true) by (apply prefix_iff; eauto).
      destruct (pat ++ b)%string as [|x rest] eqn:E.
      * destruct pat; [reflexivity | discriminate].
      * rewrite index_cons, Hp. reflexivity.
    + rewrite index_cons. destruct (prefix pat (String c (a ++ pat ++ b))); [reflexivity|].
      destruct (index 0 pat (a ++ pat ++ b)); [reflexivity | discriminate].
Qed.

Lemma is_relevant_iff j :
  is_relevant j = true <->
  exists pat before after,
    In pat early_career
    /\ lower (GreenhouseJob.title j) = (before ++ pat ++ after)%string.
Proof.
  unfold is_relevant. rewrite existsb_exists. split.
  - intros (pat & Hin & Hinc). apply includes_iff in Hinc. destruct Hinc as (a & b & Heq).
    exists pat, a, b. split; assumption.
  - intros (pat & a & b & Hin & Heq). exists pat. split; [exact Hin|].
    apply includes_iff. eauto.
Qed.

Lemma append_assoc (a b c : string) : ((a ++ b) ++ c = a ++ b ++ c)%string.
Proof. induction a as [|x a IH]; cbn; [reflexivity | rewrite IH; reflexivity]. Qed.

Lemma separator_iff sep : In sep optional_sep <-> separator sep.
Proof.
  unfold separator. split.
  - intros Hin. cbn in Hin.
    repeat (destruct Hin as [<- | Hin];
            [first [left; reflexivity
                   | right; left; reflexivity
                   | right; right; eexists; split; [|reflexivity]; reflexivity]|]).
    destruct Hin.
  - intros [-> | [-> | (c & Hc & ->)]]; [left; reflexivity | right; left; reflexivity|].
    right. right. unfold is_space in Hc. apply existsb_exists in Hc.
    destruct Hc as (n & Hn & Hc). apply Nat.eqb_eq in Hc.
    apply in_map_iff. exists n. split; [|exact Hn].
    rewrite <- Hc, ascii_nat_embedding. reflexivity.
Qed.

Lemma early_career_iff pat :
  In pat early_career <->
  pat = "intern"
  \/ (exists sep, separator sep /\ pat = ("new" ++ sep ++ "grad")%string)
  \/ (exists sep, separator sep /\ pat = ("entry" ++ sep ++ "level")%string)
  \/ pat = "summer 202".
Proof.
  unfold early_career. rewrite !in_app_iff, !in_map_iff. cbn [In]. split.
  - intros [[<- | []] | [(sep & <- & Hsep) | [(sep & <- & Hsep) | [<- | []]]]]; auto.
    + right. left. exists sep. split; [apply separator_iff, Hsep | reflexivity].
    + right. right. left. exists sep. split; [apply separator_iff, Hsep | reflexivity].
  - intros [-> | [(sep & Hsep & ->) | [(sep & Hsep & ->) | ->]]]; auto.
    + right. left. exists sep. split; [reflexivity | apply separator_iff, Hsep].
    + right. right. left. exists sep. split; [reflexivity | apply separator_iff, Hsep].
Qed.

(** X12. On titles of code units below 256, the pre-filter keeps a posting
    exactly when its title, with the letters A to Z turned to lower case,
    holds [intern], or [new] then [grad], or [entry] then [level], the two
    words set side by side or parted by one hyphen or one white-space code
    unit (tab, line feed, vertical tab, form feed, carriage return, space,
    no-break space), or [summer 202]. *)
Theorem relevant_means_an_early_career_title :
  forall j : GreenhouseJob.t,
    is_relevant j = true <-> early_career_title (lower (GreenhouseJob.title j)).
Proof.
  intros j. rewrite is_relevant_iff. unfold early_career_title. split.
  - intros (pat & before & after & Hin & ->). exists before, after.
    apply early_career_iff in Hin.
    destruct Hin as [-> | [(sep & Hsep & ->) | [(sep & Hsep & ->) | ->]]].
    + left. reflexivity.
    + right. left. exists sep. split; [exact Hsep|].
      cbn [append]. rewrite append_assoc. reflexivity.
    + right. right. left. exists sep. split; [exact Hsep|].
      cbn [append]. rewrite append_assoc. reflexivity.
    + right. right. right. reflexivity.
  - intros (before & after & [Heq | [(sep & Hsep & Heq) | [(sep & Hsep & Heq) | Heq]]]).
    + exists "intern", before, after. split; [apply early_career_iff; auto | exact Heq].
    + exists ("new" ++ sep ++ "grad")%string, before, after.
      split; [apply early_career_iff; right; left; eauto|].
      rewrite Heq. cbn [append]. rewrite append_assoc. reflexivity.
    + exists ("entry" ++ sep ++ "level")%string, before, after.
      split; [apply early_career_iff; right; right; left; eauto|].
      rewrite Heq. cbn [append]. rewrite append_assoc. reflexivity.
    + exists "summer 202", before, after.
      split; [apply early_career_iff; auto | exact Heq].
Qed.

(** Titles the filter lets through for the letters alone. *)
Example relevant_by_substring :
  map (fun t => is_relevant (GreenhouseJob.mk 1 t None "" "" None))
      ["Internal Tools Lead"; "VP, International"; "SUMMER 2025 ANALYST"; "Senior Engineer"]
  = [true; true; true; false].
Proof. vm_compute. reflexivity. Qed.

Lemma relevant_means_an_early_career_title_witness :
  is_relevant sample_job = true
  /\ is_relevant (GreenhouseJob.mk 7 "New-Grad Engineer" None "" "" None) = true
  /\ early_career_title "staff engineer, entry level tooling".
Proof.
  split; [|split].
  - apply (proj2 (relevant_means_an_early_career_title sample_job)).
    exists "software engineering ", "". left. reflexivity.
  - apply (proj2 (relevant_means_an_early_career_title
                    (GreenhouseJob.mk 7 "New-Grad Engineer" None "" "" None))).
    exists "", " engineer". right. left. exists "-". split; [right; left|]; reflexivity.
  - apply (proj1 (relevant_means_an_early_career_title
                    (GreenhouseJob.mk 8 "Staff Engineer, Entry Level Tooling" None "" ""
                       None))).
    vm_compute. reflexivity.
Defined.

(** ** The text of a description *)

Lemma space_is_no_bracket c : is_space c = true -> is_lt c = false /\ is_gt c = false.
Proof.
  unfold is_space, is_lt, is_gt. intros H.
  destruct (Ascii.eqb_spec c "<") as [->|_]; [discriminate H|].
  destruct (Ascii.eqb_spec c ">") as [->|_]; [discriminate H|]. split; reflexivity.
Qed.

Lemma collapse_single_spaced text :
  single_spaced false (collapse_spaces false text)
  /\ single_spaced true (collapse_spaces true text).
Proof.
  induction text as [|c rest [IHf IHt]]; [split; exact I|].
  cbn [collapse_spaces]. destruct (is_space c) eqn:E.
  - split; [|exact IHt].
    change (" "%char = " "%char /\ false = false
            /\ single_spaced true (collapse_spaces true rest)).
    split; [reflexivity|]. split; [reflexivity | exact IHt].
  - cbn [single_spaced]. rewrite E. split; [exact IHf | exact IHf].
Qed.

Lemma single_spaced_weaken b text : single_spaced b text -> single_spaced false text.
Proof.
  destruct text as [|c rest]; [auto|]. cbn [single_spaced].
  destruct (is_space c); [|auto].
  intros H. destruct H as (H1 & _ & H3). split; [exact H1|]. split; [reflexivity | exact H3].
Qed.

Lemma trim_start_first text : not_space (first_char (trim_start text)).
Proof.
  induction text as [|c rest IH]; [exact I|]. cbn [trim_start].
  destruct (is_space c) eqn:E; [exact IH | exact E].
Qed.

Lemma trim_start_single_spaced b text :
  single_spaced b text -> single_spaced false (trim_start text).
Proof.
  revert b. induction text as [|c rest IH]; intros b H; [exact I|]. cbn [trim_start].
  pose proof (single_spaced_weaken _ _ H) as Hw. cbn [single_spaced] in H.
  destruct (is_space c) eqn:E.
  - destruct H as (_ & _ & H). eapply IH, H.
  - exact Hw.
Qed.

Lemma trim_end_single_spaced text :
  forall b, single_spaced b text -> single_spaced b (trim_end text).
Proof.
  induction text as [|c rest IH]; intros b H; [exact I|]. cbn [trim_end].
  cbn [single_spaced] in H.
  destruct (trim_end rest) as [|k kept] eqn:Ek.
  - destruct (is_space c) eqn:E; [exact I|]. cbn [single_spaced]. rewrite E. exact I.
  - cbn [single_spaced]. destruct (is_space c).
    + destruct H as (H1 & H2 & H3). repeat split; auto. apply (IH true H3).
    + apply (IH false H).
Qed.

Lemma trim_end_last text : not_space (last_char (trim_end text)).
Proof.
  induction text as [|c rest IH]; [exact I|]. cbn [trim_end].
  destruct (trim_end rest) as [|k kept] eqn:Ek.
  - destruct (is_space c) eqn:E; [exact I | exact E].
  - exact IH.
Qed.

Lemma trim_end_first text :
  not_space (first_char text) -> not_space (first_char (trim_end text)).
Proof.
  destruct text as [|c rest]; [auto|]. cbn [trim_end first_char not_space]. intros E.
  destruct (trim_end rest); [rewrite E|]; exact E.
Qed.

Lemma collapse_fixed text :
  forall b, single_spaced b text -> collapse_spaces b text = text.
Proof.
  induction text as [|c rest IH]; intros b H; [reflexivity|].
  cbn [collapse_spaces]. cbn [single_spaced] in H. destruct (is_space c).
  - destruct H as (-> & -> & H). rewrite (IH true H). reflexivity.
  - rewrite (IH false H). reflexivity.
Qed.

Lemma trim_start_fixed text : not_space (first_char text) -> trim_start text = text.
Proof. destruct text as [|c rest]; [auto|]. cbn. intros ->. reflexivity. Qed.

Lemma trim_end_fixed text : not_space (last_char text) -> trim_end text = text.
Proof.
  induction text as [|c rest IH]; [auto|]. cbn [trim_end]. intros H.
  destruct rest as [|k rest'].
  - cbn in *. rewrite H. reflexivity.
  - rewrite IH by exact H. reflexivity.
Qed.

Lemma no_gt_tagless text : no_gt text -> tagless text.
Proof.
  induction text as [|c rest IH]; [auto|]. intros [_ H]. split; [auto | apply IH, H].
Qed.

Lemma no_gt_app a b : no_gt a -> no_gt b -> no_gt (a ++ b)%string.
Proof. induction a as [|c a IH]; [auto|]. intros [H1 H2] Hb. split; auto. Qed.

Lemma replace_tags_tagless html :
  tagless (replace_tags None html)
  /\ forall seen, no_gt seen -> tagless (replace_tags (Some seen) html).
Proof.
  induction html as [|c rest [IHn IHs]].
  - split; [exact I|]. intros seen Hs. split; [auto | apply no_gt_tagless, Hs].
  - split.
    + cbn [replace_tags]. destruct (is_lt c) eqn:E.
      * apply IHs. exact I.
      * split; [congruence | exact IHn].
    + intros seen Hs. cbn [replace_tags]. destruct (is_gt c) eqn:E.
      * destruct seen; cbn [tagless].
        -- split; [left; reflexivity|]. split; [discriminate | exact IHn].
        -- split; [discriminate | exact IHn].
      * apply IHs. apply no_gt_app; [exact Hs | split; [exact E | exact I]].
Qed.

Lemma no_gt_collapse text : forall b, no_gt text -> no_gt (collapse_spaces b text).
Proof.
  induction text as [|c rest IH]; intros b H; [exact I|]. destruct H as [Hc H].
  cbn [collapse_spaces]. destruct (is_space c); [destruct b|]; cbn [no_gt]; auto.
Qed.

Lemma starts_collapse text b : starts_with_gt text -> starts_with_gt (collapse_spaces b text).
Proof.
  destruct text as [|c rest]; [auto|]. cbn [starts_with_gt collapse_spaces]. intros H.
  destruct (is_space c) eqn:E; [|exact H].
  apply space_is_no_bracket in E. destruct E as [_ E]. congruence.
Qed.

Lemma tagless_collapse text : forall b, tagless text -> tagless (collapse_spaces b text).
Proof.
  induction text as [|c rest IH]; intros b Ht; [exact I|]. destruct Ht as [Hc H].
  cbn [collapse_spaces]. destruct (is_space c) eqn:E.
  - destruct b; [apply IH, H|]. split; [discriminate | apply IH, H].
  - split; [|apply IH, H]. intros Hlt. destruct (Hc Hlt) as [Hs | Hn].
    + left. apply starts_collapse, Hs.
    + right. apply no_gt_collapse, Hn.
Qed.

Lemma tagless_trim_start text : tagless text -> tagless (trim_start text).
Proof.
  induction text as [|c rest IH]; [auto|]. intros [Hc H]. cbn [trim_start].
  destruct (is_space c); [apply IH, H | split; assumption].
Qed.

Lemma no_gt_trim_end text : no_gt text -> no_gt (trim_end text).
Proof.
  induction text as [|c rest IH]; [auto|]. intros [Hc H]. cbn [trim_end].
  pose proof (IH H) as IH'. destruct (trim_end rest).
  - destruct (is_space c); [exact I | split; [exact Hc | exact I]].
  - split; assumption.
Qed.

Lemma starts_trim_end text : starts_with_gt text -> starts_with_gt (trim_end text).
Proof.
  destruct text as [|c rest]; [auto|]. cbn [starts_with_gt trim_end]. intros H.
  destruct (trim_end rest); [|exact H].
  destruct (is_space c) eqn:E; [|exact H].
  apply space_is_no_bracket in E. destruct E as [_ E]. congruence.
Qed.

Lemma tagless_trim_end text : tagless text -> tagless (trim_end text).
Proof.
  induction text as [|c rest IH]; [auto|]. intros [Hc H]. cbn [trim_end].
  pose proof (IH H) as IH'.
  destruct (trim_end rest) as [|k kept] eqn:Ek.
  - destruct (is_space c); [exact I|]. split; [right; exact I | exact I].
  - split; [|exact IH']. intros Hlt. destruct (Hc Hlt) as [Hs | Hn].
    + left. rewrite <- Ek. apply starts_trim_end, Hs.
    + right. rewrite <- Ek. apply no_gt_trim_end, Hn.
Qed.

Lemma replace_tags_unclosed text :
  forall seen, no_gt text ->
               replace_tags (Some seen) text = String "<" (seen ++ text)%string.
Proof.
  induction text as [|c rest IH]; intros seen H; cbn [replace_tags].
  - f_equal. induction seen as [|a seen IHs]; [reflexivity|]. cbn. f_equal. exact IHs.
  - destruct H as [Hc H]. rewrite Hc, (IH _ H). f_equal.
    induction seen as [|a seen IHs]; [reflexivity|]. cbn. f_equal. exact IHs.
Qed.

Lemma replace_tags_fixed text : tagless text -> replace_tags None text = text.
Proof.
  induction text as [|c rest IH]; [auto|]. intros [Hc H]. cbn [replace_tags].
  destruct (is_lt c) eqn:E.
  - apply Ascii.eqb_eq in E. subst c. destruct (Hc eq_refl) as [Hs | Hn].
    + destruct rest as [|g rest']; [contradiction|]. cbn [starts_with_gt] in Hs.
      cbn [replace_tags]. rewrite Hs.
      pose proof (IH H) as Hrest. cbn [replace_tags] in Hrest.
      assert (Hg : is_lt g = false).
      { apply Ascii.eqb_eq in Hs. subst g. reflexivity. }
      rewrite Hg in Hrest. injection Hrest as Hrest. rewrite Hrest.
      apply Ascii.eqb_eq in Hs. subst g. reflexivity.
    + rewrite (replace_tags_unclosed rest "" Hn). reflexivity.
  - rewrite (IH H). reflexivity.
Qed.

(** The shape of every stripped text. *)
Lemma stripHtml_shape html :
  single_spaced false (stripHtml html)
  /\ not_space (first_char (stripHtml html))
  /\ not_space (last_char (stripHtml html))
  /\ tagless (stripHtml html).
Proof.
  unfold stripHtml, trim. repeat split.
  - apply trim_end_single_spaced.
    apply (trim_start_single_spaced false), collapse_single_spaced.
  - apply trim_end_first, trim_start_first.
  - apply trim_end_last.
  - apply tagless_trim_end, tagless_trim_start, tagless_collapse, replace_tags_tagless.
Qed.

(** X13. What [stripHtml] returns has no white space but single blanks, none
    of them at either end, and no tag left: after every ["<"] comes [">"] at
    once or never. *)
Theorem stripped_text_is_plain_and_tidy :
  forall html : string,
    let text := stripHtml html in
    single_spaced false text
    /\ not_space (first_char text)
    /\ not_space (last_char text)
    /\ tagless text.
Proof. intros html. apply stripHtml_shape. Qed.

(** X14. [stripHtml] leaves alone a text that is already plain and tidy, so
    stripping twice is stripping once; and a text without ["<"] only has its
    white space tidied. *)
Theorem stripHtml_is_idempotent :
  forall html : string,
    (single_spaced false html -> not_space (first_char html) ->
     not_space (last_char html) -> tagless html -> stripHtml html = html)
    /\ stripHtml (stripHtml html) = stripHtml html
    /\ (no_lt html -> stripHtml html = trim (collapse_spaces false html)).
Proof.
  assert (Hfixed : forall text,
             single_spaced false text -> not_space (first_char text) ->
             not_space (last_char text) -> tagless text -> stripHtml text = text).
  { intros text Hs Hf Hl Ht. unfold stripHtml, trim.
    rewrite (replace_tags_fixed _ Ht), (collapse_fixed _ _ Hs), (trim_start_fixed _ Hf).
    apply trim_end_fixed, Hl. }
  intros html. split; [apply Hfixed|]. split.
  - destruct (stripHtml_shape html) as (Hs & Hf & Hl & Ht). apply Hfixed; assumption.
  - intros Hno. unfold stripHtml. do 2 f_equal. clear Hfixed.
    induction html as [|c rest IH]; [reflexivity|]. destruct Hno as [Hc Hno].
    cbn [replace_tags]. rewrite Hc, (IH Hno). reflexivity.
Qed.

Lemma stripHtml_is_idempotent_witness :
  stripHtml "Build payments ." = "Build payments ."
  /\ stripHtml "  two   words " = trim (collapse_spaces false "  two   words ").
Proof.
  destruct (stripHtml_is_idempotent "Build payments .") as (Hfixed & _ & _).
  destruct (stripHtml_is_idempotent "  two   words ") as (_ & _ & Hplain).
  split; [apply Hfixed | apply Hplain]; simpl; tauto.
Defined.

(** Markup, line breaks, and brackets that are or are not read as tags. *)
Example stripHtml_samples :
  map stripHtml
      ["<p>Build <b>payments</b>.</p>"; "  a" ++ String (ascii_of_nat 10) "" ++ "b  ";
       "x <> y"; "1 < 2 and 3 > 2"; "if a<b then"; "<<a>>"; "<br/>"; ""]%string
  = ["Build payments ."; "a b"; "x <> y"; "1 2"; "if a<b then"; ">"; ""; ""].
Proof. vm_compute. reflexivity. Qed.

(** ** From discovery to review *)

Lemma runNormalize_row jobId c w p normalized :
  posting_by_id jobId w = Some p ->
  descSnippet (Posting.description_raw p) = Returned tt ->
  parse_completion c = Returned normalized ->
  normalized <> JNull ->
  posting_by_id jobId (world_of (runNormalize jobId c w))
  = Some (set_normalized
            (param (get_prop "normalizedTitle" normalized))
            (param (get_prop "level" normalized))
            (param (get_prop "remoteMode" normalized))
            (param (get_prop "visaSponsorship" normalized))
            (param (get_prop "normalizedLocation" normalized)) p).
Proof.
  intros Hrow Hdesc Hparse Hnull.
  rewrite (runNormalize_applied _ _ _ _ _ Hrow Hdesc Hparse Hnull).
  pose proof (posting_by_id_update jobId
                (set_normalized
                   (param (get_prop "normalizedTitle" normalized))
                   (param (get_prop "level" normalized))
                   (param (get_prop "remoteMode" normalized))
                   (param (get_prop "visaSponsorship" normalized))
                   (param (get_prop "normalizedLocation" normalized))) w
                (set_normalized_id _ _ _ _ _)) as Hupd.
  rewrite Hrow in Hupd. exact Hupd.
Qed.

Lemma draftContent_spreadable job :
  draftContent job = Returned tt <-> spreadable (tailoredBullets job).
Proof.
  unfold draftContent, spreadable, coalesce.
  destruct (tailoredBullets job) as [[]|]; split; intros H;
    try reflexivity; try exact I; try discriminate H; try contradiction.
Qed.

Lemma never_spreads_throws job :
  never_spreads (tailoredBullets job) -> draftContent job = Thrown.
Proof.
  unfold draftContent, never_spreads, coalesce.
  destruct (tailoredBullets job) as [[| |[]| | |]|]; intros H;
    try reflexivity; contradiction.
Qed.

(** X15. Materials hands [tailoredBullets] on unchecked, and Compliance
    spreads it into the draft.  When the response of Materials holds a
    boolean, a finite number or an object there, Materials still returns and
    adds the Compliance task for the posting, with bullets of that kind; every
    delivery of that task, whenever it runs and whatever the check would
    answer, throws while the draft is put together and writes nothing; so the
    status read from the posting's row stays Drafting. *)
Theorem unspreadable_bullets_stall_the_posting :
  forall (j : nat) (baseHash : string) (c : completion) (w : world) (p : Posting.row)
         (materials : json),
    posting_by_id j w = Some p ->
    descSnippet (Posting.description_raw p) = Returned tt ->
    parse_completion c = Returned materials ->
    materials <> JNull ->
    never_spreads (get_prop "tailoredBullets" materials) ->
    let r := runMaterials j baseHash c w in
    result_of r = Returned tt
    /\ exists payload : CompliancePayload,
         complianceQueue (world_of r) = complianceQueue w ++ [payload]
         /\ jobId payload = j
         /\ never_spreads (tailoredBullets payload)
         /\ (forall later today check,
               result_of (runCompliance payload today check later) = Thrown
               /\ world_of (runCompliance payload today check later) = later)
         /\ (forall today check,
               option_map Posting.status
                 (posting_by_id j (world_of (runCompliance payload today check (world_of r))))
               = Some Drafting).
Proof.
  intros j baseHash c w p materials Hrow Hdesc Hparse Hnull Hbad r.
  destruct (runMaterials_row j baseHash c w p materials Hrow Hdesc Hparse Hnull)
    as [notes Hrow'].
  fold r in Hrow'.
  pose proof (runMaterials_drafted j baseHash c w p materials Hrow Hdesc Hparse Hnull) as Hrun.
  cbv zeta in Hrun. fold r in Hrun.
  set (payload := mkCompliancePayload j
                    (Some (fresh_id (map ResumeVersion.id (resume_versions w))))
                    (get_prop "coverLetter" materials)
                    (get_prop "tailoredBullets" materials)) in *.
  assert (Hthrows : forall later today check,
            runCompliance payload today check later = (Thrown, later, [])).
  { intros later today check.
    destruct (runCompliance_cases payload today check later) as [H | (res & ok & Hd & _)];
      [exact H|].
    rewrite (never_spreads_throws payload Hbad) in Hd. discriminate Hd. }
  split; [rewrite Hrun; reflexivity|].
  exists payload. split; [rewrite Hrun; reflexivity|].
  split; [reflexivity|]. split; [exact Hbad|]. split.
  - intros later today check. rewrite Hthrows. split; reflexivity.
  - intros today check. rewrite Hthrows. cbn [world_of fst snd]. rewrite Hrow'. reflexivity.
Qed.

Lemma unspreadable_bullets_stall_the_posting_witness :
  let materials := JObj [("coverLetter", JStr "Dear team,"); ("tailoredBullets", JNum (num 5))] in
  let r := runMaterials 1 "0123456789abcdef" (Parses materials) sample_world in
  result_of r = Returned tt
  /\ exists payload : CompliancePayload,
       complianceQueue (world_of r) = complianceQueue sample_world ++ [payload]
       /\ jobId payload = 1%nat
       /\ never_spreads (tailoredBullets payload)
       /\ (forall later today check,
             result_of (runCompliance payload today check later) = Thrown
             /\ world_of (runCompliance payload today check later) = later)
       /\ (forall today check,
             option_map Posting.status
               (posting_by_id 1 (world_of (runCompliance payload today check (world_of r))))
             = Some Drafting).
Proof.
  intros materials.
  apply (unspreadable_bullets_stall_the_posting 1 "0123456789abcdef" (Parses materials)
           sample_world sample_posting materials).
  - reflexivity.
  - reflexivity.
  - reflexivity.
  - discriminate.
  - simpl. exact I.
Defined.

(** X16. The five workers in a row.  A posting that Scout stores as new,
    whose Normalize completion parses, whose FitScore response gives a
    clamped score of 60 or more, whose Materials response carries bullets
    that can be spread, and whose Compliance check passes, is handed from
    queue to queue under the id of its row and ends ReadyForReview, with the
    score, one new resume version named by the Compliance task, an
    application, and follow-ups 1 and 2; its key, company and description
    are those Scout stored. *)
Theorem from_discovery_to_review :
  forall (ToNumber_text : json -> outcome jsnum) (target : Target.t) (d : Discovery)
         (n : nat) (w : world) (fields : ExtractedFields.t)
         (c2 c3 c4 c5 : completion) (normalized result materials verdict : json)
         (score : jsnum) (baseHash : string) (today : Z),
    extractStructuredFields (extraction d) = Returned fields ->
    insert_fails d = false ->
    stored_under (posting_key (gh d)) w = [] ->
    parse_completion c2 = Returned normalized -> normalized <> JNull ->
    parse_completion c3 = Returned result -> result <> JNull ->
    clamped ToNumber_text (get_prop "fitScore" result) = Returned score ->
    num_geb score (num 60) = true ->
    parse_completion c4 = Returned materials -> materials <> JNull ->
    spreadable (get_prop "tailoredBullets" materials) ->
    parse_completion c5 = Returned verdict ->
    passed verdict = Returned true ->
    let w1 := world_of (scout_posting target d n w) in
    exists (i : nat) (payload : CompliancePayload) (version : ResumeVersion.row)
           (row : Posting.row),
      let w2 := world_of (runNormalize i c2 w1) in
      let w3 := world_of (runFitScore ToNumber_text i c3 w2) in
      let w4 := world_of (runMaterials i baseHash c4 w3) in
      let last := runCompliance payload today c5 w4 in
      normalizeQueue w1 = normalizeQueue w ++ [i]
      /\ fitScoreQueue w2 = fitScoreQueue w ++ [i]
      /\ materialsQueue w3 = materialsQueue w ++ [i]
      /\ complianceQueue w4 = complianceQueue w ++ [payload]
      /\ jobId payload = i
      /\ resumeVersionId payload = Some (ResumeVersion.id version)
      /\ result_of last = Returned tt
      /\ queues (world_of last) = queues w4
      /\ posting_by_id i (world_of last) = Some row
      /\ Posting.status row = ReadyForReview
      /\ Posting.fit_score row = JNum score
      /\ key_of row = posting_key (gh d)
      /\ Posting.company row = JStr (Target.company target)
      /\ Posting.description_raw row = JStr (GreenhouseJob.content (gh d))
      /\ resume_versions (world_of last) = resume_versions w ++ [version]
      /\ existsb (for_posting i) (applications (world_of last)) = true
      /\ existsb (same_followup_key i 1) (followups (world_of last)) = true
      /\ existsb (same_followup_key i 2) (followups (world_of last)) = true.
Proof.
  intros T target d n w fields c2 c3 c4 c5 normalized result materials verdict score
         baseHash today Hex Hins Hnew Hp2 Hn2 Hp3 Hn3 Hscore Hge Hp4 Hn4 Hspread Hp5 Hpass w1.
  pose proof (scout_posting_stores target d n w fields Hex Hins Hnew) as Hrun1.
  cbv zeta in Hrun1.
  match type of Hrun1 with
  | context [job_postings w ++ [?r]] => set (row0 := r) in *
  end.
  set (i := fresh_id (map Posting.id (job_postings w))) in *.
  assert (Hw1 : w1 = mkWorld (job_postings w ++ [row0]) (followups w) (resume_versions w)
                       (applications w) (normalizeQueue w ++ [i]) (fitScoreQueue w)
                       (materialsQueue w) (complianceQueue w))
    by (unfold w1; rewrite Hrun1; reflexivity).
  assert (Hrow1 : posting_by_id i w1 = Some row0).
  { rewrite Hw1. unfold posting_by_id. cbn [job_postings].
    change i with (Posting.id row0). rewrite (posting_by_id_fresh w row0 eq_refl).
    reflexivity. }
  (* Normalize *)
  pose proof (runNormalize_row i c2 w1 row0 normalized Hrow1 eq_refl Hp2 Hn2) as Hrow2.
  pose proof (runNormalize_applied i c2 w1 row0 normalized Hrow1 eq_refl Hp2 Hn2) as Hrun2.
  set (w2 := world_of (runNormalize i c2 w1)) in *.
  set (row2 := set_normalized (param (get_prop "normalizedTitle" normalized))
                 (param (get_prop "level" normalized))
                 (param (get_prop "remoteMode" normalized))
                 (param (get_prop "visaSponsorship" normalized))
                 (param (get_prop "normalizedLocation" normalized)) row0) in *.
  assert (Hq2 : fitScoreQueue w2 = fitScoreQueue w ++ [i]
                /\ materialsQueue w2 = materialsQueue w
                /\ complianceQueue w2 = complianceQueue w
                /\ resume_versions w2 = resume_versions w)
    by (unfold w2; rewrite Hrun2, Hw1; repeat split).
  destruct Hq2 as (Hf2 & Hm2 & Hc2 & Hr2).
  (* FitScore *)
  pose proof (runFitScore_row T i c3 w2 row2 result score Hrow2 eq_refl Hp3 Hn3 Hscore)
    as Hrow3.
  pose proof (runFitScore_scored T i c3 w2 row2 result score Hrow2 eq_refl Hp3 Hn3 Hscore)
    as Hrun3.
  cbv zeta in Hrun3. change (num 60) with FIT_THRESHOLD in Hge. rewrite Hge in Hrun3.
  set (w3 := world_of (runFitScore T i c3 w2)) in *.
  set (row3 := set_fit (JNum score) (coalesce (get_prop "reasoning" result) (JArr []))
                 (coalesce (get_prop "risks" result) (JArr [])) (status_for score) row2) in *.
  assert (Hq3 : materialsQueue w3 = materialsQueue w ++ [i]
                /\ complianceQueue w3 = complianceQueue w
                /\ resume_versions w3 = resume_versions w)
    by (unfold w3; rewrite Hrun3; cbn; rewrite Hm2, Hc2, Hr2; repeat split).
  destruct Hq3 as (Hm3 & Hc3 & Hr3).
  (* Materials *)
  destruct (runMaterials_row i baseHash c4 w3 row3 materials Hrow3 eq_refl Hp4 Hn4)
    as [notes Hrow4].
  pose proof (runMaterials_drafted i baseHash c4 w3 row3 materials Hrow3 eq_refl Hp4 Hn4)
    as Hrun4.
  cbv zeta in Hrun4.
  set (w4 := world_of (runMaterials i baseHash c4 w3)) in *.
  set (version := ResumeVersion.mk (fresh_id (map ResumeVersion.id (resume_versions w3)))
                    baseHash (Posting.title row3)
                    (coalesce (get_prop "tailoredBullets" materials) (JArr []))) in *.
  set (payload := mkCompliancePayload i
                    (Some (fresh_id (map ResumeVersion.id (resume_versions w3))))
                    (get_prop "coverLetter" materials)
                    (get_prop "tailoredBullets" materials)) in *.
  assert (Hq4 : complianceQueue w4 = complianceQueue w ++ [payload]
                /\ resume_versions w4 = resume_versions w ++ [version]
                /\ existsb (for_posting i) (applications w4) = true).
  { unfold w4. rewrite Hrun4. cbn [world_of fst snd add_compliance modify complianceQueue
      resume_versions applications with_job_postings with_applications with_resume_versions].
    rewrite Hc3, Hr3. repeat split. apply applications_insert_stored. }
  destruct Hq4 as (Hc4 & Hr4 & Ha4).
  (* Compliance *)
  assert (Hd : draftContent payload = Returned tt)
    by (apply draftContent_spreadable; exact Hspread).
  pose proof (runCompliance_decided payload today c5 w4 verdict true Hd Hp5 Hpass) as Hrun5.
  exists i, payload, version, (set_status ReadyForReview (set_notes notes (set_status Drafting row3))).
  cbv zeta. fold w2. fold w3. fold w4. rewrite Hrun5. cbn [result_of world_of fst snd].
  split; [rewrite Hw1; reflexivity|]. split; [exact Hf2|]. split; [exact Hm3|].
  split; [exact Hc4|]. split; [reflexivity|]. split; [reflexivity|].
  split; [reflexivity|]. split; [reflexivity|].
  split.
  { change (posting_by_id i (with_followups ?f ?x)) with (posting_by_id i x).
    change (jobId payload) with i.
    rewrite posting_by_id_update by apply set_status_id. rewrite Hrow4. reflexivity. }
  split; [reflexivity|]. split; [reflexivity|]. split; [reflexivity|].
  split; [reflexivity|]. split; [reflexivity|].
  split; [exact Hr4|]. split; [exact Ha4|].
  cbn [followups with_followups with_job_postings]. split.
  - apply followups_insert_keeps, followups_insert_stored.
  - apply followups_insert_stored.
Qed.

Lemma from_discovery_to_review_witness :
  let c3 := Parses (JObj [("fitScore", JNum (num 72))]) in
  let c4 := Parses (JObj [("coverLetter", JStr "Dear team,");
                          ("tailoredBullets", JArr [JStr "Built X"])]) in
  let c5 := Parses (JObj [("pass", JBool true); ("flags", JArr [])]) in
  let w1 := world_of (scout_posting sample_target sample_discovery 0 empty_world) in
  exists (i : nat) (payload : CompliancePayload) (version : ResumeVersion.row)
         (row : Posting.row),
    let w2 := world_of (runNormalize i NoContent w1) in
    let w3 := world_of (runFitScore no_text i c3 w2) in
    let w4 := world_of (runMaterials i "0123456789abcdef" c4 w3) in
    let last := runCompliance payload 1762041600000 c5 w4 in
    normalizeQueue w1 = normalizeQueue empty_world ++ [i]
    /\ fitScoreQueue w2 = fitScoreQueue empty_world ++ [i]
    /\ materialsQueue w3 = materialsQueue empty_world ++ [i]
    /\ complianceQueue w4 = complianceQueue empty_world ++ [payload]
    /\ jobId payload = i
    /\ resumeVersionId payload = Some (ResumeVersion.id version)
    /\ result_of last = Returned tt
    /\ queues (world_of last) = queues w4
    /\ posting_by_id i (world_of last) = Some row
    /\ Posting.status row = ReadyForReview
    /\ Posting.fit_score row = JNum (num 72)
    /\ key_of row = posting_key (gh sample_discovery)
    /\ Posting.company row = JStr (Target.company sample_target)
    /\ Posting.description_raw row = JStr (GreenhouseJob.content (gh sample_discovery))
    /\ resume_versions (world_of last) = resume_versions empty_world ++ [version]
    /\ existsb (for_posting i) (applications (world_of last)) = true
    /\ existsb (same_followup_key i 1) (followups (world_of last)) = true
    /\ existsb (same_followup_key i 2) (followups (world_of last)) = true.
Proof.
  intros c3 c4 c5.
  apply (from_discovery_to_review no_text sample_target sample_discovery 0 empty_world
           (ExtractedFields.mk (JStr "intern") (JStr "unknown") (JStr "unknown")
              (JObj [("techStack", JArr [])]))
           NoContent c3 c4 c5 (JObj []) (JObj [("fitScore", JNum (num 72))])
           (JObj [("coverLetter", JStr "Dear team,");
                  ("tailoredBullets", JArr [JStr "Built X"])])
           (JObj [("pass", JBool true); ("flags", JArr [])])
           (num 72) "0123456789abcdef" 1762041600000).
  - reflexivity.
  - reflexivity.
  - reflexivity.
  - reflexivity.
  - discriminate.
  - reflexivity.
  - discriminate.
  - reflexivity.
  - reflexivity.
  - reflexivity.
  - discriminate.
  - simpl. tauto.
  - reflexivity.
  - reflexivity.
Defined.

(** One posting from the board to ReadyForReview, task by task. *)
Example one_posting_through_the_pipeline :
  let deliveries :=
    [ScoutTask sample_fetch;
     NormalizeTask 1 NoContent;
     FitScoreTask 1 (Parses (JObj [("fitScore", JNum (num 72))]));
     MaterialsTask 1 "0123456789abcdef"
       (Parses (JObj [("coverLetter", JStr "Dear team,");
                      ("tailoredBullets", JArr [JStr "Built X"])]));
     ComplianceTask
       (mkCompliancePayload 1 (Some 1%nat) (Some (JStr "Dear team,"))
          (Some (JArr [JStr "Built X"])))
       1762041600000 (Parses (JObj [("pass", JBool true); ("flags", JArr [])]))] in
  let w := process_all no_text deliveries empty_world in
  map Posting.status (job_postings w) = [ReadyForReview]
  /\ queues w = ([1%nat], [1%nat], [1%nat],
                 [mkCompliancePayload 1 (Some 1%nat) (Some (JStr "Dear team,"))
                    (Some (JArr [JStr "Built X"]))])
  /\ map FollowUp.scheduled_for (followups w) = [20401; 20408]%Z
  /\ List.length (resume_versions w) = 1%nat
  /\ List.length (applications w) = 1%nat.
Proof. vm_compute. repeat split; reflexivity. Qed.

(** ** What a scored row holds *)

(** X17. Once FitScore has returned on a stored posting, the row holds a
    number as its score, Shortlisted or Archived as its status, and as
    reasoning and as risks a value that is not NULL: what the response gave,
    or the empty list when the response gave nothing or null. *)
Theorem scored_row_has_no_nulls :
  forall (ToNumber_text : json -> outcome jsnum) (j : nat) (c : completion) (w : world),
    posting_by_id j w <> None ->
    let r := runFitScore ToNumber_text j c w in
    result_of r = Returned tt ->
    exists (row : Posting.row) (score : jsnum) (result : json),
      posting_by_id j (world_of r) = Some row
      /\ parse_completion c = Returned result
      /\ Posting.fit_score row = JNum score
      /\ (Posting.status row = Shortlisted \/ Posting.status row = Archived)
      /\ Posting.fit_reasoning row <> JNull
      /\ Posting.risks row <> JNull
      /\ (supplied "reasoning" result = None -> Posting.fit_reasoning row = JArr [])
      /\ (forall v, supplied "reasoning" result = Some v -> Posting.fit_reasoning row = v)
      /\ (supplied "risks" result = None -> Posting.risks row = JArr [])
      /\ (forall v, supplied "risks" result = Some v -> Posting.risks row = v).
Proof.
  intros T j c w Hstored r Hret. unfold r in *.
  destruct (runFitScore_cases T j c w)
    as [[Hnone _] | [[_ H] | (p & result & s & Hrow & Hdesc & Hparse & Hnull & Hs)]].
  - contradiction.
  - rewrite H in Hret. discriminate.
  - rewrite (runFitScore_row T _ _ _ _ _ _ Hrow Hdesc Hparse Hnull Hs).
    eexists. exists s, result. split; [reflexivity|]. split; [exact Hparse|].
    cbn [set_fit Posting.fit_score Posting.status Posting.fit_reasoning Posting.risks].
    split; [reflexivity|].
    split; [unfold status_for; destruct (num_geb s FIT_THRESHOLD); auto|].
    unfold supplied, coalesce.
    destruct (get_prop "reasoning" result) as [[]|], (get_prop "risks" result) as [[]|];
      repeat split; try discriminate; try reflexivity;
      intros v Hv; injection Hv as <-; reflexivity.
Qed.

Lemma scored_row_has_no_nulls_witness :
  let r := runFitScore no_text 1 (Parses (JObj [("fitScore", JNum (num 72));
                                               ("risks", JNull)])) sample_world in
  exists (row : Posting.row) (score : jsnum) (result : json),
    posting_by_id 1 (world_of r) = Some row
    /\ parse_completion (Parses (JObj [("fitScore", JNum (num 72)); ("risks", JNull)]))
       = Returned result
    /\ Posting.fit_score row = JNum score
    /\ (Posting.status row = Shortlisted \/ Posting.status row = Archived)
    /\ Posting.fit_reasoning row <> JNull
    /\ Posting.risks row <> JNull
    /\ (supplied "reasoning" result = None -> Posting.fit_reasoning row = JArr [])
    /\ (forall v, supplied "reasoning" result = Some v -> Posting.fit_reasoning row = v)
    /\ (supplied "risks" result = None -> Posting.risks row = JArr [])
    /\ (forall v, supplied "risks" result = Some v -> Posting.risks row = v).
Proof.
  apply (scored_row_has_no_nulls no_text 1
           (Parses (JObj [("fitScore", JNum (num 72)); ("risks", JNull)])) sample_world).
  - discriminate.
  - reflexivity.
Defined.
